(** * codekit [github-tag-version]: a shallow embedding of the tagging pipeline

    The development follows [codekit/cli/github_tag_version.py]:
    cross-reference of the eups tag and the manifest, resolution of the
    GitHub repositories under the team policy, planning of the tags and
    their application.

    Conventions of the embedding.
    - Python [dict]s keyed by product name keep their insertion order and
      are association lists ([dict_get], [dict_set]); the per-product
      records ([eups_data], [manifest_data], the merged record) are finite
      maps from field name to string, so that [dict.update] is a union.
    - Strings are sequences of 8-bit characters, read as the code points
      U+0000..U+00FF; on these the regular expression [\d] matches exactly
      the characters 0 to 9.
    - Code runs in a state-and-exception monad: the state is the hosting
      platform together with the log written through [debug], [info],
      [warn] and [error]; an exception is a value of [exn]. *)

From stdpp Require Import gmap strings list fin_maps.
From Stdlib Require Import ZArith Ascii String.

Local Open Scope string_scope.

(** ** Objects of the hosting platform (PyGithub) *)

(** [github.Repository.Repository], as far as the pipeline reads it. *)
Record Repository := { full_name : string }.

(** The tagger of a tag.  [GitAuthor] is what the platform returns,
    [InputGitAuthor] what the tool builds; [_identity] is a dict.  Any other
    Python object is [OtherObject], with the name of its type. *)
Inductive author :=
| GitAuthor (name email date : string)
| InputGitAuthor (_identity : gmap string string)
| OtherObject (type_name : string).

(** [github.GitTag.GitTag]: [tag_sha] is the sha of the tag object itself,
    [tag_object_sha] the sha of the commit it points at ([object.sha]). *)
Record GitTag := {
  tag_sha : string;
  tag_tag : string;
  tag_message : string;
  tag_tagger : author;
  tag_object_sha : string
}.

(** [github.GitRef.GitRef]: [ref_repo] stands for the url of the reference. *)
Record GitRef := {
  ref_repo : Repository;
  ref_ref : string;
  ref_object_sha : string
}.

(** ** Exceptions *)

(** What a call to the platform can raise.  [RateLimitExceededException] and
    [UnknownObjectException] are subclasses of [GithubException];
    [NonGithubError] is any exception outside that hierarchy. *)
Inductive host_exn :=
| RateLimitExceededException
| UnknownObjectException
| GithubException (status : Z)
| NonGithubError (cls : string).

Definition is_GithubException (h : host_exn) : bool :=
  match h with NonGithubError _ => false | _ => true end.

(** Texts of the [RuntimeError]s, with their format arguments. *)
Inductive runtime_msg :=
| MissingManifestRecord (product eups_version : string)
    (* failed to find record in manifest for: {product} {eups_version} *)
| VersionMismatch (product eups_eups_version manifest_eups_version : string)
    (* eups version string mismatch: ... *)
| UnsupportedType (t : string).
    (* unsupported type {t} *)

Inductive team_policy := NotInAllowedTeam | InDeniedTeam.

Inductive dogpile_msg :=
| ProductsHaveErrors (n : nat)   (* {n} product(s) have errors *)
| TagFailures (n : nat).         (* {n} tag failures *)

#[warnings="-register-all"]
Inductive exn :=
| Host (h : host_exn)
| KeyError (key : string)
| UnboundLocalError (var : string)
| TypeError (what : string)
| AttributeError (what : string)
| ValueError (what : string)
| RuntimeError (m : runtime_msg)
| GitTagExistsError (tag sha : string)
| CaughtUnknownObjectError (name : string) (e : host_exn)
| CaughtRepositoryError (repo : Repository) (e : host_exn)
| RepositoryTeamMembershipError (repo : Repository) (why : team_policy)
| DogpileError (errors : list exn) (msg : dogpile_msg).

Inductive outcome (E A : Type) :=
| Ok (a : A)
| Raise (e : E).
Arguments Ok {E A} a.
Arguments Raise {E A} e.

(** ** Records of the pipeline *)

(** The shared tag template of [run] and the per-product target tag. *)
Record tag_template := {
  tmpl_name : string;
  tmpl_message : string;
  tmpl_tagger : author
}.

Record target_tag := {
  t_name : string;
  t_message : string;
  t_tagger : author;
  t_sha : string
}.

(** A resolved product: the merged record [data] with the keys ['repo'] and
    ['v'] that [get_repo_for_products] adds.  The two added keys are fields
    here; the code reads them only through [data['repo']] and [data['v']],
    so that a field of the same name in the merged record is shadowed
    either way. *)
Record resolved_product := {
  rp_data : gmap string string;
  rp_repo : Repository;
  rp_v : bool
}.

(** A planned product: the keys ['target_tag'] and ['update_tag'] added by
    [check_product_tags]. *)
Record tag_plan := {
  tp_product : resolved_product;
  tp_target_tag : target_tag;
  tp_update_tag : bool
}.

(** ** The log *)

Inductive level := DEBUG | INFO | WARN | ERROR.

Inductive text :=
| TAllowedTeams (allow : list string)
| TExternalTeams (ext : option (list string))
| TDeniedTeams (deny : option (list string))
| TLookingForRepo (name ver : string)
| TFound (slug : string)
| TTeams (teams : list string)
| TExternalRepo (v : bool)
| TLookingForTag (tag : string)
| TTagNotFound (tag : string)
| TFoundExistingTag (tag : string)
| TConflictingValues (t : target_tag) (e : GitTag)
| TNoAction (repo tag : string)
| TWillBeMoved (tag : string)
| TTaggingRepo (repo sha gt et : string) (v update : bool)
| TNoop
| TCreatedTagObject (tag_obj : GitTag)
| TUpdatedExistingRef (ref : GitRef)
| TCreatedRef (ref : GitRef)
| TTagger (tagger : author)
| TTagTemplate (t : tag_template)
| TTaggingOrg (org : string)
| TException (e : exn).

Definition entry : Type := level * text.

(** ** The monad *)

Record state (W : Type) := State { hub : W; log : list entry }.
Arguments State {W} hub log.
Arguments hub {W} s.
Arguments log {W} s.

Definition M (W A : Type) : Type := state W → outcome exn A * state W.

Definition ret {W A} (a : A) : M W A := λ s, (Ok a, s).
Definition raise {W A} (e : exn) : M W A := λ s, (Raise e, s).
Definition bind {W A B} (m : M W A) (k : A → M W B) : M W B :=
  λ s, match m s with
       | (Ok a, s') => k a s'
       | (Raise e, s') => (Raise e, s')
       end.

Notation "'let*' x ':=' m 'in' k" := (bind m (λ x, k))
  (at level 10, x name, m at level 100, k at level 200, only parsing).
Notation "m >> k" := (bind m (λ _, k))
  (at level 100, k at level 200, right associativity, only parsing).

(** [try: m except ...: handler]; a handler re-raises what it does not
    catch. *)
Definition try_except {W A} (m : M W A) (handler : exn → M W A) : M W A :=
  λ s, match m s with
       | (Ok a, s') => (Ok a, s')
       | (Raise e, s') => handler e s'
       end.

Definition emit {W} (l : level) (t : text) : M W unit :=
  λ s, (Ok tt, State (hub s) (log s ++ [(l, t)])).

Definition debug {W} : text → M W unit := emit DEBUG.
Definition info {W} : text → M W unit := emit INFO.
Definition warn {W} : text → M W unit := emit WARN.
Definition error {W} (e : exn) : M W unit := emit ERROR (TException e).

(** [for x in xs: body], the locals of the loop threaded through. *)
Fixpoint for_each {W X L} (body : L → X → M W L) (xs : list X) (loc : L)
  : M W L :=
  match xs with
  | [] => ret loc
  | x :: xs' => let* loc' := body loc x in for_each body xs' loc'
  end.

(** ** Python dicts *)

(** Insertion-ordered dict keyed by strings. *)
Abbreviation dict V := (list (string * V)).

Fixpoint dict_get {V} (k : string) (d : dict V) : option V :=
  match d with
  | [] => None
  | (k', v) :: d' => if String.eqb k k' then Some v else dict_get k d'
  end.

(** [d[k] = v]: an existing key keeps its place, a new one goes last. *)
Fixpoint dict_set {V} (k : string) (v : V) (d : dict V) : dict V :=
  match d with
  | [] => [(k, v)]
  | (k', v') :: d' =>
      if String.eqb k k' then (k, v) :: d' else (k', v') :: dict_set k v d'
  end.

Definition keys {V} (d : dict V) : list string := map fst d.

(** [d[k]] on a record. *)
Definition getitem {W} (d : gmap string string) (k : string) : M W string :=
  match d !! k with
  | Some v => ret v
  | None => raise (KeyError k)
  end.

(** [a.copy(); a.update(b)]: the fields of [b] extend and override [a]. *)
Definition dict_update (a b : gmap string string) : gmap string string :=
  b ∪ a.

(** Reading a local variable that may not have been assigned yet. *)
Definition read_local {W A} (var : string) (v : option A) : M W A :=
  match v with
  | Some a => ret a
  | None => raise (UnboundLocalError var)
  end.

(** ** [cross_reference_products] *)

(** The locals that live across the iterations of the loop.
    [xr_manifest_data] is the local [manifest_data]: unbound before the
    first successful lookup, and keeping its last value afterwards. *)
Record xref_locals := {
  xr_products : dict (gmap string string);
  xr_problems : list exn;
  xr_manifest_data : option (gmap string string)
}.

Definition cross_reference_body {W}
    (manifest_products : gmap string (gmap string string))
    (ignore_version fail_fast : bool)
    (loc : xref_locals) (item : string * gmap string string)
  : M W xref_locals :=
  let '(name, eups_data) := item in
  let* loc :=
    match manifest_products !! name with
    | Some manifest_data =>
        ret {| xr_products := xr_products loc;
               xr_problems := xr_problems loc;
               xr_manifest_data := Some manifest_data |}
    | None =>
        (* except KeyError *)
        let* eups_version := getitem eups_data "eups_version" in
        let yikes := RuntimeError (MissingManifestRecord name eups_version) in
        if fail_fast then raise yikes
        else
          error yikes >>
          ret {| xr_products := xr_products loc;
                 xr_problems := xr_problems loc ++ [yikes];
                 xr_manifest_data := xr_manifest_data loc |}
    end in
  let* loc :=
    (if ignore_version then
       let* manifest_data := read_local "manifest_data" (xr_manifest_data loc) in
       let* eups_version := getitem eups_data "eups_version" in
       ret {| xr_products := xr_products loc;
              xr_problems := xr_problems loc;
              xr_manifest_data :=
                Some (<["eups_version" := eups_version]> manifest_data) |}
     else ret loc) in
  let* eups_version := getitem eups_data "eups_version" in
  let* manifest_data := read_local "manifest_data" (xr_manifest_data loc) in
  let* manifest_version := getitem manifest_data "eups_version" in
  let* loc :=
    (if negb (String.eqb eups_version manifest_version) then
       let yikes :=
         RuntimeError (VersionMismatch name eups_version manifest_version) in
       if fail_fast then raise yikes
       else
         error yikes >>
         ret {| xr_products := xr_products loc;
                xr_problems := xr_problems loc ++ [yikes];
                xr_manifest_data := xr_manifest_data loc |}
     else ret loc) in
  ret {| xr_products :=
           dict_set name (dict_update eups_data manifest_data)
                    (xr_products loc);
         xr_problems := xr_problems loc;
         xr_manifest_data := xr_manifest_data loc |}.

Definition cross_reference_products {W}
    (eups_products : dict (gmap string string))
    (manifest_products : gmap string (gmap string string))
    (ignore_version fail_fast : bool)
  : M W (dict (gmap string string)) :=
  let* loc := for_each (cross_reference_body manifest_products
                    ignore_version fail_fast)
                 eups_products
                 {| xr_products := []; xr_problems := [];
                    xr_manifest_data := None |} in
  match xr_problems loc with
  | [] => ret (xr_products loc)
  | problems =>
      raise (DogpileError problems (ProductsHaveErrors (List.length problems)))
  end.

(** ** The hosting platform and the two version sources *)

(** The collaborators of the pipeline, as an interface.  Each operation
    takes the remote state and returns what the call returns or raises,
    with the remote state after the call.  [find_tag_by_name] is
    [codekit.pygithub.find_tag_by_name] (the [bool] is its [safe] keyword),
    [eups_tag_products] and [manifest_products_of] are the [products] of
    [eups.EupsTag] and [versiondb.Manifest]. *)
Class Platform := {
  world : Type;
  get_organization : string → world → outcome host_exn string * world;
  org_get_repo :
    string → string → world → outcome host_exn Repository * world;
  repo_get_teams :
    Repository → world → outcome host_exn (list string) * world;
  find_tag_by_name :
    Repository → string → bool → world
    → outcome host_exn (option GitRef) * world;
  repo_get_git_tag :
    Repository → string → world → outcome host_exn GitTag * world;
  repo_create_git_tag :
    Repository → string → string → string → string → author → world
    → outcome host_exn GitTag * world;
  repo_create_git_ref :
    Repository → string → string → world → outcome host_exn GitRef * world;
  ref_edit : GitRef → string → bool → world → outcome host_exn unit * world;
  eups_tag_products :
    string → world → outcome host_exn (dict (gmap string string)) * world;
  manifest_products_of :
    string → world
    → outcome host_exn (gmap string (gmap string string)) * world
}.

(** A call to the platform: the remote state moves on, what the call raises
    is raised. *)
Definition call {W A} (op : W → outcome host_exn A * W) : M W A :=
  λ s, let '(r, w) := op (hub s) in
       (match r with Ok a => Ok a | Raise h => Raise (Host h) end,
        State w (log s)).

(** ** [get_repo_for_products] *)

Definition str_in (x : string) (l : list string) : bool :=
  existsb (String.eqb x) l.

(** [any(x in names for x in xs)] *)
Definition any_in (xs names : list string) : bool :=
  existsb (λ x, str_in x names) xs.

(** [any(x in repo_team_names for x in ext_teams)]: [ext_teams] is
    [args.external_team], which argparse leaves at [None] when the option
    is not given; iterating over [None] raises [TypeError]. *)
Definition any_in_opt {W} (xs : option (list string)) (names : list string)
  : M W bool :=
  match xs with
  | Some xs => ret (any_in xs names)
  | None => raise (TypeError "'NoneType' object is not iterable")
  end.

(** Modelled from the spec: [pygithub.check_repo_teams] is not among the
    sources.  Policy check, in order: fail if the intersection of the team
    names with the allow-team set is empty; fail if the intersection with
    the deny-team set, which is optional, is non-empty. *)
Definition check_repo_teams {W} (repo : Repository)
    (allow_teams : list string) (deny_teams : option (list string))
    (team_names : list string) : M W unit :=
  if negb (any_in allow_teams team_names)
  then raise (RepositoryTeamMembershipError repo NotInAllowedTeam)
  else match deny_teams with
       | Some deny =>
           if any_in deny team_names
           then raise (RepositoryTeamMembershipError repo InDeniedTeam)
           else ret tt
       | None => ret tt
       end.

Record resolve_locals := {
  rs_resolved : dict resolved_product;
  rs_problems : list exn
}.

Definition rs_problem (e : exn) (loc : resolve_locals) : resolve_locals :=
  {| rs_resolved := rs_resolved loc; rs_problems := rs_problems loc ++ [e] |}.

Section Pipeline.
Context `{P : Platform}.

(** The body of the loop; a left result is the locals at a [continue]. *)
Definition get_repo_body (org : string) (allow_teams : list string)
    (ext_teams deny_teams : option (list string)) (fail_fast : bool)
    (loc : resolve_locals) (item : string * gmap string string)
  : M world resolve_locals :=
  let '(name, data) := item in
  let* ver := getitem data "eups_version" in
  debug (TLookingForRepo name ver) >>
  let* r :=
    try_except
      (let* repo := call (org_get_repo org name) in ret (inr repo))
      (λ e, match e with
            | Host UnknownObjectException =>
                let yikes :=
                  CaughtUnknownObjectError name UnknownObjectException in
                if fail_fast then raise yikes
                else error yikes >> ret (inl (rs_problem yikes loc))
            | _ => raise e
            end) in
  match r with
  | inl loc => ret loc
  | inr repo =>
      debug (TFound (full_name repo)) >>
      let* repo_team_names := call (repo_get_teams repo) in
      debug (TTeams repo_team_names) >>
      let* r :=
        try_except
          (check_repo_teams repo allow_teams deny_teams repo_team_names >>
           ret (inr tt))
          (λ e, match e with
                | RepositoryTeamMembershipError _ _ =>
                    if fail_fast then raise e
                    else error e >> ret (inl (rs_problem e loc))
                | _ => raise e
                end) in
      match r with
      | inl loc => ret loc
      | inr _ =>
          let* has_ext_team := any_in_opt ext_teams repo_team_names in
          debug (TExternalRepo has_ext_team) >>
          ret {| rs_resolved :=
                   dict_set name
                     {| rp_data := data; rp_repo := repo;
                        rp_v := has_ext_team |}
                     (rs_resolved loc);
                 rs_problems := rs_problems loc |}
      end
  end.

Definition get_repo_for_products (org : string)
    (products : dict (gmap string string)) (allow_teams : list string)
    (ext_teams deny_teams : option (list string)) (fail_fast : bool)
  : M world (dict resolved_product) :=
  debug (TAllowedTeams allow_teams) >>
  debug (TExternalTeams ext_teams) >>
  debug (TDeniedTeams deny_teams) >>
  let* loc :=
    for_each (get_repo_body org allow_teams ext_teams deny_teams fail_fast)
             products {| rs_resolved := []; rs_problems := [] |} in
  match rs_problems loc with
  | [] => ret (rs_resolved loc)
  | problems =>
      raise (DogpileError problems (ProductsHaveErrors (List.length problems)))
  end.

(** ** Comparison of an existing tag with the target *)

(** [cmp_dict]: compare dicts ignoring select keys. *)
Definition cmp_dict (d1 d2 : gmap string string) (ignore_keys : list string)
  : bool :=
  bool_decide
    (filter (λ kv : string * string, kv.1 ∉ ignore_keys) d1
     = filter (λ kv : string * string, kv.1 ∉ ignore_keys) d2).

Global Arguments cmp_dict : simpl never.

(** [author_to_dict]: dispatch on the name of the type of [obj]. *)
Definition author_to_dict (obj : author) : M world (gmap string string) :=
  match obj with
  | GitAuthor name email _ => ret {[ "name" := name; "email" := email ]}
  | InputGitAuthor _identity => ret _identity
  | OtherObject t => raise (RuntimeError (UnsupportedType t))
  end.

Definition cmp_gitauthor (a b : author) : M world bool :=
  let* da := author_to_dict a in
  let* db := author_to_dict b in
  (* ignore date *)
  ret (cmp_dict da db ["date"]).

(** The [and] of Python evaluates the taggers only when sha and message
    agree. *)
Definition cmp_existing_git_tag (t_tag : target_tag) (e_tag : GitTag)
  : M world bool :=
  if String.eqb (t_sha t_tag) (tag_object_sha e_tag) then
    if String.eqb (t_message t_tag) (tag_message e_tag) then
      cmp_gitauthor (t_tagger t_tag) (tag_tagger e_tag)
    else ret false
  else ret false.

(** [check_existing_git_tag]: [True] if the tag exists and is in sync,
    [False] if it does not exist, [GitTagExistsError] if it exists and is
    not in sync. *)
Definition check_existing_git_tag (repo : Repository) (t_tag : target_tag)
  : M world bool :=
  debug (TLookingForTag (t_name t_tag)) >>
  let* e_ref := call (find_tag_by_name repo (t_name t_tag) true) in
  match e_ref with
  | None => debug (TTagNotFound (t_name t_tag)) >> ret false
  | Some e_ref =>
      let* e_tag := call (repo_get_git_tag repo (ref_object_sha e_ref)) in
      debug (TFoundExistingTag (tag_tag e_tag)) >>
      let* same := cmp_existing_git_tag t_tag e_tag in
      if same then ret true
      else
        warn (TConflictingValues t_tag e_tag) >>
        raise (GitTagExistsError (tag_tag e_tag) (tag_sha e_tag))
  end.

(** ** [check_product_tags] *)

Definition is_digit (c : ascii) : bool :=
  let n := nat_of_ascii c in (48 <=? n)%nat && (n <=? 57)%nat.

(** [re.match('\d', s)] *)
Definition re_match_digit (s : string) : bool :=
  match s with
  | String c _ => is_digit c
  | EmptyString => false
  end.

Record plan_locals := {
  pl_checked : dict tag_plan;
  pl_problems : list exn
}.

Definition pl_problem (e : exn) (loc : plan_locals) : plan_locals :=
  {| pl_checked := pl_checked loc; pl_problems := pl_problems loc ++ [e] |}.

Definition check_product_body (tag_template : tag_template)
    (force_tag fail_fast : bool)
    (loc : plan_locals) (item : string * resolved_product)
  : M world plan_locals :=
  let '(name, data) := item in
  (* "target tag" *)
  let* sha := getitem (rp_data data) "sha" in
  let t_tag := {| t_name := tmpl_name tag_template;
                  t_message := tmpl_message tag_template;
                  t_tagger := tmpl_tagger tag_template;
                  t_sha := sha |} in
  (* prefix tag name with `v`? *)
  let t_tag :=
    if rp_v data && re_match_digit (t_name t_tag)
    then {| t_name := "v" ++ t_name t_tag;
            t_message := t_message t_tag;
            t_tagger := t_tagger t_tag;
            t_sha := t_sha t_tag |}
    else t_tag in
  (* control whether to create a new tag or update an existing one *)
  let update_tag := false in
  let* r :=
    try_except
      (let* insync := check_existing_git_tag (rp_repo data) t_tag in
       (* if the existing tag is in sync, do nothing *)
       if insync then
         warn (TNoAction (full_name (rp_repo data)) (t_name t_tag)) >>
         ret (inl loc)
       else ret (inr tt))
      (λ e, match e with
            | Host RateLimitExceededException => raise e
            | GitTagExistsError _ _ =>
                (* if force_tag is set, and the tag already exists, set
                   update_tag and fall through. Otherwise, treat it as any
                   other exception. *)
                if force_tag then
                  warn (TWillBeMoved (t_name t_tag)) >> ret (inr tt)
                else if fail_fast then raise e
                else error e >> ret (inl (pl_problem e loc))
            | Host h =>
                if is_GithubException h then
                  let yikes := CaughtRepositoryError (rp_repo data) h in
                  if fail_fast then raise yikes
                  else error yikes >> ret (inl (pl_problem yikes loc))
                else raise e
            | _ => raise e
            end) in
  match r with
  | inl loc => ret loc
  | inr _ =>
      ret {| pl_checked :=
               dict_set name
                 {| tp_product := data; tp_target_tag := t_tag;
                    tp_update_tag := update_tag |}
                 (pl_checked loc);
             pl_problems := pl_problems loc |}
  end.

Definition check_product_tags (products : dict resolved_product)
    (tag_template : tag_template) (force_tag fail_fast : bool)
  : M world (dict tag_plan) :=
  let* loc :=
    for_each (check_product_body tag_template force_tag fail_fast)
             products {| pl_checked := []; pl_problems := [] |} in
  match pl_problems loc with
  | [] => ret (pl_checked loc)
  | problems =>
      raise (DogpileError problems (ProductsHaveErrors (List.length problems)))
  end.

(** ** [tag_products] *)

Definition tag_body (fail_fast dry_run : bool)
    (problems : list exn) (item : string * tag_plan)
  : M world (list exn) :=
  let '(name, data) := item in
  let t_tag := tp_target_tag data in
  let repo := rp_repo (tp_product data) in
  let* et := getitem (rp_data (tp_product data)) "eups_version" in
  info (TTaggingRepo (full_name repo) (t_sha t_tag) (t_name t_tag) et
          (rp_v (tp_product data)) (tp_update_tag data)) >>
  if dry_run then
    info TNoop >> ret problems
  else
    try_except
      (let* tag_obj :=
         call (repo_create_git_tag repo (t_name t_tag) (t_message t_tag)
                 (t_sha t_tag) "commit" (t_tagger t_tag)) in
       debug (TCreatedTagObject tag_obj) >>
       (if tp_update_tag data then
          let* ref := call (find_tag_by_name repo (t_name t_tag) false) in
          match ref with
          | Some ref =>
              call (ref_edit ref (tag_sha tag_obj) true) >>
              debug (TUpdatedExistingRef ref)
          | None =>
              raise (AttributeError
                       "'NoneType' object has no attribute 'edit'")
          end
        else
          let* ref :=
            call (repo_create_git_ref repo ("refs/tags/" ++ t_name t_tag)
                    (tag_sha tag_obj)) in
          debug (TCreatedRef ref)) >>
       ret problems)
      (λ e, match e with
            | Host RateLimitExceededException => raise e
            | Host h =>
                if is_GithubException h then
                  let yikes := CaughtRepositoryError repo h in
                  if fail_fast then raise yikes
                  else error yikes >> ret (problems ++ [yikes])%list
                else raise e
            | _ => raise e
            end).

Definition tag_products (products : dict tag_plan)
    (fail_fast dry_run : bool) : M world unit :=
  let* problems := for_each (tag_body fail_fast dry_run) products [] in
  match problems with
  | [] => ret tt
  | _ =>
      raise (DogpileError problems (TagFailures (List.length problems)))
  end.

(** ** [run] *)

(** The parsed command line.  [a_external_team] and [a_deny_team] are
    [None] when the option is not given ([action='append'] without a
    default); [--allow-team] is required. *)
Record args := {
  a_tag : string;
  a_manifest : string;
  a_org : string;
  a_allow_team : list string;
  a_external_team : option (list string);
  a_deny_team : option (list string);
  a_candidate : option string;
  a_dry_run : bool;
  a_force_tag : bool;
  a_ignore_version : bool;
  a_limit : option Z;
  a_fail_fast : bool
}.

(** [candidate.translate(str.maketrans('.-', '__'))] *)
Fixpoint translate_eups (s : string) : string :=
  match s with
  | EmptyString => EmptyString
  | String c s' =>
      String (if Ascii.eqb c "." || Ascii.eqb c "-" then "_"%char else c)
             (translate_eups s')
  end.

(** [sys.maxsize], the largest stop that [itertools.islice] accepts, on a
    64-bit build of CPython. *)
Definition sys_maxsize : Z := (2 ^ 63 - 1)%Z.

(** [dict(itertools.islice(products.items(), limit))]: a stop below zero or
    above [sys.maxsize] is refused with a [ValueError]. *)
Definition islice_items {V} (products : dict V) (limit : Z)
  : M world (dict V) :=
  if ((limit <? 0) || (sys_maxsize <? limit))%Z
  then raise (ValueError "Stop argument for islice() must be None or an integer: 0 <= x <= sys.maxsize.")
  else ret (take (Z.to_nat limit) products).

(** [git_user], [git_email] and [timestamp] are what
    [codetools.lookup_user], [codetools.lookup_email] and
    [codetools.current_timestamp] return. *)
Definition run (args : args) (git_user git_email timestamp : string)
  : M world unit :=
  let version := a_tag args in
  let candidate :=
    match a_candidate args with
    | Some c => if String.eqb c "" then a_tag args else c
    | None => a_tag args
    end in
  let manifest := a_manifest args in
  let message :=
    "Version " ++ version ++ " release from " ++ candidate ++ "/"
    ++ manifest in
  let tagger :=
    InputGitAuthor
      {[ "name" := git_user; "email" := git_email; "date" := timestamp ]} in
  debug (TTagger tagger) >>
  (* all tags should be the same across repos -- just add the 'sha' key
     and stir *)
  let tag_template :=
    {| tmpl_name := version; tmpl_message := message;
       tmpl_tagger := tagger |} in
  debug (TTagTemplate tag_template) >>
  let* org := call (get_organization (a_org args)) in
  debug (TTaggingOrg org) >>
  let eups_candidate := translate_eups candidate in
  let* eups_products := call (eups_tag_products eups_candidate) in
  let* manifest_products := call (manifest_products_of manifest) in
  (* do not fail-fast on non-write operations *)
  let* products :=
    cross_reference_products eups_products manifest_products
      (a_ignore_version args) false in
  let* products :=
    match a_limit args with
    | Some limit =>
        if (limit =? 0)%Z then ret products
        else islice_items products limit
    | None => ret products
    end in
  (* do not fail-fast on non-write operations *)
  let* products :=
    get_repo_for_products org products (a_allow_team args)
      (a_external_team args) (a_deny_team args) false in
  (* do not fail-fast on non-write operations *)
  let* products_to_tag :=
    check_product_tags products tag_template (a_force_tag args) false in
  tag_products products_to_tag (a_fail_fast args) (a_dry_run args).

End Pipeline.

(** ** A small hosting platform

    A finite organization used to run the pipeline on concrete inputs:
    repositories with their teams, tag references and tag objects, and a
    budget of calls after which the platform answers with the rate-limit
    error. *)
Module Sim.

Record repo_state := {
  teams : list string;
  refs : dict string;        (* tag name ↦ sha of the tag object *)
  tags : dict GitTag         (* sha of a tag object ↦ the tag object *)
}.

Record hub_state := {
  repos : dict repo_state;
  budget : nat;
  eups_tags : dict (dict (gmap string string));
  manifests : dict (gmap string (gmap string string))
}.

Definition spend {A} (h : hub_state)
    (k : hub_state → outcome host_exn A * hub_state)
  : outcome host_exn A * hub_state :=
  match budget h with
  | O => (Raise RateLimitExceededException, h)
  | S n =>
      k {| repos := repos h; budget := n; eups_tags := eups_tags h;
           manifests := manifests h |}
  end.

Definition with_repo {A} (r : Repository) (h : hub_state)
    (k : repo_state → outcome host_exn A * hub_state)
  : outcome host_exn A * hub_state :=
  match dict_get (full_name r) (repos h) with
  | Some rs => k rs
  | None => (Raise UnknownObjectException, h)
  end.

Definition put_repo (r : Repository) (rs : repo_state) (h : hub_state)
  : hub_state :=
  {| repos := dict_set (full_name r) rs (repos h); budget := budget h;
     eups_tags := eups_tags h; manifests := manifests h |}.

Definition sim_get_organization (org : string) (h : hub_state) :=
  spend h (λ h, (Ok org, h)).

Definition sim_org_get_repo (org name : string) (h : hub_state) :=
  spend h (λ h,
    with_repo {| full_name := name |} h
      (λ _, (Ok {| full_name := name |}, h))).

Definition sim_repo_get_teams (r : Repository) (h : hub_state) :=
  spend h (λ h, with_repo r h (λ rs, (Ok (teams rs), h))).

Definition sim_find_tag_by_name (r : Repository) (name : string) (safe : bool)
    (h : hub_state) :=
  spend h (λ h,
    with_repo r h (λ rs,
      match dict_get name (refs rs) with
      | Some sha =>
          (Ok (Some {| ref_repo := r; ref_ref := "refs/tags/" ++ name;
                       ref_object_sha := sha |}), h)
      | None =>
          if safe then (Ok None, h) else (Raise UnknownObjectException, h)
      end)).

Definition sim_repo_get_git_tag (r : Repository) (sha : string)
    (h : hub_state) :=
  spend h (λ h,
    with_repo r h (λ rs,
      match dict_get sha (tags rs) with
      | Some t => (Ok t, h)
      | None => (Raise UnknownObjectException, h)
      end)).

(** The platform answers with a [GitAuthor] for the tagger it was given. *)
Definition stored_tagger (a : author) : author :=
  match a with
  | InputGitAuthor i =>
      GitAuthor (default "" (i !! "name")) (default "" (i !! "email"))
                (default "" (i !! "date"))
  | _ => a
  end.

Definition sim_repo_create_git_tag (r : Repository)
    (name message sha type : string) (tagger : author) (h : hub_state) :=
  spend h (λ h,
    with_repo r h (λ rs,
      let t := {| tag_sha := "tag:" ++ name ++ "@" ++ sha;
                  tag_tag := name; tag_message := message;
                  tag_tagger := stored_tagger tagger;
                  tag_object_sha := sha |} in
      (Ok t,
       put_repo r {| teams := teams rs; refs := refs rs;
                     tags := dict_set (tag_sha t) t (tags rs) |} h))).

Definition strip_prefix (p s : string) : string :=
  if String.prefix p s
  then String.substring (String.length p)
         (String.length s - String.length p) s
  else s.

(** Creating a reference that exists is refused (422). *)
Definition sim_repo_create_git_ref (r : Repository) (path sha : string)
    (h : hub_state) :=
  spend h (λ h,
    with_repo r h (λ rs,
      let name := strip_prefix "refs/tags/" path in
      match dict_get name (refs rs) with
      | Some _ => (Raise (GithubException 422), h)
      | None =>
          (Ok {| ref_repo := r; ref_ref := path; ref_object_sha := sha |},
           put_repo r {| teams := teams rs;
                         refs := dict_set name sha (refs rs);
                         tags := tags rs |} h)
      end)).

Definition sim_ref_edit (ref : GitRef) (sha : string) (force : bool)
    (h : hub_state) :=
  spend h (λ h,
    with_repo (ref_repo ref) h (λ rs,
      let name := strip_prefix "refs/tags/" (ref_ref ref) in
      match dict_get name (refs rs) with
      | Some _ =>
          (Ok tt,
           put_repo (ref_repo ref)
             {| teams := teams rs; refs := dict_set name sha (refs rs);
                tags := tags rs |} h)
      | None => (Raise UnknownObjectException, h)
      end)).

Definition sim_eups_tag_products (tag : string) (h : hub_state) :=
  match dict_get tag (eups_tags h) with
  | Some ps => (Ok ps, h)
  | None => (Raise (NonGithubError "HTTPError"), h)
  end.

Definition sim_manifest_products_of (name : string) (h : hub_state) :=
  match dict_get name (manifests h) with
  | Some ps => (Ok ps, h)
  | None => (Raise (NonGithubError "HTTPError"), h)
  end.

Definition platform : Platform := {|
  world := hub_state;
  get_organization := sim_get_organization;
  org_get_repo := sim_org_get_repo;
  repo_get_teams := sim_repo_get_teams;
  find_tag_by_name := sim_find_tag_by_name;
  repo_get_git_tag := sim_repo_get_git_tag;
  repo_create_git_tag := sim_repo_create_git_tag;
  repo_create_git_ref := sim_repo_create_git_ref;
  ref_edit := sim_ref_edit;
  eups_tag_products := sim_eups_tag_products;
  manifest_products_of := sim_manifest_products_of
|}.

End Sim.

(** ** Vocabulary of the statements *)

Definition is_version_mismatch (e : exn) : Prop :=
  ∃ p a b, e = RuntimeError (VersionMismatch p a b).

(** The target tag that [check_product_tags] builds for a product whose
    manifest sha is [sha]. *)
Definition target_of (tag_template : tag_template) (data : resolved_product)
    (sha : string) : target_tag :=
  {| t_name := if rp_v data && re_match_digit (tmpl_name tag_template)
               then "v" ++ tmpl_name tag_template
               else tmpl_name tag_template;
     t_message := tmpl_message tag_template;
     t_tagger := tmpl_tagger tag_template;
     t_sha := sha |}.

Definition begins_with_digit (s : string) : Prop :=
  ∃ c rest, s = String c rest ∧ c ∈ list_ascii_of_string "0123456789".

(** The two notices that [tag_products] writes for a plan under
    [dry_run]. *)
Definition dry_run_notices (item : string * tag_plan) : list entry :=
  let data := item.2 in
  [(INFO, TTaggingRepo (full_name (rp_repo (tp_product data)))
            (t_sha (tp_target_tag data)) (t_name (tp_target_tag data))
            (default "" (rp_data (tp_product data) !! "eups_version"))
            (rp_v (tp_product data)) (tp_update_tag data));
   (INFO, TNoop)].

(** The entry that [check_product_tags] adds for a product it plans. *)
Definition plan_entry (tag_template : tag_template) (data : resolved_product)
    (sha : string) : tag_plan :=
  {| tp_product := data;
     tp_target_tag := target_of tag_template data sha;
     tp_update_tag := false |}.

Definition pl_plan (name : string) (plan : tag_plan) (loc : plan_locals)
  : plan_locals :=
  {| pl_checked := dict_set name plan (pl_checked loc);
     pl_problems := pl_problems loc |}.

Definition say {W} (l : level) (t : text) (s : state W) : state W :=
  State (hub s) (log s ++ [(l, t)]).

(** The identity of a tagger, its timestamp left out; [None] for an
    object that is no tagger. *)
Definition identity_of (a : author) : option (gmap string string) :=
  match a with
  | GitAuthor name email _ => Some {[ "name" := name; "email" := email ]}
  | InputGitAuthor i => Some (delete "date" i)
  | OtherObject _ => None
  end.

Definition same_tagger (a b : author) : Prop :=
  ∃ i, identity_of a = Some i ∧ identity_of b = Some i.

(** An existing tag is in sync with the target: same commit, same message,
    same tagger. *)
Definition in_sync (t_tag : target_tag) (e_tag : GitTag) : Prop :=
  tag_object_sha e_tag = t_sha t_tag
  ∧ tag_message e_tag = t_message t_tag
  ∧ same_tagger (t_tagger t_tag) (tag_tagger e_tag).

(** The notice of [tag_products] for a plan. *)
Definition tagging_notice (data : tag_plan) (et : string) : text :=
  TTaggingRepo (full_name (rp_repo (tp_product data)))
    (t_sha (tp_target_tag data)) (t_name (tp_target_tag data)) et
    (rp_v (tp_product data)) (tp_update_tag data).

(** The [except] clauses of [tag_products], applied to what a call to the
    platform raised. *)
Definition on_tag_error {W} (fail_fast : bool) (repo : Repository)
    (problems : list exn) (h : host_exn) (s : state W)
  : outcome exn (list exn) * state W :=
  match h with
  | RateLimitExceededException | NonGithubError _ => (Raise (Host h), s)
  | _ =>
      let yikes := CaughtRepositoryError repo h in
      if fail_fast then (Raise yikes, s)
      else (Ok (problems ++ [yikes])%list, say ERROR (TException yikes) s)
  end.

(** The verdict of the team policy on the teams of a repository: [None]
    when the repository passes. *)
Definition team_verdict (allow_teams : list string)
    (deny_teams : option (list string)) (team_names : list string)
  : option team_policy :=
  if negb (any_in allow_teams team_names) then Some NotInAllowedTeam
  else match deny_teams with
       | Some deny => if any_in deny team_names then Some InDeniedTeam
                      else None
       | None => None
       end.

(** Two sets of team names intersect. *)
Definition intersects (xs ys : list string) : Prop := ∃ x, x ∈ xs ∧ x ∈ ys.

(** The entry that [get_repo_for_products] adds for a product. *)
Definition rs_resolve (name : string) (data : gmap string string)
    (repo : Repository) (v : bool) (loc : resolve_locals) : resolve_locals :=
  {| rs_resolved :=
       dict_set name {| rp_data := data; rp_repo := repo; rp_v := v |}
                (rs_resolved loc);
     rs_problems := rs_problems loc |}.

(** The failures that [get_repo_for_products] records for a product. *)
Definition is_resolve_failure (e : exn) : Prop :=
  (∃ name, e = CaughtUnknownObjectError name UnknownObjectException)
  ∨ (∃ repo why, e = RepositoryTeamMembershipError repo why).

(** The failures that [check_product_tags] records for a product. *)
Definition is_plan_failure (e : exn) : Prop :=
  (∃ tag sha, e = GitTagExistsError tag sha)
  ∨ (∃ repo h, e = CaughtRepositoryError repo h
               ∧ is_GithubException h = true
               ∧ h ≠ RateLimitExceededException).

(** The failures that [tag_products] records for a product. *)
Definition is_tag_failure (e : exn) : Prop :=
  ∃ repo h, e = CaughtRepositoryError repo h
            ∧ is_GithubException h = true
            ∧ h ≠ RateLimitExceededException.

(** A rate-limit error, bare or wrapped. *)
Definition is_rate_limit (e : exn) : Prop :=
  e = Host RateLimitExceededException
  ∨ (∃ repo, e = CaughtRepositoryError repo RateLimitExceededException)
  ∨ (∃ name, e = CaughtUnknownObjectError name RateLimitExceededException).

(** Where the rate-limit error of the platform can meet the planner and the
    applier: the calls of one iteration, in their order, up to the one that
    is answered with [RateLimitExceededException]; the last index is the
    platform after that call. *)
Section RateLimited.
Context `{P : Platform}.

Inductive plan_rate_limited (repo : Repository) (t_tag : target_tag)
    (w : world) : world → Prop :=
| rl_find_tag w' :
    find_tag_by_name repo (t_name t_tag) true w
    = (Raise RateLimitExceededException, w') →
    plan_rate_limited repo t_tag w w'
| rl_get_git_tag e_ref w1 w' :
    find_tag_by_name repo (t_name t_tag) true w = (Ok (Some e_ref), w1) →
    repo_get_git_tag repo (ref_object_sha e_ref) w1
    = (Raise RateLimitExceededException, w') →
    plan_rate_limited repo t_tag w w'.

Definition create_tag_of (data : tag_plan) (w : world)
  : outcome host_exn GitTag * world :=
  repo_create_git_tag (rp_repo (tp_product data))
    (t_name (tp_target_tag data)) (t_message (tp_target_tag data))
    (t_sha (tp_target_tag data)) "commit" (t_tagger (tp_target_tag data)) w.

Inductive apply_rate_limited (data : tag_plan) (w : world) : world → Prop :=
| rl_create_git_tag w' :
    create_tag_of data w = (Raise RateLimitExceededException, w') →
    apply_rate_limited data w w'
| rl_find_ref tag_obj w1 w' :
    create_tag_of data w = (Ok tag_obj, w1) →
    tp_update_tag data = true →
    find_tag_by_name (rp_repo (tp_product data))
      (t_name (tp_target_tag data)) false w1
    = (Raise RateLimitExceededException, w') →
    apply_rate_limited data w w'
| rl_ref_edit tag_obj ref w1 w2 w' :
    create_tag_of data w = (Ok tag_obj, w1) →
    tp_update_tag data = true →
    find_tag_by_name (rp_repo (tp_product data))
      (t_name (tp_target_tag data)) false w1 = (Ok (Some ref), w2) →
    ref_edit ref (tag_sha tag_obj) true w2
    = (Raise RateLimitExceededException, w') →
    apply_rate_limited data w w'
| rl_create_git_ref tag_obj w1 w' :
    create_tag_of data w = (Ok tag_obj, w1) →
    tp_update_tag data = false →
    repo_create_git_ref (rp_repo (tp_product data))
      ("refs/tags/" ++ t_name (tp_target_tag data)) (tag_sha tag_obj) w1
    = (Raise RateLimitExceededException, w') →
    apply_rate_limited data w w'.

End RateLimited.


(** The command line with [--fail-fast] or [--no-fail-fast]. *)
Definition set_fail_fast (b : bool) (a : args) : args :=
  {| a_tag := a_tag a; a_manifest := a_manifest a; a_org := a_org a;
     a_allow_team := a_allow_team a; a_external_team := a_external_team a;
     a_deny_team := a_deny_team a; a_candidate := a_candidate a;
     a_dry_run := a_dry_run a; a_force_tag := a_force_tag a;
     a_ignore_version := a_ignore_version a; a_limit := a_limit a;
     a_fail_fast := b |}.

Section RunStages.
Context `{P : Platform}.

(** [run] up to and including the call of [cross_reference_products]: the
    template of the tags, the organization and the products on which the
    two sources agree. *)
Definition run_cross_reference (args : args)
    (git_user git_email timestamp : string)
  : M world (tag_template * string * dict (gmap string string)) :=
  let version := a_tag args in
  let candidate :=
    match a_candidate args with
    | Some c => if String.eqb c "" then a_tag args else c
    | None => a_tag args
    end in
  let manifest := a_manifest args in
  let message :=
    "Version " ++ version ++ " release from " ++ candidate ++ "/"
    ++ manifest in
  let tagger :=
    InputGitAuthor
      {[ "name" := git_user; "email" := git_email; "date" := timestamp ]} in
  debug (TTagger tagger) >>
  let tag_template :=
    {| tmpl_name := version; tmpl_message := message;
       tmpl_tagger := tagger |} in
  debug (TTagTemplate tag_template) >>
  let* org := call (get_organization (a_org args)) in
  debug (TTaggingOrg org) >>
  let eups_candidate := translate_eups candidate in
  let* eups_products := call (eups_tag_products eups_candidate) in
  let* manifest_products := call (manifest_products_of manifest) in
  (* do not fail-fast on non-write operations *)
  let* products :=
    cross_reference_products eups_products manifest_products
      (a_ignore_version args) false in
  ret (tag_template, org, products).



End RunStages.



(** ** Concrete inputs

    The scenarios of the specification: the weekly [w.2018.18] built as
    [b3595], the products [pkgA] and [pkgB]. *)
Module Ex.

Definition s0 : state unit := State tt [].

Definition pkgA_eups : gmap string string :=
  {[ "eups_version" := "w_2018_18" ]}.
Definition pkgA_manifest : gmap string string :=
  {[ "eups_version" := "w_2018_18"; "sha" := "abc123" ]}.
Definition pkgB_eups : gmap string string :=
  {[ "eups_version" := "w_2018_18" ]}.
(** A manifest entry with another version string. *)
Definition pkgA_stale : gmap string string :=
  {[ "eups_version" := "w_2018_17"; "sha" := "abc123" ]}.

Definition tagger : author :=
  InputGitAuthor
    {[ "name" := "sqre"; "email" := "sqre@example.org";
       "date" := "2018-05-01T00:00:00Z" ]}.

Definition weekly : tag_template :=
  {| tmpl_name := "w.2018.18";
     tmpl_message := "Version w.2018.18 release from w.2018.18/b3595";
     tmpl_tagger := tagger |}.

Definition release : tag_template :=
  {| tmpl_name := "11.0.rc2";
     tmpl_message := "Version 11.0.rc2 release from v11_0_rc2/b1679";
     tmpl_tagger := tagger |}.

Definition pkgA_repo : Repository := {| full_name := "pkgA" |}.
Definition pkgA_resolved : resolved_product :=
  {| rp_data := pkgA_manifest; rp_repo := pkgA_repo; rp_v := false |}.
(** [pkgA] as the repository of an external team. *)
Definition pkgA_external : resolved_product :=
  {| rp_data := pkgA_manifest; rp_repo := pkgA_repo; rp_v := true |}.

(** An organization with the repository [pkgA], not tagged yet. *)
Definition hub0 : Sim.hub_state :=
  {| Sim.repos :=
       [("pkgA", {| Sim.teams := ["Data Management"]; Sim.refs := [];
                    Sim.tags := [] |})];
     Sim.budget := 100;
     Sim.eups_tags := [("w_2018_18", [("pkgA", pkgA_eups)])];
     Sim.manifests := [("b3595", {[ "pkgA" := pkgA_manifest ]})] |}.

Definition h0 : state Sim.hub_state := State hub0 [].

(** The tag [w.2018.18] of [pkgA], as the platform stores it once created:
    same commit, message and tagger, another timestamp. *)
Definition pkgA_tag : GitTag :=
  {| tag_sha := "tag:w.2018.18@abc123"; tag_tag := "w.2018.18";
     tag_message := "Version w.2018.18 release from w.2018.18/b3595";
     tag_tagger := GitAuthor "sqre" "sqre@example.org" "2018-04-30T12:00:00Z";
     tag_object_sha := "abc123" |}.

Definition pkgA_ref : GitRef :=
  {| ref_repo := pkgA_repo; ref_ref := "refs/tags/w.2018.18";
     ref_object_sha := "tag:w.2018.18@abc123" |}.

(** The organization after [pkgA] was tagged. *)
Definition hub1 : Sim.hub_state :=
  {| Sim.repos :=
       [("pkgA", {| Sim.teams := ["Data Management"];
                    Sim.refs := [("w.2018.18", "tag:w.2018.18@abc123")];
                    Sim.tags := [("tag:w.2018.18@abc123", pkgA_tag)] |})];
     Sim.budget := 100;
     Sim.eups_tags := [("w_2018_18", [("pkgA", pkgA_eups)])];
     Sim.manifests := [("b3595", {[ "pkgA" := pkgA_manifest ]})] |}.

Definition h1 : state Sim.hub_state := State hub1 [].

(** The same organization when the rate limit is used up. *)
Definition hub_limited : Sim.hub_state :=
  {| Sim.repos := Sim.repos hub1; Sim.budget := 0;
     Sim.eups_tags := Sim.eups_tags hub1;
     Sim.manifests := Sim.manifests hub1 |}.

Definition pkgA_plan : tag_plan := plan_entry weekly pkgA_resolved "abc123".

(** An organization without repositories, and a weekly of two products. *)
Definition hub_empty : Sim.hub_state :=
  {| Sim.repos := [];
     Sim.budget := 100;
     Sim.eups_tags :=
       [("w_2018_18", [("pkgA", pkgA_eups); ("pkgB", pkgB_eups)])];
     Sim.manifests :=
       [("b3595", {[ "pkgA" := pkgA_manifest; "pkgB" := pkgA_manifest ]})] |}.

(** [github-tag-version --org lsst --allow-team 'Data Management'
    --external-team 'DM Externals' --fail-fast w.2018.18 b3595] *)
Definition weekly_args : args :=
  {| a_tag := "w.2018.18"; a_manifest := "b3595"; a_org := "lsst";
     a_allow_team := ["Data Management"];
     a_external_team := Some ["DM Externals"]; a_deny_team := None;
     a_candidate := None; a_dry_run := false; a_force_tag := false;
     a_ignore_version := false; a_limit := None; a_fail_fast := true |}.

(** [pkgA] planned for a repository that the organization does not have. *)
Definition ghost_plan : tag_plan :=
  plan_entry weekly
    {| rp_data := pkgA_manifest; rp_repo := {| full_name := "ghost" |};
       rp_v := false |} "abc123".

(** [pkgA] when the manifest pins another commit than the one that is
    tagged. *)
Definition pkgA_moved : resolved_product :=
  {| rp_data := {[ "eups_version" := "w_2018_18"; "sha" := "def456" ]};
     rp_repo := pkgA_repo; rp_v := false |}.

Definition pkgB_manifest : gmap string string :=
  {[ "eups_version" := "w_2018_18"; "sha" := "bbb222" ]}.

(** The weekly of two products when [pkgA] is tagged on [abc123] and the
    manifest pins it to [def456]; [pkgB] is not tagged yet. *)
Definition hub_moved : Sim.hub_state :=
  {| Sim.repos :=
       [("pkgA", {| Sim.teams := ["Data Management"];
                    Sim.refs := [("w.2018.18", "tag:w.2018.18@abc123")];
                    Sim.tags := [("tag:w.2018.18@abc123", pkgA_tag)] |});
        ("pkgB", {| Sim.teams := ["Data Management"]; Sim.refs := [];
                    Sim.tags := [] |})];
     Sim.budget := 100;
     Sim.eups_tags :=
       [("w_2018_18", [("pkgA", pkgA_eups); ("pkgB", pkgB_eups)])];
     Sim.manifests :=
       [("b3595", {[ "pkgA" := rp_data pkgA_moved;
                     "pkgB" := pkgB_manifest ]})] |}.

(** [github-tag-version --org lsst --allow-team 'Data Management'
    --external-team 'DM Externals' --force-tag --fail-fast w.2018.18
    b3595] *)
Definition forced_args : args :=
  {| a_tag := "w.2018.18"; a_manifest := "b3595"; a_org := "lsst";
     a_allow_team := ["Data Management"];
     a_external_team := Some ["DM Externals"]; a_deny_team := None;
     a_candidate := None; a_dry_run := false; a_force_tag := true;
     a_ignore_version := false; a_limit := None; a_fail_fast := true |}.

End Ex.

(** ** Further vocabulary *)

(** An existing tag conflicts with the target: another commit, another
    message or, both being taggers, another tagger. *)
Definition conflicts (t_tag : target_tag) (e_tag : GitTag) : Prop :=
  tag_object_sha e_tag ≠ t_sha t_tag
  ∨ tag_message e_tag ≠ t_message t_tag
  ∨ (∃ i j, identity_of (t_tagger t_tag) = Some i
            ∧ identity_of (tag_tagger e_tag) = Some j ∧ i ≠ j).

Section Queries.
Context `{P : Platform}.

(** One of the two queries of the planner for a target is answered with the
    error [h]; the last index is the platform after that query. *)
Inductive plan_query_fails (repo : Repository) (t_tag : target_tag)
    (h : host_exn) (w : world) : world → Prop :=
| fails_find_tag w' :
    find_tag_by_name repo (t_name t_tag) true w = (Raise h, w') →
    plan_query_fails repo t_tag h w w'
| fails_get_git_tag e_ref w1 w' :
    find_tag_by_name repo (t_name t_tag) true w = (Ok (Some e_ref), w1) →
    repo_get_git_tag repo (ref_object_sha e_ref) w1 = (Raise h, w') →
    plan_query_fails repo t_tag h w w'.

End Queries.

(** ** [main] *)

(** How the process ends: [main] returns, [sys.exit] is called, or an
    exception leaves [main]. *)
Inductive exit_status :=
| Returned
| SystemExit (code : nat)
| Uncaught (e : exn).

Section Main.
Context `{P : Platform}.

(** [main]: [debug_ratelimit] is [pygithub.debug_ratelimit(g)], which the
    [finally] clause calls; what it raises replaces what was under way. *)
Definition main (debug_ratelimit : M world unit) (args : args)
    (git_user git_email timestamp : string) (s : state world)
  : exit_status * state world :=
  let '(r, s1) := run args git_user git_email timestamp s in
  let '(status, s2) :=
    match r with
    | Ok _ => (Returned, s1)
    | Raise (DogpileError errors _ as e) =>
        let n := List.length errors in
        (SystemExit (if (n <? 256)%nat then n else 255),
         State (hub s1) (log s1 ++ [(ERROR, TException e)]))
    | Raise e => (Uncaught e, s1)
    end in
  match debug_ratelimit s2 with
  | (Ok _, s3) => (status, s3)
  | (Raise e, s3) => (Uncaught e, s3)
  end.

End Main.

(** The command line with [--limit]. *)
Definition set_limit (limit : option Z) (a : args) : args :=
  {| a_tag := a_tag a; a_manifest := a_manifest a; a_org := a_org a;
     a_allow_team := a_allow_team a; a_external_team := a_external_team a;
     a_deny_team := a_deny_team a; a_candidate := a_candidate a;
     a_dry_run := a_dry_run a; a_force_tag := a_force_tag a;
     a_ignore_version := a_ignore_version a; a_limit := limit;
     a_fail_fast := a_fail_fast a |}.

(** The summary of an aggregated error counts its errors. *)
Definition counts (msg : dogpile_msg) (errors : list exn) : Prop :=
  msg = ProductsHaveErrors (List.length errors)
  ∨ msg = TagFailures (List.length errors).

(** ** [github-mv-repos-to-team]

    [codekit/cli/github_mv_repos_to_team.py]: move repositories from one
    team to another.  The organization is that of github3; its two
    operations answer a boolean or raise.  The state is the organization,
    what was printed and the seconds slept. *)

Record mv_args := {
  mv_repos : list string;
  mv_oldteam : string;
  mv_newteam : string;
  mv_org : string;
  mv_debug : bool;
  mv_dry_run : bool
}.

(** What [print] writes, with the values printed. *)
Inductive printed :=
| PArgs                             (* print args *)
| PType                             (* print(type(gh)) *)
| PCount (n : nat)                  (* print len(move_me), 'repos to me moved' *)
| PAdding (repo team : string)      (* print 'Adding', repo, 'to', team, '...', *)
| PRemoving (repo team : string)    (* print 'Removing', repo, 'from', team, '...', *)
| POk                               (* print 'ok' *)
| PFailed                           (* print 'FAILED' *)
| PBlank                            (* print ' ' *)
| PAdded (status : nat)             (* print 'Added:', status *)
| PRemoved (status2 : nat).         (* print 'Removed:', status2 *)

Record mv_state (W : Type) := MvState {
  mv_hub : W;
  mv_out : list printed;
  mv_slept : nat
}.
Arguments MvState {W} mv_hub mv_out mv_slept.
Arguments mv_hub {W} m.
Arguments mv_out {W} m.
Arguments mv_slept {W} m.

(** The characters that [str.rstrip()] strips: tab, line feed, vertical
    tab, form feed, carriage return and space. *)
Definition is_whitespace (c : ascii) : bool :=
  let n := nat_of_ascii c in
  ((9 <=? n)%nat && (n <=? 13)%nat) || (n =? 32)%nat.

(** [s.rstrip()] *)
Fixpoint rstrip (s : string) : string :=
  match s with
  | EmptyString => EmptyString
  | String c s' =>
      match rstrip s' with
      | EmptyString => if is_whitespace c then EmptyString
                       else String c EmptyString
      | r => String c r
      end
  end.

Section MvRepos.
Context {W : Type}.
(** [gh.organization(name)], [org.add_repo(repo, team)] and
    [org.remove_repo(repo, team)]. *)
Variable organization : string → W → outcome host_exn string * W.
Variable add_repo : string → string → string → W → outcome host_exn bool * W.
Variable remove_repo :
  string → string → string → W → outcome host_exn bool * W.

Definition mv_print (p : printed) (s : mv_state W) : mv_state W :=
  MvState (mv_hub s) (mv_out s ++ [p]) (mv_slept s).

Definition mv_print_if (b : bool) (p : printed) (s : mv_state W)
  : mv_state W :=
  if b then mv_print p s else s.

(** [time.sleep(n)] *)
Definition mv_sleep (n : nat) (s : mv_state W) : mv_state W :=
  MvState (mv_hub s) (mv_out s) (mv_slept s + n).

(** [status += op(repo, team)], then [print 'ok'] if [status] is not zero
    and [print 'FAILED'] if it is. *)
Definition mv_count (op : W → outcome host_exn bool * W) (status : nat)
    (s : mv_state W) : outcome host_exn nat * mv_state W :=
  match op (mv_hub s) with
  | (Raise h, w) => (Raise h, MvState w (mv_out s) (mv_slept s))
  | (Ok b, w) =>
      let status := (status + if b then 1 else 0)%nat in
      (Ok status,
       mv_print (if (status =? 0)%nat then PFailed else POk)
         (MvState w (mv_out s) (mv_slept s)))
  end.

(** The body of the loop over the repositories; the locals are [status]
    and [status2]. *)
Definition mv_body (a : mv_args) (org : string) (st : nat * nat)
    (r : string) (s : mv_state W)
  : outcome host_exn (nat * nat) * mv_state W :=
  let '(status, status2) := st in
  let repo := mv_org a ++ "/" ++ rstrip r in
  (* Add team to the repo *)
  let s := mv_print_if (mv_debug a || mv_dry_run a)
             (PAdding repo (mv_newteam a)) s in
  let '(r1, s) :=
    if mv_dry_run a then (Ok status, s)
    else mv_count (add_repo org repo (mv_newteam a)) status s in
  match r1 with
  | Raise h => (Raise h, s)
  | Ok status =>
      (* remove repo from old team; you cannot move out of Owners *)
      let '(r2, s) :=
        if negb (String.eqb (mv_oldteam a) "Owners") then
          let s := mv_print_if (mv_debug a || mv_dry_run a)
                     (PRemoving repo (mv_oldteam a)) s in
          if mv_dry_run a then (Ok status2, s)
          else mv_count (remove_repo org repo (mv_oldteam a)) status2 s
        else (Ok status2, s) in
      match r2 with
      | Raise h => (Raise h, s)
      | Ok status2 =>
          (* give the API a rest *)
          (Ok (status, status2), mv_sleep 1 s)
      end
  end.

Fixpoint mv_loop (a : mv_args) (org : string) (move_me : list string)
    (st : nat * nat) (s : mv_state W)
  : outcome host_exn (nat * nat) * mv_state W :=
  match move_me with
  | [] => (Ok st, s)
  | r :: rest =>
      match mv_body a org st r s with
      | (Ok st', s') => mv_loop a org rest st' s'
      | (Raise h, s') => (Raise h, s')
      end
  end.

Definition mv_main (a : mv_args) (s : mv_state W)
  : outcome host_exn unit * mv_state W :=
  let s := mv_print_if (mv_debug a) PArgs s in
  let s := mv_print_if (mv_debug a) PType s in
  match organization (mv_org a) (mv_hub s) with
  | (Raise h, w) => (Raise h, MvState w (mv_out s) (mv_slept s))
  | (Ok org, w) =>
      let s := MvState w (mv_out s) (mv_slept s) in
      let move_me := mv_repos a in
      let s := mv_print_if (mv_debug a) (PCount (List.length move_me)) s in
      match mv_loop a org move_me (0, 0)%nat s with
      | (Raise h, s) => (Raise h, s)
      | (Ok (status, status2), s) =>
          let s := mv_print_if (mv_debug a) PBlank s in
          let s := mv_print_if (mv_debug a) (PAdded status) s in
          let s := mv_print_if (mv_debug a) (PRemoved status2) s in
          (Ok tt, s)
      end
  end.

End MvRepos.

(** A string ends with a whitespace character. *)
Definition ends_with_whitespace (s : string) : Prop :=
  ∃ s' c, s = s' ++ String c EmptyString ∧ is_whitespace c = true.

Definition all_whitespace (s : string) : Prop :=
  Forall (λ c, is_whitespace c = true) (list_ascii_of_string s).

(** A team organization for the examples: [add_repo] succeeds for the
    repositories of the list and records the team, [remove_repo] always
    answers [False]. *)
Definition ex_organization (name : string) (w : list (string * string))
  : outcome host_exn string * list (string * string) := (Ok name, w).
Definition ex_add_repo (known : list string) (org repo team : string)
    (w : list (string * string))
  : outcome host_exn bool * list (string * string) :=
  if str_in repo known then (Ok true, (w ++ [(repo, team)])%list)
  else (Ok false, w).
Definition ex_remove_repo (org repo team : string)
    (w : list (string * string))
  : outcome host_exn bool * list (string * string) := (Ok false, w).

Definition ex_mv_args : mv_args :=
  {| mv_repos := ["pipe_tasks "; "apr_util"]; mv_oldteam := "test_ext2";
     mv_newteam := "test_ext"; mv_org := "lsst"; mv_debug := false;
     mv_dry_run := false |}.

(** Unfolding of the monad in a goal and its hypotheses. *)
Ltac unfold_monad :=
  unfold getitem, read_local, debug, info, warn, error in *;
  unfold emit, call, try_except, bind, ret, raise in *.

(** * Properties *)

(** ** The monad and the loop *)

Lemma for_each_app {W X L} (body : L → X → M W L) (xs ys : list X) loc s :
  for_each body (xs ++ ys) loc s
  = match for_each body xs loc s with
    | (Ok loc', s') => for_each body ys loc' s'
    | (Raise e, s') => (Raise e, s')
    end.
Proof.
  revert loc s. induction xs as [|x xs IH]; intros loc s; simpl; [done|].
  unfold bind. destruct (body loc x s) as [[loc'|e] s']; [apply IH|done].
Qed.

(** A raise inside the loop leaves the loop at once: the items that follow
    play no part. *)
Lemma for_each_raise {W X L} (body : L → X → M W L) pre x post loc s loc1 s1 e s2 :
  for_each body pre loc s = (Ok loc1, s1) →
  body loc1 x s1 = (Raise e, s2) →
  for_each body (pre ++ x :: post) loc s = (Raise e, s2).
Proof.
  intros Hpre Hx. rewrite for_each_app, Hpre. simpl. unfold bind. by rewrite Hx.
Qed.

(** A loop that raises has completed the iterations before the one that
    raised. *)
Lemma for_each_raise_inv {W X L} (body : L → X → M W L) xs loc s e s' :
  for_each body xs loc s = (Raise e, s') →
  ∃ pre x post loc1 s1,
    xs = (pre ++ x :: post)%list
    ∧ for_each body pre loc s = (Ok loc1, s1)
    ∧ body loc1 x s1 = (Raise e, s').
Proof.
  revert loc s. induction xs as [|x xs IH]; intros loc s; cbn [for_each].
  - done.
  - unfold bind. destruct (body loc x s) as [[loc1|e1] s1] eqn:E.
    + intros (pre & y & post & loc2 & s2 & -> & Hpre & Hy)%IH.
      exists (x :: pre), y, post, loc2, s2. split_and!; [done| |done].
      cbn [for_each]. unfold bind. by rewrite E.
    + intros [= <- <-]. by exists [], x, xs, loc, s.
Qed.

(** An invariant of the locals that every iteration keeps holds at the end. *)
Lemma for_each_invariant {W X L} (I : L → Prop) (body : L → X → M W L) xs :
  (∀ loc x s loc' s', x ∈ xs → I loc → body loc x s = (Ok loc', s') → I loc') →
  ∀ loc s loc' s', I loc → for_each body xs loc s = (Ok loc', s') → I loc'.
Proof.
  induction xs as [|x xs IH]; intros Hbody loc s loc' s' HI; simpl.
  - unfold ret. by intros [= <- _].
  - unfold bind. destruct (body loc x s) as [[loc1|e] s1] eqn:E; [|done].
    apply IH; [|eapply Hbody; [left|done..]].
    intros ????? Hin. apply Hbody. by right.
Qed.

(** ** Dicts *)

Lemma string_eqb_eq (a b : string) : String.eqb a b = bool_decide (a = b).
Proof.
  destruct (String.eqb_spec a b); [by rewrite bool_decide_eq_true_2|by rewrite bool_decide_eq_false_2].
Qed.

Lemma dict_get_set_eq {V} k (v : V) d : dict_get k (dict_set k v d) = Some v.
Proof.
  induction d as [|[k' v'] d IH]; simpl.
  - by rewrite String.eqb_refl.
  - destruct (String.eqb k k') eqn:E; simpl; rewrite ?String.eqb_refl, ?E; done.
Qed.

Lemma dict_get_set_ne {V} k k' (v : V) d :
  k ≠ k' → dict_get k' (dict_set k v d) = dict_get k' d.
Proof.
  intros Hne. induction d as [|[k1 v1] d IH]; simpl.
  - destruct (String.eqb_spec k' k); congruence.
  - destruct (String.eqb_spec k k1) as [->|]; simpl.
    + destruct (String.eqb_spec k' k1); congruence.
    + by rewrite IH.
Qed.

Lemma keys_dict_set {V} k (v : V) d :
  keys (dict_set k v d) = if bool_decide (k ∈ keys d) then keys d else (keys d ++ [k])%list.
Proof.
  unfold keys. induction d as [|[k1 v1] d IH]; simpl; [done|].
  destruct (String.eqb_spec k k1) as [->|Hne]; simpl.
  - rewrite bool_decide_eq_true_2; [done|left].
  - rewrite IH. destruct (decide (k ∈ map fst d)).
    + rewrite !bool_decide_eq_true_2; [done|by right|done].
    + rewrite !bool_decide_eq_false_2; [done| |done].
      intros [?|?]%elem_of_cons; done.
Qed.

Lemma NoDup_keys_dict_set {V} k (v : V) d :
  NoDup (keys d) → NoDup (keys (dict_set k v d)).
Proof.
  intros Hd. rewrite keys_dict_set. case_bool_decide; [done|].
  apply NoDup_app. split_and!; [done| |apply NoDup_singleton].
  intros x Hx ->%list_elem_of_singleton. done.
Qed.

Lemma elem_of_dict_set {V} k (v : V) d kv :
  kv ∈ dict_set k v d → kv = (k, v) ∨ kv ∈ d.
Proof.
  induction d as [|[k1 v1] d IH]; simpl.
  - intros ->%list_elem_of_singleton. by left.
  - destruct (String.eqb k k1).
    + intros [->|?]%elem_of_cons; [by left|right; by right].
    + intros [->|?]%elem_of_cons; [right; left|].
      destruct IH as [|]; [done|by left|right; by right].
Qed.

Lemma dict_get_elem_of {V} k (v : V) d : dict_get k d = Some v → (k, v) ∈ d.
Proof.
  induction d as [|[k1 v1] d IH]; simpl; [done|].
  destruct (String.eqb_spec k k1) as [->|].
  - intros [= ->]. left.
  - intros. right. auto.
Qed.

Lemma dict_get_None {V} k (d : dict V) : k ∉ keys d → dict_get k d = None.
Proof.
  unfold keys. induction d as [|[k1 v1] d IH]; simpl; [done|].
  intros Hn. destruct (String.eqb_spec k k1) as [->|].
  - exfalso. apply Hn. left.
  - apply IH. intros ?. apply Hn. by right.
Qed.

(** In a dict, which has no key twice, a key that is bound has exactly one
    entry. *)
Lemma dict_exactly_one {V} k (v : V) d :
  NoDup (keys d) → dict_get k d = Some v →
  filter (λ kv : string * V, kv.1 = k) d = [(k, v)].
Proof.
  unfold keys. induction d as [|[k1 v1] d IH]; [done|].
  rewrite fmap_cons, NoDup_cons, filter_cons. cbn [dict_get fst].
  intros [Hk1 Hd]. destruct (String.eqb_spec k k1) as [->|Hne].
  - intros [= ->]. rewrite decide_True by done. f_equal.
    destruct (filter _ d) as [|[k2 v2] l] eqn:E; [done|].
    assert ((k2, v2) ∈ filter (λ kv : string * V, kv.1 = k1) d) as Hin
      by (rewrite E; left).
    apply list_elem_of_filter in Hin as [Hk Hin]. simpl in Hk. subst k2.
    destruct Hk1. apply list_elem_of_fmap. by exists (k1, v2).
  - intros Hget. rewrite decide_False by congruence. auto.
Qed.

(** ** [cross_reference_products] *)

Section CrossReference.
Context {W : Type}.
Implicit Types (s : state W) (loc : xref_locals).
Implicit Types (manifest_products : gmap string (gmap string string)).

(** A product found in the manifest with the same version string is merged:
    no problem is recorded, nothing is raised and nothing is logged. *)
Lemma cross_reference_body_agree manifest_products ignore_version fail_fast
    loc name eups_data manifest_data v s :
  manifest_products !! name = Some manifest_data →
  eups_data !! "eups_version" = Some v →
  manifest_data !! "eups_version" = Some v →
  cross_reference_body manifest_products ignore_version fail_fast loc
    (name, eups_data) s
  = (Ok {| xr_products :=
             dict_set name (dict_update eups_data manifest_data)
                      (xr_products loc);
           xr_problems := xr_problems loc;
           xr_manifest_data := Some manifest_data |}, s).
Proof.
  intros Hm He Hv. unfold cross_reference_body. unfold_monad.
  rewrite Hm, He. destruct ignore_version; simpl.
  - rewrite (insert_id _ _ _ Hv), Hv. simpl. by rewrite String.eqb_refl.
  - rewrite Hv. simpl. by rewrite String.eqb_refl.
Qed.

(** What an iteration that does not raise has done. *)
Lemma cross_reference_body_ok manifest_products ignore_version fail_fast
    loc name eups_data s loc' s' :
  cross_reference_body manifest_products ignore_version fail_fast loc
    (name, eups_data) s = (Ok loc', s') →
  ∃ md extra,
    xr_products loc'
      = dict_set name (dict_update eups_data md) (xr_products loc)
    ∧ xr_problems loc' = (xr_problems loc ++ extra)%list
    ∧ (manifest_products !! name = None → extra ≠ [])
    ∧ (ignore_version = true → ∀ e, e ∈ extra → ¬ is_version_mismatch e)
    ∧ (∀ m, manifest_products !! name = Some m → extra = [] →
         ∃ v, eups_data !! "eups_version" = Some v
              ∧ md = if ignore_version then <["eups_version" := v]> m else m).
Proof.
  unfold cross_reference_body, is_version_mismatch. unfold_monad. intros H.
  repeat (case_match; simplify_eq/=);
    repeat match goal with
      | H : <[_:=_]> _ !! _ = Some _ |- _ =>
          rewrite lookup_insert_eq in H; simplify_eq
      | H : negb (?a =? ?a)%string = true |- _ =>
          rewrite String.eqb_refl in H; discriminate
      end.
  all: eexists _, _; (split; [reflexivity|]).
  all: (split; [first [by rewrite <-app_assoc | by rewrite app_nil_r
                      | reflexivity]|]).
  all: split_and!; try done; eauto.
  - intros _ e []%elem_of_nil.
  - intros m [= <-] _. eauto.
  - intros _ e ->%list_elem_of_singleton (p & a & b & [=]).
  - intros m [= <-] _. eauto.
Qed.

(** What an iteration raises when [ignore_version] is set is never a
    version mismatch. *)
Lemma cross_reference_body_raise_ignore manifest_products fail_fast
    loc name eups_data s e s' :
  cross_reference_body manifest_products true fail_fast loc
    (name, eups_data) s = (Raise e, s') →
  ¬ is_version_mismatch e.
Proof.
  unfold cross_reference_body, is_version_mismatch. unfold_monad. intros H.
  repeat (case_match; simplify_eq/=);
    repeat match goal with
      | H : <[_:=_]> _ !! _ = _ |- _ =>
          rewrite lookup_insert_eq in H; simplify_eq
      | H : negb (?a =? ?a)%string = true |- _ =>
          rewrite String.eqb_refl in H; discriminate
      end;
    by intros (? & ? & ? & [=]).
Qed.

(** What leaves an iteration: a [KeyError], an [UnboundLocalError] or,
    with fail-fast only, the failure of the product. *)
Lemma cross_reference_body_raise manifest_products ignore_version fail_fast
    loc name eups_data s e s' :
  cross_reference_body manifest_products ignore_version fail_fast loc
    (name, eups_data) s = (Raise e, s') →
  (∃ k, e = KeyError k) ∨ (∃ x, e = UnboundLocalError x)
  ∨ (fail_fast = true ∧ ∃ m, e = RuntimeError m).
Proof.
  unfold cross_reference_body. unfold_monad. intros H.
  repeat (case_match; simplify_eq/=); eauto 6.
Qed.

Lemma cross_reference_loop manifest_products ignore_version fail_fast
    eups_products :
  ∀ loc s loc' s',
  for_each (cross_reference_body manifest_products ignore_version fail_fast)
    eups_products loc s = (Ok loc', s') →
  (∃ extra, xr_problems loc' = (xr_problems loc ++ extra)%list
            ∧ (ignore_version = true →
               ∀ e, e ∈ extra → ¬ is_version_mismatch e))
  ∧ (∀ n, n ∉ keys eups_products →
          dict_get n (xr_products loc') = dict_get n (xr_products loc))
  ∧ (NoDup (keys (xr_products loc)) → NoDup (keys (xr_products loc')))
  ∧ (NoDup (keys eups_products) → xr_problems loc' = xr_problems loc →
     ∀ n e m, (n, e) ∈ eups_products → manifest_products !! n = Some m →
       ∃ v, e !! "eups_version" = Some v
            ∧ dict_get n (xr_products loc')
              = Some (dict_update e
                        (if ignore_version then <["eups_version" := v]> m
                         else m))).
Proof.
  induction eups_products as [|[n0 e0] l IH]; intros loc s loc' s';
    cbn [for_each].
  - unfold ret. intros [= <- <-]. split_and!; try done.
    + exists []. split; [by rewrite app_nil_r|]. by intros _ e ?%elem_of_nil.
    + by intros _ _ n e m ?%elem_of_nil.
  - unfold bind at 1.
    destruct (cross_reference_body manifest_products ignore_version fail_fast
                loc (n0, e0) s) as [[loc1|x] s1] eqn:E; [|done].
    intros Hl.
    destruct (cross_reference_body_ok _ _ _ _ _ _ _ _ _ E)
      as (md & extra & Hp & Hx & Hnone & Hiv & Hsome).
    destruct (IH _ _ _ _ Hl) as ((extra' & Hx' & Hiv') & Hget & Hkeys & Hall).
    split_and!.
    + exists (extra ++ extra')%list. split.
      { by rewrite Hx', Hx, app_assoc. }
      intros Htrue e [?|?]%elem_of_app; auto.
    + intros n Hn. apply not_elem_of_cons in Hn as [Hne Hn].
      rewrite (Hget n Hn), Hp. by apply dict_get_set_ne.
    + intros Hk. apply Hkeys. rewrite Hp. by apply NoDup_keys_dict_set.
    + intros [Hn0 Hnd]%NoDup_cons Hsame n e m Hin Hm.
      assert (extra = [] ∧ extra' = []) as [-> ->].
      { rewrite Hx', Hx, <-app_assoc in Hsame.
        apply (f_equal List.length) in Hsame. rewrite !length_app in Hsame.
        split; apply nil_length_inv; lia. }
      rewrite app_nil_r in Hx, Hx'.
      apply elem_of_cons in Hin as [[= -> ->]|Hin].
      * destruct (Hsome m Hm eq_refl) as (v & Hv & ->).
        exists v. split; [done|].
        rewrite (Hget n0 Hn0), Hp. apply dict_get_set_eq.
      * apply Hall; [done|congruence|done..].
Qed.

(** C6: a product present in the candidate and in the manifest with equal
    version strings is merged by its iteration, whatever the flags and the
    locals; a mapping returned by the stage holds exactly one record for it,
    the candidate fields extended and overridden by the manifest fields; and
    the stage does return a mapping when all products agree. *)
Theorem cross_reference_merges
    (eups_products : dict (gmap string string)) manifest_products
    ignore_version fail_fast name eups_data manifest_data v s :
  NoDup (keys eups_products) →
  (name, eups_data) ∈ eups_products →
  manifest_products !! name = Some manifest_data →
  eups_data !! "eups_version" = Some v →
  manifest_data !! "eups_version" = Some v →
  (∀ loc s0,
     cross_reference_body manifest_products ignore_version fail_fast loc
       (name, eups_data) s0
     = (Ok {| xr_products :=
                dict_set name (dict_update eups_data manifest_data)
                         (xr_products loc);
              xr_problems := xr_problems loc;
              xr_manifest_data := Some manifest_data |}, s0))
  ∧ (∀ products s',
       cross_reference_products eups_products manifest_products
         ignore_version fail_fast s = (Ok products, s') →
       filter (λ kv : string * gmap string string, kv.1 = name) products
       = [(name, dict_update eups_data manifest_data)])
  ∧ (∀ k, dict_update eups_data manifest_data !! k
          = match manifest_data !! k with
            | Some x => Some x
            | None => eups_data !! k
            end)
  ∧ ((∀ n e, (n, e) ∈ eups_products →
        ∃ m t, manifest_products !! n = Some m
               ∧ e !! "eups_version" = Some t
               ∧ m !! "eups_version" = Some t) →
     ∃ products,
       cross_reference_products eups_products manifest_products
         ignore_version fail_fast s = (Ok products, s)).
Proof.
  intros Hnd Hin Hm He Hv. split_and!.
  - intros loc s0. by eapply cross_reference_body_agree.
  - intros products s'. unfold cross_reference_products. unfold bind at 1.
    destruct (for_each _ _ _ s) as [[loc|x] s1] eqn:E; [|done].
    destruct (cross_reference_loop _ _ _ _ _ _ _ _ E)
      as (_ & _ & Hkeys & Hall).
    destruct (xr_problems loc) eqn:Ep; [|done].
    unfold ret. intros [= <- <-].
    apply dict_exactly_one; [apply Hkeys; constructor|].
    destruct (Hall Hnd eq_refl name eups_data manifest_data Hin Hm)
      as (v' & Hv' & ->).
    do 2 f_equal. destruct ignore_version; [|done].
    apply insert_id. congruence.
  - intros k. unfold dict_update. rewrite lookup_union.
    by destruct (manifest_data !! k), (eups_data !! k).
  - clear. intros Hall. unfold cross_reference_products. unfold bind at 1.
    cut (∀ loc, ∃ loc',
           for_each (cross_reference_body manifest_products ignore_version
                       fail_fast) eups_products loc s = (Ok loc', s)
           ∧ xr_problems loc' = xr_problems loc).
    { intros Hcut. destruct (Hcut {| xr_products := []; xr_problems := [];
                                     xr_manifest_data := None |})
        as (loc' & -> & Hp). simpl in Hp. rewrite Hp. by eexists. }
    induction eups_products as [|[n e] l IH]; intros loc; cbn [for_each].
    + by exists loc.
    + destruct (Hall n e) as (m & t & Hm & He & Ht); [left|].
      unfold bind. erewrite cross_reference_body_agree by done.
      edestruct IH as (loc' & -> & Hp);
        [intros ???; apply Hall; by right|].
      by exists loc'.
Qed.

(** C7: with [ignore_version] the version string of the manifest entry is
    overwritten with the candidate's before the comparison: the iteration
    of a product present in both sources records nothing and merges a
    record that carries the candidate's version string; no version mismatch
    is ever raised or aggregated by the stage; and a mapping returned by the
    stage carries the candidate's version string for every such product. *)
Theorem ignore_version_passes_candidate_version
    (eups_products : dict (gmap string string)) manifest_products
    fail_fast s :
  (∀ loc name eups_data manifest_data v s0,
     manifest_products !! name = Some manifest_data →
     eups_data !! "eups_version" = Some v →
     cross_reference_body manifest_products true fail_fast loc
       (name, eups_data) s0
     = (Ok {| xr_products :=
                dict_set name
                  (dict_update eups_data
                     (<["eups_version" := v]> manifest_data))
                  (xr_products loc);
              xr_problems := xr_problems loc;
              xr_manifest_data :=
                Some (<["eups_version" := v]> manifest_data) |}, s0)
     ∧ dict_update eups_data (<["eups_version" := v]> manifest_data)
         !! "eups_version" = Some v)
  ∧ (∀ e s',
       cross_reference_products eups_products manifest_products true
         fail_fast s = (Raise e, s') →
       ¬ is_version_mismatch e
       ∧ ∀ errors msg, e = DogpileError errors msg →
           ∀ x, x ∈ errors → ¬ is_version_mismatch x)
  ∧ (∀ products s' name eups_data manifest_data,
       NoDup (keys eups_products) →
       (name, eups_data) ∈ eups_products →
       manifest_products !! name = Some manifest_data →
       cross_reference_products eups_products manifest_products true
         fail_fast s = (Ok products, s') →
       ∃ v merged,
         eups_data !! "eups_version" = Some v
         ∧ dict_get name products = Some merged
         ∧ merged = dict_update eups_data
                      (<["eups_version" := v]> manifest_data)
         ∧ merged !! "eups_version" = Some v).
Proof.
  assert (∀ (a b : gmap string string) v,
            dict_update a (<["eups_version" := v]> b) !! "eups_version"
            = Some v) as Hupd.
  { intros a b v. unfold dict_update.
    apply lookup_union_Some_l, lookup_insert_eq. }
  split_and!.
  - intros loc name eups_data manifest_data v s0 Hm He. split; [|apply Hupd].
    unfold cross_reference_body. unfold_monad. rewrite Hm, He. simpl.
    rewrite lookup_insert_eq. simpl. by rewrite String.eqb_refl.
  - intros e s'. unfold cross_reference_products. unfold bind at 1.
    destruct (for_each _ _ _ s) as [[loc|x] s1] eqn:E.
    + destruct (cross_reference_loop _ _ _ _ _ _ _ _ E)
        as ((extra & Hx & Hiv) & _). simpl in Hx. subst extra.
      destruct (xr_problems loc) as [|p ps] eqn:Ep; [done|].
      unfold raise. intros [= <- <-]. split.
      * by intros (? & ? & ? & [=]).
      * intros errors msg [= <- _]. auto.
    + intros [= <- <-].
      pose proof E as E'.
      apply for_each_raise_inv in E'
        as (pre & [n d] & post & loc1 & s2 & _ & _ & Hb).
      apply cross_reference_body_raise_ignore in Hb. split; [done|].
      intros errors msg ->. clear Hb.
      apply for_each_raise_inv in E as (? & [??] & ? & ? & ? & _ & _ & Hb).
      apply cross_reference_body_raise in Hb
        as [[? [=]]|[[? [=]]|[_ [? [=]]]]].
  - intros products s' name eups_data manifest_data Hnd Hin Hm.
    unfold cross_reference_products. unfold bind at 1.
    destruct (for_each _ _ _ s) as [[loc|x] s1] eqn:E; [|done].
    destruct (cross_reference_loop _ _ _ _ _ _ _ _ E) as (_ & _ & _ & Hall).
    destruct (xr_problems loc) eqn:Ep; [|done].
    unfold ret. intros [= <- <-].
    destruct (Hall Hnd eq_refl name eups_data manifest_data Hin Hm)
      as (v & Hv & Hget).
    exists v, (dict_update eups_data (<["eups_version" := v]> manifest_data)).
    split_and!; [done..|apply Hupd].
Qed.

(** The [except KeyError] branch has no [continue]: after recording the
    missing entry the iteration goes on to read [manifest_data], which is
    unbound when the first product is the missing one. *)
Lemma cross_reference_first_missing
    (rest : dict (gmap string string)) manifest_products ignore_version
    name eups_data v s :
  manifest_products !! name = None →
  eups_data !! "eups_version" = Some v →
  cross_reference_products ((name, eups_data) :: rest) manifest_products
    ignore_version false s
  = (Raise (UnboundLocalError "manifest_data"),
     State (hub s)
       (log s ++ [(ERROR, TException
                     (RuntimeError (MissingManifestRecord name v)))])).
Proof.
  intros Hm He. unfold cross_reference_products. cbn [for_each].
  unfold cross_reference_body. unfold_monad. rewrite Hm, He. simpl.
  by destruct ignore_version.
Qed.

End CrossReference.

Lemma cross_reference_merges_witness :
  cross_reference_products [("pkgA", Ex.pkgA_eups)]
    {[ "pkgA" := Ex.pkgA_manifest ]} false false Ex.s0
  = (Ok [("pkgA", Ex.pkgA_manifest)], Ex.s0)
  ∧ filter (λ kv : string * gmap string string, kv.1 = "pkgA")
      [("pkgA", Ex.pkgA_manifest)]
    = [("pkgA", dict_update Ex.pkgA_eups Ex.pkgA_manifest)].
Proof.
  split; [vm_compute; reflexivity|].
  refine (proj1 (proj2 (cross_reference_merges
    [("pkgA", Ex.pkgA_eups)] {[ "pkgA" := Ex.pkgA_manifest ]} false false
    "pkgA" Ex.pkgA_eups Ex.pkgA_manifest "w_2018_18" Ex.s0
    _ _ _ _ _)) _ Ex.s0 _).
  - apply NoDup_singleton.
  - left.
  - vm_compute; reflexivity.
  - vm_compute; reflexivity.
  - vm_compute; reflexivity.
  - vm_compute; reflexivity.
Defined.

Lemma ignore_version_passes_candidate_version_witness :
  ∃ v merged,
    Ex.pkgA_eups !! "eups_version" = Some v
    ∧ dict_get "pkgA"
        [("pkgA", dict_update Ex.pkgA_eups
                    (<["eups_version" := "w_2018_18"]> Ex.pkgA_stale))]
      = Some merged
    ∧ merged = dict_update Ex.pkgA_eups
                 (<["eups_version" := v]> Ex.pkgA_stale)
    ∧ merged !! "eups_version" = Some v.
Proof.
  refine (proj2 (proj2 (ignore_version_passes_candidate_version
    [("pkgA", Ex.pkgA_eups)] {[ "pkgA" := Ex.pkgA_stale ]} false Ex.s0))
    _ Ex.s0 "pkgA" Ex.pkgA_eups Ex.pkgA_stale _ _ _ _).
  - apply NoDup_singleton.
  - left.
  - vm_compute; reflexivity.
  - vm_compute; reflexivity.
Defined.

(** C2 (the code departs from the claim): a single candidate product that
    is missing from the manifest, without fail-fast.  The failure is
    logged, but the stage does not aggregate it: the iteration goes on
    past the [except] branch and dies on the unbound [manifest_data]. *)
Theorem cross_reference_single_missing_product :
  cross_reference_products [("pkgB", Ex.pkgB_eups)] ∅ false false Ex.s0
  = (Raise (UnboundLocalError "manifest_data"),
     State tt
       [(ERROR, TException
           (RuntimeError (MissingManifestRecord "pkgB" "w_2018_18")))]).
Proof. vm_compute. reflexivity. Qed.

(** After a product that was found, the missing product is compared and
    merged with the manifest entry of the product before it: here two
    failures are recorded for [pkgB] alone. *)
Lemma cross_reference_missing_product_stale_entry :
  fst (cross_reference_products
         [("pkgA", Ex.pkgA_eups); ("pkgB", {[ "eups_version" := "w_2018_17" ]})]
         {[ "pkgA" := Ex.pkgA_manifest ]} false false Ex.s0)
  = Raise (DogpileError
             [RuntimeError (MissingManifestRecord "pkgB" "w_2018_17");
              RuntimeError (VersionMismatch "pkgB" "w_2018_17" "w_2018_18")]
             (ProductsHaveErrors 2)).
Proof. vm_compute. reflexivity. Qed.

(** ** [tag_products] under [dry_run] *)

Section Apply.
Context `{P : Platform}.

Lemma tag_body_dry_run fail_fast problems name data s :
  is_Some (rp_data (tp_product data) !! "eups_version") →
  tag_body fail_fast true problems (name, data) s
  = (Ok problems, State (hub s) (log s ++ dry_run_notices (name, data))).
Proof.
  intros [et Het]. unfold tag_body, dry_run_notices. unfold_monad.
  rewrite Het. simpl. rewrite <-app_assoc. simpl.
  repeat f_equal. by destruct (rp_data _ !! _) as [?|]; simplify_eq.
Qed.

(** C10: under [dry_run] the applier calls nothing on the platform, whose
    state is the one it started from, raises nothing and returns; it writes
    the two notices of each plan to the log, in order.  The plans are
    records of the pipeline, which carry their [eups_version]. *)
Theorem dry_run_is_noop (products : dict tag_plan) fail_fast s :
  (∀ name data, (name, data) ∈ products →
     is_Some (rp_data (tp_product data) !! "eups_version")) →
  tag_products products fail_fast true s
  = (Ok tt, State (hub s) (log s ++ flat_map dry_run_notices products)).
Proof.
  intros Hall. unfold tag_products. unfold bind at 1.
  cut (∀ s, for_each (tag_body fail_fast true) products [] s
            = (Ok [], State (hub s)
                        (log s ++ flat_map dry_run_notices products))).
  { intros ->. done. }
  clear s. induction products as [|[n d] l IH]; intros s; cbn [for_each].
  - unfold ret. simpl. rewrite app_nil_r. by destruct s.
  - unfold bind. rewrite tag_body_dry_run by (eapply Hall; left).
    rewrite IH by (intros ???; eapply Hall; by right).
    cbn [hub log flat_map]. by rewrite <-app_assoc.
Qed.

End Apply.

Lemma dry_run_is_noop_witness :
  tag_products (P:=Sim.platform) [("pkgA", Ex.pkgA_plan)] true true Ex.h0
  = (Ok tt,
     State Ex.hub0
       [(INFO, TTaggingRepo "pkgA" "abc123" "w.2018.18" "w_2018_18"
                 false false);
        (INFO, TNoop)]).
Proof.
  refine (dry_run_is_noop (P:=Sim.platform) [("pkgA", Ex.pkgA_plan)] true
            Ex.h0 _).
  intros name data [= _ ->]%list_elem_of_singleton.
  exists "w_2018_18". vm_compute; reflexivity.
Defined.

(** ** [check_product_tags] *)

Section Plan.
Context `{P : Platform}.

(** The five ways out of [check_existing_git_tag]. *)
Lemma check_existing_git_tag_cases repo t_tag s r s' :
  check_existing_git_tag repo t_tag s = (r, s') →
  r = Ok false ∨ r = Ok true
  ∨ (∃ tag sha, r = Raise (GitTagExistsError tag sha))
  ∨ (∃ h, r = Raise (Host h))
  ∨ (∃ u, r = Raise (RuntimeError (UnsupportedType u))).
Proof.
  unfold check_existing_git_tag, cmp_existing_git_tag, cmp_gitauthor,
    author_to_dict.
  unfold_monad. cbn [hub log].
  destruct (find_tag_by_name _ _ _ _) as [[[e_ref|]|h] w1];
    [|intros [= <- <-]; eauto|intros [= <- <-]; eauto 6].
  destruct (repo_get_git_tag _ _ _) as [[e_tag|h] w2];
    [|intros [= <- <-]; eauto 6].
  destruct (String.eqb _ _); [|intros [= <- <-]; eauto 6].
  destruct (String.eqb _ _); [|intros [= <- <-]; eauto 6].
  destruct (t_tagger t_tag); [| |intros [= <- <-]; eauto 8];
    (destruct (tag_tagger e_tag); [| |intros [= <- <-]; eauto 8]);
    (destruct (cmp_dict _ _ _); intros [= <- <-]; eauto 8).
Qed.

(** The iteration, read off the result of [check_existing_git_tag]. *)
Lemma check_product_body_unfold tag_template force_tag fail_fast loc name
    data sha s :
  rp_data data !! "sha" = Some sha →
  check_product_body tag_template force_tag fail_fast loc (name, data) s
  = let t_tag := target_of tag_template data sha in
    let plan := pl_plan name (plan_entry tag_template data sha) loc in
    match check_existing_git_tag (rp_repo data) t_tag s with
    | (Ok true, s1) =>
        (Ok loc,
         say WARN (TNoAction (full_name (rp_repo data)) (t_name t_tag)) s1)
    | (Ok false, s1) => (Ok plan, s1)
    | (Raise (Host RateLimitExceededException as e), s1) => (Raise e, s1)
    | (Raise (GitTagExistsError _ _ as e), s1) =>
        if force_tag then (Ok plan, say WARN (TWillBeMoved (t_name t_tag)) s1)
        else if fail_fast then (Raise e, s1)
        else (Ok (pl_problem e loc), say ERROR (TException e) s1)
    | (Raise (Host h as e), s1) =>
        if is_GithubException h then
          let yikes := CaughtRepositoryError (rp_repo data) h in
          if fail_fast then (Raise yikes, s1)
          else (Ok (pl_problem yikes loc), say ERROR (TException yikes) s1)
        else (Raise e, s1)
    | (Raise e, s1) => (Raise e, s1)
    end.
Proof.
  intros Hsha.
  unfold check_product_body, plan_entry, pl_plan, pl_problem, say.
  unfold target_of. unfold_monad. rewrite Hsha.
  cbv beta zeta iota delta [t_name t_message t_tagger t_sha].
  destruct (rp_v data && re_match_digit (tmpl_name tag_template));
    (destruct (check_existing_git_tag _ _ s) as [[[|]|e] s1];
     [reflexivity|reflexivity|]);
    (destruct e as [[]| | | | | | | | | | |]; try reflexivity;
     cbn [is_GithubException]; by destruct force_tag, fail_fast).
Qed.



Lemma check_product_body_no_sha tag_template force_tag fail_fast loc name
    data s :
  rp_data data !! "sha" = None →
  check_product_body tag_template force_tag fail_fast loc (name, data) s
  = (Raise (KeyError "sha"), s).
Proof.
  intros Hsha. unfold check_product_body, getitem. rewrite Hsha. done.
Qed.

(** What an iteration that does not raise has done: nothing (the tag is in
    sync), recorded a failure, or planned the product; a plan never asks
    for an update. *)
Lemma check_product_body_ok tag_template force_tag fail_fast loc name data
    s loc' s' :
  check_product_body tag_template force_tag fail_fast loc (name, data) s
  = (Ok loc', s') →
  ∃ sha, rp_data data !! "sha" = Some sha
    ∧ (loc' = loc
       ∨ (fail_fast = false
          ∧ ∃ e, is_plan_failure e ∧ loc' = pl_problem e loc)
       ∨ loc' = pl_plan name (plan_entry tag_template data sha) loc).
Proof.
  destruct (rp_data data !! "sha") as [sha|] eqn:Hsha;
    [|by rewrite check_product_body_no_sha].
  rewrite (check_product_body_unfold _ _ _ _ _ _ sha) by done.
  cbv zeta. intros H. exists sha. split; [done|].
  destruct (check_existing_git_tag _ _ s) as [r s1] eqn:E.
  apply check_existing_git_tag_cases in E
    as [->|[->|[(tag & sha' & ->)|[(h & ->)|(u & ->)]]]]; simplify_eq; eauto.
  - destruct force_tag; simplify_eq; eauto.
    destruct fail_fast; simplify_eq.
    right; left. split; [done|]. eexists. split; [|done]. left. eauto.
  - destruct h; simplify_eq/=; destruct fail_fast; simplify_eq;
      right; left; (split; [done|]); (eexists; split; [|done]);
      right; eauto 6.
Qed.

(** What leaves an iteration: a [KeyError], what the platform raised (and
    the handlers let through), the [RuntimeError] of an unsupported tagger
    or, with fail-fast only, the failure of the product. *)
Lemma check_product_body_raise tag_template force_tag fail_fast loc name
    data s e s' :
  check_product_body tag_template force_tag fail_fast loc (name, data) s
  = (Raise e, s') →
  e = KeyError "sha"
  ∨ e = Host RateLimitExceededException
  ∨ (∃ c, e = Host (NonGithubError c))
  ∨ (∃ u, e = RuntimeError (UnsupportedType u))
  ∨ (fail_fast = true ∧ is_plan_failure e).
Proof.
  destruct (rp_data data !! "sha") as [sha|] eqn:Hsha;
    [|rewrite check_product_body_no_sha by done; intros [= <- _]; eauto].
  rewrite (check_product_body_unfold _ _ _ _ _ _ sha) by done.
  cbv zeta. intros H.
  destruct (check_existing_git_tag _ _ s) as [r s1] eqn:E.
  apply check_existing_git_tag_cases in E
    as [->|[->|[(tag & sha' & ->)|[(h & ->)|(u & ->)]]]]; simplify_eq; eauto 6.
  - destruct force_tag; simplify_eq. destruct fail_fast; simplify_eq.
    do 4 right. split; [done|]. left. eauto.
  - destruct h; simplify_eq/=; eauto 6; destruct fail_fast; simplify_eq;
      do 4 right; (split; [done|]); right; eauto 6.
Qed.

(** Every entry of the mapping that the planner returns was built by the
    iteration of a product of its input. *)
Lemma check_product_tags_plans products tag_template force_tag fail_fast s
    plans s' name plan :
  check_product_tags products tag_template force_tag fail_fast s
  = (Ok plans, s') →
  (name, plan) ∈ plans →
  ∃ data sha, (name, data) ∈ products
              ∧ rp_data data !! "sha" = Some sha
              ∧ plan = plan_entry tag_template data sha.
Proof.
  unfold check_product_tags. unfold bind at 1.
  destruct (for_each _ _ _ s) as [[loc|x] s1] eqn:E; [|done].
  destruct (pl_problems loc); [|done]. unfold ret. intros [= <- <-].
  revert name plan.
  refine (for_each_invariant
    (λ loc, ∀ name plan, (name, plan) ∈ pl_checked loc →
       ∃ data sha, (name, data) ∈ products
                   ∧ rp_data data !! "sha" = Some sha
                   ∧ plan = plan_entry tag_template data sha)
    _ products _ _ _ _ _ _ E).
  - intros loc0 [n d] s0 loc1 s2 Hin I0 Hb name plan.
    apply check_product_body_ok in Hb
      as (sha & Hsha & [-> | [(_ & e & _ & ->) | ->]]);
      [apply I0|apply I0|].
    intros [[= -> ->]|?]%elem_of_dict_set; [|by apply I0].
    by exists d, sha.
  - by intros ?? ?%elem_of_nil.
Qed.

Lemma is_digit_spec c :
  is_digit c = true ↔ c ∈ list_ascii_of_string "0123456789".
Proof.
  split.
  - destruct c as [[] [] [] [] [] [] [] []]; intros H; try discriminate H;
      cbn [list_ascii_of_string];
      repeat first [by apply list_elem_of_here | apply list_elem_of_further].
  - cbn [list_ascii_of_string]. rewrite !elem_of_cons, elem_of_nil.
    intros H. by repeat destruct H as [->|H].
Qed.

Lemma re_match_digit_spec s : re_match_digit s = true ↔ begins_with_digit s.
Proof.
  unfold begins_with_digit. destruct s as [|c rest]; simpl.
  - split; [done|]. by intros (c & rest & [=] & _).
  - rewrite is_digit_spec. split; [by exists c, rest|].
    by intros (c' & rest' & [= -> ->] & ?).
Qed.

(** C8: in every plan that [check_product_tags] returns, the name of the
    target tag is the name of the template with the prefix [v] when the
    product is external and the name of the template begins with a digit,
    and the name of the template as it is in all other cases. *)
Theorem v_prefix_rule products tag_template force_tag fail_fast s plans s'
    name plan :
  check_product_tags products tag_template force_tag fail_fast s
  = (Ok plans, s') →
  (name, plan) ∈ plans →
  (rp_v (tp_product plan) = true
   ∧ begins_with_digit (tmpl_name tag_template) →
   t_name (tp_target_tag plan) = "v" ++ tmpl_name tag_template)
  ∧ (¬ (rp_v (tp_product plan) = true
        ∧ begins_with_digit (tmpl_name tag_template)) →
     t_name (tp_target_tag plan) = tmpl_name tag_template).
Proof.
  intros Hrun Hin.
  destruct (check_product_tags_plans _ _ _ _ _ _ _ _ _ Hrun Hin)
    as (data & sha & _ & _ & ->).
  cbn [plan_entry tp_product tp_target_tag target_of t_name].
  rewrite <-re_match_digit_spec.
  destruct (rp_v data), (re_match_digit _); simpl; split; try done;
    intros []; try done; by intros [].
Qed.

Lemma filter_date (d : gmap string string) :
  filter (λ kv : string * string, kv.1 ∉ ["date"]) d = delete "date" d.
Proof.
  apply map_eq. intros k. destruct (decide (k = "date")) as [->|Hne].
  - rewrite lookup_delete_eq. apply map_lookup_filter_None_2. right.
    intros x _ []. simpl. left.
  - rewrite lookup_delete_ne by done.
    destruct (d !! k) as [x|] eqn:E.
    + apply map_lookup_filter_Some_2; [done|]. simpl.
      by intros ->%list_elem_of_singleton.
    + apply map_lookup_filter_None_2. by left.
Qed.

Lemma cmp_dict_date d1 d2 :
  cmp_dict d1 d2 ["date"] = bool_decide (delete "date" d1 = delete "date" d2).
Proof. unfold cmp_dict. by rewrite !filter_date. Qed.

Lemma author_to_dict_identity a i s :
  identity_of a = Some i →
  ∃ d, author_to_dict a s = (Ok d, s) ∧ delete "date" d = i.
Proof.
  destruct a as [n e t|d|u]; simpl; [| |done]; intros [= <-].
  - eexists. split; [done|]. apply delete_id.
    rewrite !lookup_insert_ne by done. done.
  - by eexists.
Qed.

Lemma cmp_gitauthor_same a b s :
  same_tagger a b → cmp_gitauthor a b s = (Ok true, s).
Proof.
  intros (i & Ha & Hb). unfold cmp_gitauthor, bind.
  destruct (author_to_dict_identity a i s Ha) as (da & -> & Hda).
  destruct (author_to_dict_identity b i s Hb) as (db & -> & Hdb).
  unfold ret. rewrite cmp_dict_date, bool_decide_eq_true_2; [done|congruence].
Qed.

Lemma check_existing_git_tag_in_sync repo t_tag s e_ref e_tag w1 w2 :
  find_tag_by_name repo (t_name t_tag) true (hub s) = (Ok (Some e_ref), w1) →
  repo_get_git_tag repo (ref_object_sha e_ref) w1 = (Ok e_tag, w2) →
  in_sync t_tag e_tag →
  check_existing_git_tag repo t_tag s
  = (Ok true,
     State w2 (log s ++ [(DEBUG, TLookingForTag (t_name t_tag));
                         (DEBUG, TFoundExistingTag (tag_tag e_tag))])).
Proof.
  intros Hfind Hget (Hsha & Hmsg & Htagger).
  unfold check_existing_git_tag, cmp_existing_git_tag. unfold_monad.
  cbn [hub log]. rewrite Hfind. cbn [hub log]. rewrite Hget. cbn [hub log].
  rewrite Hsha, Hmsg, !String.eqb_refl.
  rewrite (cmp_gitauthor_same _ _ _ Htagger).
  by rewrite <-app_assoc.
Qed.

(** C5: a product whose repository has a tag of the target name with the
    commit, the message and the tagger (timestamp apart) of the target is
    skipped by its iteration, whatever the flags: the locals are unchanged
    (no plan, no failure), the platform has answered the two queries and
    nothing else, and a notice is written.  A planner run over that product
    returns the empty mapping, on which the applier does nothing: no
    reference is created for an unchanged target. *)
Theorem in_sync_product_is_skipped tag_template force_tag fail_fast loc name
    data sha s e_ref e_tag w1 w2 :
  rp_data data !! "sha" = Some sha →
  find_tag_by_name (rp_repo data)
    (t_name (target_of tag_template data sha)) true (hub s)
  = (Ok (Some e_ref), w1) →
  repo_get_git_tag (rp_repo data) (ref_object_sha e_ref) w1
  = (Ok e_tag, w2) →
  in_sync (target_of tag_template data sha) e_tag →
  let notices :=
    [(DEBUG, TLookingForTag (t_name (target_of tag_template data sha)));
     (DEBUG, TFoundExistingTag (tag_tag e_tag));
     (WARN, TNoAction (full_name (rp_repo data))
              (t_name (target_of tag_template data sha)))] in
  check_product_body tag_template force_tag fail_fast loc (name, data) s
  = (Ok loc, State w2 (log s ++ notices))
  ∧ check_product_tags [(name, data)] tag_template force_tag fail_fast s
    = (Ok [], State w2 (log s ++ notices))
  ∧ ∀ fail_fast' dry_run,
      tag_products [] fail_fast' dry_run (State w2 (log s ++ notices))
      = (Ok tt, State w2 (log s ++ notices)).
Proof.
  intros Hsha Hfind Hget Hsync notices.
  assert (check_product_body tag_template force_tag fail_fast loc
            (name, data) s = (Ok loc, State w2 (log s ++ notices))) as Hbody.
  { rewrite (check_product_body_unfold _ _ _ _ _ _ sha) by done. cbv zeta.
    rewrite (check_existing_git_tag_in_sync _ _ _ _ _ _ _ Hfind Hget Hsync).
    unfold say, notices. cbn [hub log]. by rewrite <-app_assoc. }
  split_and!; [done| |done].
  unfold check_product_tags. cbn [for_each]. unfold bind.
  assert (∀ loc, check_product_body tag_template force_tag fail_fast loc
            (name, data) s = (Ok loc, State w2 (log s ++ notices))) as ->; [|done].
  intros loc0. rewrite (check_product_body_unfold _ _ _ _ _ _ sha) by done.
  cbv zeta.
  rewrite (check_existing_git_tag_in_sync _ _ _ _ _ _ _ Hfind Hget Hsync).
  unfold say, notices. cbn [hub log]. by rewrite <-app_assoc.
Qed.

End Plan.

Lemma v_prefix_rule_witness :
  t_name (tp_target_tag (plan_entry Ex.release Ex.pkgA_external "abc123"))
  = "v11.0.rc2".
Proof.
  refine (proj1 (v_prefix_rule (P:=Sim.platform)
    [("pkgA", Ex.pkgA_external)] Ex.release false false Ex.h0
    [("pkgA", plan_entry Ex.release Ex.pkgA_external "abc123")]
    _ "pkgA" _ _ _) _).
  - vm_compute; reflexivity.
  - left.
  - split; [reflexivity|]. exists "1"%char, "1.0.rc2". split; [reflexivity|].
    apply list_elem_of_further, list_elem_of_here.
Defined.

Lemma in_sync_product_is_skipped_witness :
  check_product_tags (P:=Sim.platform) [("pkgA", Ex.pkgA_resolved)] Ex.weekly
    false false Ex.h1
  = (Ok [],
     State {| Sim.repos := Sim.repos Ex.hub1; Sim.budget := 98;
              Sim.eups_tags := Sim.eups_tags Ex.hub1;
              Sim.manifests := Sim.manifests Ex.hub1 |}
       [(DEBUG, TLookingForTag "w.2018.18");
        (DEBUG, TFoundExistingTag "w.2018.18");
        (WARN, TNoAction "pkgA" "w.2018.18")]).
Proof.
  refine (proj1 (proj2 (in_sync_product_is_skipped (P:=Sim.platform)
    Ex.weekly false false {| pl_checked := []; pl_problems := [] |}
    "pkgA" Ex.pkgA_resolved "abc123" Ex.h1 Ex.pkgA_ref Ex.pkgA_tag
    _ _ _ _ _ _))).
  - vm_compute; reflexivity.
  - vm_compute; reflexivity.
  - vm_compute; reflexivity.
  - split_and!; [reflexivity..|].
    exists {[ "name" := "sqre"; "email" := "sqre@example.org" ]}.
    split; vm_compute; reflexivity.
Defined.

(** ** [tag_products] *)

Section ApplyShape.
Context `{P : Platform}.

(** The iteration of a plan outside [dry_run], read off the answers of the
    platform. *)
Lemma tag_body_unfold fail_fast problems name data et s :
  rp_data (tp_product data) !! "eups_version" = Some et →
  tag_body fail_fast false problems (name, data) s
  = let t_tag := tp_target_tag data in
    let repo := rp_repo (tp_product data) in
    let s0 := say INFO (tagging_notice data et) s in
    match repo_create_git_tag repo (t_name t_tag) (t_message t_tag)
            (t_sha t_tag) "commit" (t_tagger t_tag) (hub s0) with
    | (Raise h, w1) =>
        on_tag_error fail_fast repo problems h (State w1 (log s0))
    | (Ok tag_obj, w1) =>
        let s1 := say DEBUG (TCreatedTagObject tag_obj) (State w1 (log s0)) in
        if tp_update_tag data then
          match find_tag_by_name repo (t_name t_tag) false (hub s1) with
          | (Raise h, w2) =>
              on_tag_error fail_fast repo problems h (State w2 (log s1))
          | (Ok None, w2) =>
              (Raise (AttributeError
                        "'NoneType' object has no attribute 'edit'"),
               State w2 (log s1))
          | (Ok (Some ref), w2) =>
              match ref_edit ref (tag_sha tag_obj) true w2 with
              | (Raise h, w3) =>
                  on_tag_error fail_fast repo problems h (State w3 (log s1))
              | (Ok _, w3) =>
                  (Ok problems,
                   say DEBUG (TUpdatedExistingRef ref) (State w3 (log s1)))
              end
          end
        else
          match repo_create_git_ref repo ("refs/tags/" ++ t_name t_tag)
                  (tag_sha tag_obj) (hub s1) with
          | (Raise h, w2) =>
              on_tag_error fail_fast repo problems h (State w2 (log s1))
          | (Ok ref, w2) =>
              (Ok problems, say DEBUG (TCreatedRef ref) (State w2 (log s1)))
          end
    end.
Proof.
  intros Het. unfold tag_body, on_tag_error, tagging_notice, say.
  unfold_monad. rewrite Het. cbv zeta. cbn [hub log].
  destruct (repo_create_git_tag _ _ _ _ _ _ _) as [[tag_obj|h] w1];
    cbn [hub log]; [|by destruct h, fail_fast].
  destruct (tp_update_tag data).
  - destruct (find_tag_by_name _ _ _ _) as [[[ref|]|h] w2];
      cbn [hub log]; [|done|by destruct h, fail_fast].
    destruct (ref_edit _ _ _ _) as [[[]|h] w3];
      cbn [hub log]; [done|by destruct h, fail_fast].
  - destruct (repo_create_git_ref _ _ _ _) as [[ref|h] w2];
      cbn [hub log]; [done|by destruct h, fail_fast].
Qed.

Lemma tag_body_no_version fail_fast dry_run problems name data s :
  rp_data (tp_product data) !! "eups_version" = None →
  tag_body fail_fast dry_run problems (name, data) s
  = (Raise (KeyError "eups_version"), s).
Proof. intros He. unfold tag_body, getitem. by rewrite He. Qed.

Lemma on_tag_error_cases fail_fast repo problems h (s : state world) r s' :
  on_tag_error fail_fast repo problems h s = (r, s') →
  (r = Raise (Host h) ∧ s' = s
   ∧ (h = RateLimitExceededException ∨ ∃ c, h = NonGithubError c))
  ∨ (is_tag_failure (CaughtRepositoryError repo h)
     ∧ ((fail_fast = true ∧ r = Raise (CaughtRepositoryError repo h)
         ∧ s' = s)
        ∨ (fail_fast = false
           ∧ r = Ok (problems ++ [CaughtRepositoryError repo h])%list
           ∧ s' = say ERROR (TException (CaughtRepositoryError repo h)) s))).
Proof.
  unfold on_tag_error, is_tag_failure.
  destruct h, fail_fast; intros [= <- <-]; eauto 10;
    right; (split; [by eexists _, _|]); eauto.
Qed.

(** What an iteration that does not raise has done to the problems: nothing,
    or, without fail-fast, recorded the failure of the product. *)
Lemma tag_body_ok fail_fast dry_run problems name data s problems' s' :
  tag_body fail_fast dry_run problems (name, data) s = (Ok problems', s') →
  problems' = problems
  ∨ (fail_fast = false ∧ dry_run = false
     ∧ ∃ e, is_tag_failure e ∧ problems' = (problems ++ [e])%list).
Proof.
  destruct (rp_data (tp_product data) !! "eups_version") as [et|] eqn:Het;
    [|by rewrite tag_body_no_version].
  destruct dry_run.
  { rewrite tag_body_dry_run by done. intros [= <- _]. by left. }
  rewrite (tag_body_unfold _ _ _ _ et) by done. cbv zeta.
  assert (∀ h s0, on_tag_error fail_fast (rp_repo (tp_product data))
                    problems h s0 = (Ok problems', s') →
            fail_fast = false ∧ false = false
            ∧ ∃ e, is_tag_failure e ∧ problems' = (problems ++ [e])%list)
    as Herr.
  { intros h s0 [(? & _)|(? & [(_ & ? & _)|(? & ? & _)])]%on_tag_error_cases;
      simplify_eq. eauto. }
  destruct (repo_create_git_tag _ _ _ _ _ _ _) as [[tag_obj|h] w1];
    [|intros ?%Herr; by right].
  destruct (tp_update_tag data).
  - destruct (find_tag_by_name _ _ _ _) as [[[ref|]|h] w2];
      [|done|intros ?%Herr; by right].
    destruct (ref_edit _ _ _ _) as [[[]|h] w3];
      [intros [= <- _]; by left|intros ?%Herr; by right].
  - destruct (repo_create_git_ref _ _ _ _) as [[ref|h] w2];
      [intros [= <- _]; by left|intros ?%Herr; by right].
Qed.

(** What leaves an iteration: a [KeyError], what the platform raised and
    the handlers let through, the [AttributeError] of a reference that was
    not found or, with fail-fast only, the failure of the product. *)
Lemma tag_body_raise fail_fast dry_run problems name data s e s' :
  tag_body fail_fast dry_run problems (name, data) s = (Raise e, s') →
  e = KeyError "eups_version"
  ∨ (dry_run = false
     ∧ (e = Host RateLimitExceededException
        ∨ (∃ c, e = Host (NonGithubError c))
        ∨ (∃ w, e = AttributeError w)
        ∨ (fail_fast = true ∧ is_tag_failure e))).
Proof.
  destruct (rp_data (tp_product data) !! "eups_version") as [et|] eqn:Het;
    [|rewrite tag_body_no_version by done; intros [= <- _]; by left].
  destruct dry_run; [by rewrite tag_body_dry_run|].
  rewrite (tag_body_unfold _ _ _ _ et) by done. cbv zeta.
  intros H. right. split; [done|]. revert H.
  assert (∀ h s0, on_tag_error fail_fast (rp_repo (tp_product data))
                    problems h s0 = (Raise e, s') →
            e = Host RateLimitExceededException
            ∨ (∃ c, e = Host (NonGithubError c))
            ∨ (∃ w, e = AttributeError w)
            ∨ (fail_fast = true ∧ is_tag_failure e)) as Herr.
  { intros h s0
      [(? & _ & [->|[c ->]])|(? & [(? & ? & _)|(_ & ? & _)])]%on_tag_error_cases;
      simplify_eq; eauto 6. }
  destruct (repo_create_git_tag _ _ _ _ _ _ _) as [[tag_obj|h] w1];
    [|by intros ?%Herr].
  destruct (tp_update_tag data).
  - destruct (find_tag_by_name _ _ _ _) as [[[ref|]|h] w2];
      [|intros [= <- _]; eauto 6|by intros ?%Herr].
    destruct (ref_edit _ _ _ _) as [[[]|h] w3]; [done|by intros ?%Herr].
  - destruct (repo_create_git_ref _ _ _ _) as [[ref|h] w2];
      [done|by intros ?%Herr].
Qed.

End ApplyShape.

(** ** Rate-limit errors *)

Section RateLimit.
Context `{P : Platform}.

Lemma plan_failure_not_rate_limit e : is_plan_failure e → ¬ is_rate_limit e.
Proof.
  intros [(? & ? & ->)|(? & ? & -> & _ & Hne)] [?|[[? ?]|[? ?]]];
    simplify_eq.
Qed.

Lemma tag_failure_not_rate_limit e : is_tag_failure e → ¬ is_rate_limit e.
Proof.
  intros (? & ? & -> & _ & Hne) [?|[[? ?]|[? ?]]]; simplify_eq.
Qed.

(** The problems that the planner aggregates are failures of products. *)
Lemma check_product_tags_dogpile products tag_template force_tag fail_fast
    s errors msg s' :
  check_product_tags products tag_template force_tag fail_fast s
  = (Raise (DogpileError errors msg), s') →
  ∃ loc,
    for_each (check_product_body tag_template force_tag fail_fast) products
      {| pl_checked := []; pl_problems := [] |} s = (Ok loc, s')
    ∧ errors = pl_problems loc
    ∧ ∀ e, e ∈ errors → is_plan_failure e.
Proof.
  unfold check_product_tags. unfold bind at 1.
  destruct (for_each _ _ _ s) as [[loc|x] s1] eqn:E.
  - destruct (pl_problems loc) as [|p ps] eqn:Ep; [done|].
    unfold raise. intros [= <- _ <-]. exists loc. split_and!; [done..|].
    rewrite <-Ep. clear Ep.
    refine (for_each_invariant
      (λ loc, ∀ e, e ∈ pl_problems loc → is_plan_failure e)
      _ products _ _ _ _ _ _ E).
    + intros loc0 [n d] s0 loc1 s2 _ I0 Hb e.
      apply check_product_body_ok in Hb
        as (sha & _ & [-> | [(_ & e' & He' & ->) | ->]]); [apply I0| |apply I0].
      cbn [pl_problem pl_problems].
      intros [? | ->%list_elem_of_singleton]%elem_of_app; auto.
    + by intros ? ?%elem_of_nil.
  - intros [= -> <-].
    apply for_each_raise_inv in E as (? & [??] & ? & ? & ? & _ & _ & Hb).
    apply check_product_body_raise in Hb
      as [?|[?|[[? ?]|[[? ?]|[_ [(? & ? & ?)|(? & ? & ? & _)]]]]]];
      simplify_eq.
Qed.

(** The problems that the applier aggregates are failures of products. *)
Lemma tag_products_dogpile products fail_fast dry_run s errors msg s' :
  tag_products products fail_fast dry_run s
  = (Raise (DogpileError errors msg), s') →
  for_each (tag_body fail_fast dry_run) products [] s = (Ok errors, s')
  ∧ ∀ e, e ∈ errors → is_tag_failure e.
Proof.
  unfold tag_products. unfold bind at 1.
  destruct (for_each _ _ _ s) as [[problems|x] s1] eqn:E.
  - destruct problems as [|p ps] eqn:Ep; [done|].
    unfold raise. intros [= <- _ <-]. split; [done|].
    rewrite <-Ep in E |- *. clear Ep.
    refine (for_each_invariant (λ problems, ∀ e, e ∈ problems → is_tag_failure e)
      _ products _ _ _ _ _ _ E).
    + intros ps0 [n d] s0 ps1 s2 _ I0 Hb e.
      apply tag_body_ok in Hb as [-> | (_ & _ & e' & He' & ->)]; [apply I0|].
      intros [? | ->%list_elem_of_singleton]%elem_of_app; auto.
    + by intros ? ?%elem_of_nil.
  - intros [= -> <-].
    apply for_each_raise_inv in E as (? & [??] & ? & ? & ? & _ & _ & Hb).
    apply tag_body_raise in Hb
      as [?|[_ [?|[[? ?]|[[? ?]|[_ (? & ? & ? & _)]]]]]]; simplify_eq.
Qed.

Lemma check_product_body_rate_limited tag_template force_tag fail_fast loc
    name data sha s w' :
  rp_data data !! "sha" = Some sha →
  plan_rate_limited (rp_repo data) (target_of tag_template data sha)
    (hub s) w' →
  ∃ s', check_product_body tag_template force_tag fail_fast loc
          (name, data) s = (Raise (Host RateLimitExceededException), s')
        ∧ hub s' = w'.
Proof.
  intros Hsha Hrl.
  rewrite (check_product_body_unfold _ _ _ _ _ _ sha) by done. cbv zeta.
  unfold check_existing_git_tag. unfold_monad. cbn [hub log].
  destruct Hrl as [w' Hfind|e_ref w1 w' Hfind Hget]; rewrite Hfind;
    cbn [hub log]; [by eexists|].
  rewrite Hget. by eexists.
Qed.

Lemma tag_body_rate_limited fail_fast problems name data et s w' :
  rp_data (tp_product data) !! "eups_version" = Some et →
  apply_rate_limited data (hub s) w' →
  ∃ s', tag_body fail_fast false problems (name, data) s
        = (Raise (Host RateLimitExceededException), s')
        ∧ hub s' = w'.
Proof.
  intros Het Hrl. rewrite (tag_body_unfold _ _ _ _ et) by done. cbv zeta.
  unfold say, on_tag_error. cbn [hub log].
  destruct Hrl as [w' Hc|t w1 w' Hc Hu Hf|t r w1 w2 w' Hc Hu Hf He
                  |t w1 w' Hc Hu Hr];
    unfold create_tag_of in Hc; rewrite Hc; cbn [hub log];
    [by eexists|rewrite Hu..].
  - rewrite Hf. by eexists.
  - rewrite Hf, He. by eexists.
  - rewrite Hr. by eexists.
Qed.

(** C9: in the planner and in the applier, whatever the fail-fast setting,
    a rate-limit error of the platform is never among the aggregated
    problems, bare or wrapped as the failure of a product; and when a call
    of the iteration of a product is answered with it, the stage raises it
    as it is, at once: the platform is left as that call left it and the
    products that follow are not visited. *)
Theorem rate_limit_propagates :
  (∀ products tag_template force_tag fail_fast s errors msg s',
     check_product_tags products tag_template force_tag fail_fast s
     = (Raise (DogpileError errors msg), s') →
     ∀ e, e ∈ errors → ¬ is_rate_limit e)
  ∧ (∀ pre name data post tag_template force_tag fail_fast s loc s1 sha w',
       for_each (check_product_body tag_template force_tag fail_fast) pre
         {| pl_checked := []; pl_problems := [] |} s = (Ok loc, s1) →
       rp_data data !! "sha" = Some sha →
       plan_rate_limited (rp_repo data) (target_of tag_template data sha)
         (hub s1) w' →
       ∃ s', check_product_tags (pre ++ (name, data) :: post) tag_template
               force_tag fail_fast s
             = (Raise (Host RateLimitExceededException), s')
             ∧ hub s' = w')
  ∧ (∀ products fail_fast dry_run s errors msg s',
       tag_products products fail_fast dry_run s
       = (Raise (DogpileError errors msg), s') →
       ∀ e, e ∈ errors → ¬ is_rate_limit e)
  ∧ (∀ pre name data post fail_fast s problems s1 et w',
       for_each (tag_body fail_fast false) pre [] s = (Ok problems, s1) →
       rp_data (tp_product data) !! "eups_version" = Some et →
       apply_rate_limited data (hub s1) w' →
       ∃ s', tag_products (pre ++ (name, data) :: post) fail_fast false s
             = (Raise (Host RateLimitExceededException), s')
             ∧ hub s' = w').
Proof.
  split_and!.
  - intros ???????? (loc & _ & _ & Hall)%check_product_tags_dogpile e He.
    by apply plan_failure_not_rate_limit, Hall.
  - intros pre name data post tag_template force_tag fail_fast s loc s1 sha w'
      Hpre Hsha Hrl.
    destruct (check_product_body_rate_limited tag_template force_tag fail_fast
                loc name data sha s1 w' Hsha Hrl) as (s' & Hb & Hw).
    exists s'. split; [|done]. unfold check_product_tags. unfold bind at 1.
    by rewrite (for_each_raise _ _ _ _ _ _ _ _ _ _ Hpre Hb).
  - intros ??????? [_ Hall]%tag_products_dogpile e He.
    by apply tag_failure_not_rate_limit, Hall.
  - intros pre name data post fail_fast s problems s1 et w' Hpre Het Hrl.
    destruct (tag_body_rate_limited fail_fast problems name data et s1 w'
                Het Hrl) as (s' & Hb & Hw).
    exists s'. split; [|done]. unfold tag_products. unfold bind at 1.
    by rewrite (for_each_raise _ _ _ _ _ _ _ _ _ _ Hpre Hb).
Qed.

End RateLimit.

Lemma rate_limit_propagates_witness :
  (∃ s', check_product_tags (P:=Sim.platform) [("pkgA", Ex.pkgA_resolved)]
           Ex.weekly false false (State Ex.hub_limited [])
         = (Raise (Host RateLimitExceededException), s')
         ∧ hub s' = Ex.hub_limited)
  ∧ (∃ s', tag_products (P:=Sim.platform) [("pkgA", Ex.pkgA_plan)] false false
             (State Ex.hub_limited [])
           = (Raise (Host RateLimitExceededException), s')
           ∧ hub s' = Ex.hub_limited).
Proof.
  split.
  - refine (proj1 (proj2 (rate_limit_propagates (P:=Sim.platform)))
      [] "pkgA" Ex.pkgA_resolved [] Ex.weekly false false
      (State Ex.hub_limited []) _ _ "abc123" Ex.hub_limited _ _ _).
    + reflexivity.
    + vm_compute; reflexivity.
    + apply rl_find_tag. vm_compute; reflexivity.
  - refine (proj2 (proj2 (proj2 (rate_limit_propagates (P:=Sim.platform))))
      [] "pkgA" Ex.pkgA_plan [] false
      (State Ex.hub_limited []) _ _ "w_2018_18" Ex.hub_limited _ _ _).
    + reflexivity.
    + vm_compute; reflexivity.
    + apply rl_create_git_tag. vm_compute; reflexivity.
Defined.

(** ** [get_repo_for_products] *)

Section Resolve.
Context `{P : Platform}.

Lemma check_repo_teams_verdict repo allow_teams deny_teams team_names
    (s : state world) :
  check_repo_teams repo allow_teams deny_teams team_names s
  = match team_verdict allow_teams deny_teams team_names with
    | Some why => (Raise (RepositoryTeamMembershipError repo why), s)
    | None => (Ok tt, s)
    end.
Proof.
  unfold check_repo_teams, team_verdict.
  destruct (negb _); [done|]. destruct deny_teams as [deny|]; [|done].
  by destruct (any_in deny team_names).
Qed.

(** The iteration, read off the answers of the platform. *)
Lemma get_repo_body_unfold org allow_teams ext_teams deny_teams fail_fast
    loc name data ver s :
  data !! "eups_version" = Some ver →
  get_repo_body org allow_teams ext_teams deny_teams fail_fast loc
    (name, data) s
  = let s0 := say DEBUG (TLookingForRepo name ver) s in
    match org_get_repo org name (hub s0) with
    | (Raise UnknownObjectException, w1) =>
        let yikes := CaughtUnknownObjectError name UnknownObjectException in
        if fail_fast then (Raise yikes, State w1 (log s0))
        else (Ok (rs_problem yikes loc),
              say ERROR (TException yikes) (State w1 (log s0)))
    | (Raise h, w1) => (Raise (Host h), State w1 (log s0))
    | (Ok repo, w1) =>
        let s1 := say DEBUG (TFound (full_name repo)) (State w1 (log s0)) in
        match repo_get_teams repo (hub s1) with
        | (Raise h, w2) => (Raise (Host h), State w2 (log s1))
        | (Ok team_names, w2) =>
            let s2 := say DEBUG (TTeams team_names) (State w2 (log s1)) in
            match team_verdict allow_teams deny_teams team_names with
            | Some why =>
                let e := RepositoryTeamMembershipError repo why in
                if fail_fast then (Raise e, s2)
                else (Ok (rs_problem e loc), say ERROR (TException e) s2)
            | None =>
                match ext_teams with
                | Some ext =>
                    let v := any_in ext team_names in
                    (Ok (rs_resolve name data repo v loc),
                     say DEBUG (TExternalRepo v) s2)
                | None =>
                    (Raise (TypeError "'NoneType' object is not iterable"),
                     s2)
                end
            end
        end
    end.
Proof.
  intros Hver. unfold get_repo_body, rs_resolve, any_in_opt, say.
  unfold getitem. rewrite Hver. unfold bind at 1. unfold ret at 1.
  unfold bind at 1. unfold debug at 1, emit at 1. cbv zeta.
  unfold bind at 1. unfold try_except at 1. unfold bind at 1.
  unfold call at 1. cbn [hub log].
  destruct (org_get_repo org name (hub s)) as [[repo|h] w1]; cbn [hub log].
  - unfold ret at 1. unfold_monad. cbn [hub log].
    destruct (repo_get_teams repo w1) as [[team_names|h] w2];
      cbn [hub log]; [|done].
    pose proof (check_repo_teams_verdict repo allow_teams deny_teams
                  team_names) as Hv. unfold_monad. rewrite Hv. clear Hv.
    destruct (team_verdict _ _ _) as [why|]; cbn [hub log].
    + by destruct fail_fast.
    + by destruct ext_teams.
  - unfold_monad. by destruct h, fail_fast.
Qed.

Lemma get_repo_body_no_version org allow_teams ext_teams deny_teams
    fail_fast loc name data s :
  data !! "eups_version" = None →
  get_repo_body org allow_teams ext_teams deny_teams fail_fast loc
    (name, data) s = (Raise (KeyError "eups_version"), s).
Proof. intros He. unfold get_repo_body, getitem. by rewrite He. Qed.

Lemma str_in_spec x l : str_in x l = true ↔ x ∈ l.
Proof.
  unfold str_in. rewrite existsb_exists. split.
  - intros (y & Hin & ->%String.eqb_eq). by apply list_elem_of_In.
  - intros Hin. exists x. split; [by apply list_elem_of_In|apply String.eqb_refl].
Qed.

Lemma any_in_spec xs names : any_in xs names = true ↔ intersects xs names.
Proof.
  unfold any_in, intersects. rewrite existsb_exists. split.
  - intros (x & Hin & Hx%str_in_spec). exists x. by rewrite list_elem_of_In.
  - intros (x & Hin & Hx). exists x. by rewrite <-list_elem_of_In, str_in_spec.
Qed.

(** With an external-team set, a product that passes the policy is
    resolved, and marked external exactly when the teams of its repository
    meet the set. *)
Lemma get_repo_body_external org allow_teams ext deny_teams fail_fast loc
    name data ver s repo team_names w1 w2 :
  data !! "eups_version" = Some ver →
  org_get_repo org name (hub s) = (Ok repo, w1) →
  repo_get_teams repo w1 = (Ok team_names, w2) →
  team_verdict allow_teams deny_teams team_names = None →
  ∃ v s',
    get_repo_body org allow_teams (Some ext) deny_teams fail_fast loc
      (name, data) s = (Ok (rs_resolve name data repo v loc), s')
    ∧ hub s' = w2
    ∧ (v = true ↔ intersects ext team_names).
Proof.
  intros Hver Hrepo Hteams Hpass.
  rewrite (get_repo_body_unfold _ _ _ _ _ _ _ _ ver) by done. cbv zeta.
  cbn [say hub log]. rewrite Hrepo. cbn [hub log]. rewrite Hteams, Hpass.
  eexists _, _. split_and!; [done..|apply any_in_spec].
Qed.

(** Without one, [ext_teams] is [None] and the same product stops the
    stage with a [TypeError]. *)
Lemma get_repo_body_no_external_teams org allow_teams deny_teams fail_fast
    loc name data ver s repo team_names w1 w2 :
  data !! "eups_version" = Some ver →
  org_get_repo org name (hub s) = (Ok repo, w1) →
  repo_get_teams repo w1 = (Ok team_names, w2) →
  team_verdict allow_teams deny_teams team_names = None →
  ∃ s',
    get_repo_body org allow_teams None deny_teams fail_fast loc
      (name, data) s
    = (Raise (TypeError "'NoneType' object is not iterable"), s').
Proof.
  intros Hver Hrepo Hteams Hpass.
  rewrite (get_repo_body_unfold _ _ _ _ _ _ _ _ ver) by done. cbv zeta.
  cbn [say hub log]. rewrite Hrepo. cbn [hub log]. rewrite Hteams, Hpass.
  by eexists.
Qed.

(** What an iteration that does not raise has done: recorded a failure, or
    resolved the product. *)
Lemma get_repo_body_ok org allow_teams ext_teams deny_teams fail_fast loc
    name data s loc' s' :
  get_repo_body org allow_teams ext_teams deny_teams fail_fast loc
    (name, data) s = (Ok loc', s') →
  (fail_fast = false ∧ ∃ e, is_resolve_failure e ∧ loc' = rs_problem e loc)
  ∨ (∃ repo v, loc' = rs_resolve name data repo v loc).
Proof.
  destruct (data !! "eups_version") as [ver|] eqn:Hver;
    [|by rewrite get_repo_body_no_version].
  rewrite (get_repo_body_unfold _ _ _ _ _ _ _ _ ver) by done. cbv zeta.
  unfold is_resolve_failure.
  destruct (org_get_repo _ _ _) as [[repo|h] w1].
  - destruct (repo_get_teams _ _) as [[team_names|h] w2]; [|done].
    destruct (team_verdict _ _ _) as [why|].
    + destruct fail_fast; [done|]. intros [= <- _]. left. eauto 8.
    + destruct ext_teams; [|done]. intros [= <- _]. right. eauto.
  - destruct h; try done. destruct fail_fast; [done|].
    intros [= <- _]. left. eauto 8.
Qed.

(** What leaves an iteration: a [KeyError], what the platform raised, the
    [TypeError] of an absent external-team set or, with fail-fast only,
    the failure of the product. *)
Lemma get_repo_body_raise org allow_teams ext_teams deny_teams fail_fast loc
    name data s e s' :
  get_repo_body org allow_teams ext_teams deny_teams fail_fast loc
    (name, data) s = (Raise e, s') →
  e = KeyError "eups_version"
  ∨ (∃ h, e = Host h)
  ∨ (∃ w, e = TypeError w)
  ∨ (fail_fast = true ∧ is_resolve_failure e).
Proof.
  destruct (data !! "eups_version") as [ver|] eqn:Hver;
    [|rewrite get_repo_body_no_version by done; intros [= <- _]; by left].
  rewrite (get_repo_body_unfold _ _ _ _ _ _ _ _ ver) by done. cbv zeta.
  unfold is_resolve_failure.
  destruct (org_get_repo _ _ _) as [[repo|h] w1].
  - destruct (repo_get_teams _ _) as [[team_names|h] w2];
      [|intros [= <- _]; eauto].
    destruct (team_verdict _ _ _) as [why|].
    + destruct fail_fast; [|done]. intros [= <- _]. do 3 right. eauto 8.
    + destruct ext_teams; [done|]. intros [= <- _]. eauto.
  - destruct h; try (intros [= <- _]; eauto; fail).
    destruct fail_fast; [|done]. intros [= <- _]. do 3 right. eauto 8.
Qed.

(** The problems that the resolver aggregates are failures of products,
    and it aggregates them after its loop has completed. *)
Lemma get_repo_for_products_dogpile org products allow_teams ext_teams
    deny_teams fail_fast s errors msg s' :
  get_repo_for_products org products allow_teams ext_teams deny_teams
    fail_fast s = (Raise (DogpileError errors msg), s') →
  ∃ loc,
    for_each (get_repo_body org allow_teams ext_teams deny_teams fail_fast)
      products {| rs_resolved := []; rs_problems := [] |}
      (say DEBUG (TDeniedTeams deny_teams)
         (say DEBUG (TExternalTeams ext_teams)
            (say DEBUG (TAllowedTeams allow_teams) s)))
    = (Ok loc, s')
    ∧ errors = rs_problems loc
    ∧ ∀ e, e ∈ errors → is_resolve_failure e.
Proof.
  unfold get_repo_for_products.
  unfold bind at 1, debug at 1, emit at 1.
  unfold bind at 1, debug at 1, emit at 1.
  unfold bind at 1, debug at 1, emit at 1. cbn [hub log].
  unfold bind at 1. unfold say. cbn [hub log].
  destruct (for_each _ _ _ _) as [[loc|x] s1] eqn:E.
  - destruct (rs_problems loc) as [|p ps] eqn:Ep; [done|].
    unfold raise. intros [= <- _ <-]. exists loc. split_and!; [done..|].
    rewrite <-Ep. clear Ep.
    refine (for_each_invariant
      (λ loc, ∀ e, e ∈ rs_problems loc → is_resolve_failure e)
      _ products _ _ _ _ _ _ E).
    + intros loc0 [n d] s0 loc1 s2 _ I0 Hb e.
      apply get_repo_body_ok in Hb
        as [(_ & e' & He' & ->) | (repo & v & ->)]; [|apply I0].
      cbn [rs_problem rs_problems].
      intros [? | ->%list_elem_of_singleton]%elem_of_app; auto.
    + by intros ? ?%elem_of_nil.
  - intros [= -> <-].
    apply for_each_raise_inv in E as (? & [??] & ? & ? & ? & _ & _ & Hb).
    apply get_repo_body_raise in Hb
      as [?|[[? ?]|[[? ?]|[_ [[? ?]|(? & ? & ?)]]]]]; simplify_eq.
Qed.

End Resolve.

(** C4 (the code departs from the claim): the resolver is given no
    external-team set, as [run] gives it when [--external-team] is absent
    from the command line.  [pkgA] is found and passes the policy; instead of
    being marked as not external it stops the stage with a [TypeError]. *)
Theorem resolver_without_external_teams :
  fst (get_repo_for_products (P:=Sim.platform) "lsst"
         [("pkgA", Ex.pkgA_manifest)] ["Data Management"] None None false
         Ex.h0)
  = Raise (TypeError "'NoneType' object is not iterable").
Proof. vm_compute. reflexivity. Qed.

(** With the set given, be it empty, the same product is resolved. *)
Lemma resolver_with_external_teams :
  fst (get_repo_for_products (P:=Sim.platform) "lsst"
         [("pkgA", Ex.pkgA_manifest)] ["Data Management"] (Some []) None false
         Ex.h0)
  = Ok [("pkgA", Ex.pkgA_resolved)].
Proof. vm_compute. reflexivity. Qed.


(** ** Forced moves *)

(** No plan of the planner asks for an update: [update_tag] is set to
    [False] in every iteration and never assigned again. *)
Lemma planner_never_asks_update `{P : Platform} products tag_template
    force_tag fail_fast s plans s' name plan :
  check_product_tags products tag_template force_tag fail_fast s
  = (Ok plans, s') →
  (name, plan) ∈ plans →
  tp_update_tag plan = false.
Proof.
  intros Hrun Hin.
  by destruct (check_product_tags_plans _ _ _ _ _ _ _ _ _ Hrun Hin)
    as (data & sha & _ & _ & ->).
Qed.

(** C1 (the code departs from the claim): [pkgA] carries the tag
    [w.2018.18] on the commit [abc123], the manifest pins [def456], and
    [force_tag] is set.  The planner warns that the tag will be moved, but
    its plan has [update_tag] false; the applier then asks the platform to
    create the reference [refs/tags/w.2018.18], which exists: the request
    is refused, the failure is aggregated and the reference stays where it
    was. *)
Theorem force_tag_does_not_update :
  let plans := [("pkgA", plan_entry Ex.weekly Ex.pkgA_moved "def456")] in
  let planned :=
    check_product_tags (P:=Sim.platform) [("pkgA", Ex.pkgA_moved)] Ex.weekly
      true false Ex.h1 in
  let applied :=
    tag_products (P:=Sim.platform) plans false false (snd planned) in
  fst planned = Ok plans
  ∧ tp_update_tag (plan_entry Ex.weekly Ex.pkgA_moved "def456") = false
  ∧ last (log (snd planned)) = Some (WARN, TWillBeMoved "w.2018.18")
  ∧ fst applied
    = Raise (DogpileError
               [CaughtRepositoryError Ex.pkgA_repo (GithubException 422)]
               (TagFailures 1))
  ∧ Sim.refs <$> dict_get "pkgA" (Sim.repos (hub (snd applied)))
    = Some [("w.2018.18", "tag:w.2018.18@abc123")].
Proof. vm_compute. by repeat split. Qed.

(** ** The reach of fail-fast *)

Section FailFast.
Context `{P : Platform}.














Lemma set_fail_fast_id args : set_fail_fast (a_fail_fast args) args = args.
Proof. by destruct args. Qed.





End FailFast.



(** The same run without [--fail-fast]: the failure of [pkgA] is recorded,
    [pkgB] is tagged, and the run ends with the aggregated error. *)
Lemma forced_run_without_fail_fast :
  let r := run (P:=Sim.platform) (set_fail_fast false Ex.forced_args)
             "sqre" "sqre@example.org" "2018-05-01T00:00:00Z"
             (State Ex.hub_moved []) in
  fst r
  = Raise (DogpileError
             [CaughtRepositoryError Ex.pkgA_repo (GithubException 422)]
             (TagFailures 1))
  ∧ Sim.refs <$> dict_get "pkgB" (Sim.repos (hub (snd r)))
    = Some [("w.2018.18", "tag:w.2018.18@bbb222")].
Proof. vm_compute. by split. Qed.

(** ** The scenarios of the specification *)

(** [pkgA] at [w_2018_18] in both sources, pinned to [abc123], and not
    tagged yet: the run creates the tag object on [abc123] and the reference
    [w.2018.18] that points at it. *)
Lemma scenario_new_tag :
  let r := run (P:=Sim.platform) (set_fail_fast false Ex.weekly_args)
             "sqre" "sqre@example.org" "2018-04-30T12:00:00Z" Ex.h0 in
  fst r = Ok tt
  ∧ Sim.refs <$> dict_get "pkgA" (Sim.repos (hub (snd r)))
    = Some [("w.2018.18", "tag:w.2018.18@abc123")]
  ∧ Sim.tags <$> dict_get "pkgA" (Sim.repos (hub (snd r)))
    = Some [("tag:w.2018.18@abc123", Ex.pkgA_tag)].
Proof. vm_compute. by repeat split. Qed.

(** The same run once more, at a later time: the tag is in sync, the
    planner reports no action and neither references nor tag objects
    change. *)
Lemma scenario_second_run :
  let r := run (P:=Sim.platform) (set_fail_fast false Ex.weekly_args)
             "sqre" "sqre@example.org" "2018-05-01T00:00:00Z" Ex.h1 in
  fst r = Ok tt
  ∧ last (log (snd r)) = Some (WARN, TNoAction "pkgA" "w.2018.18")
  ∧ Sim.repos (hub (snd r)) = Sim.repos Ex.hub1.
Proof. vm_compute. by repeat split. Qed.

(** * More of the tool *)

(** ** Comparisons *)

Lemma lookup_filter_ignore (d : gmap string string)
    (ignore_keys : list string) (k : string) :
  filter (λ kv : string * string, kv.1 ∉ ignore_keys) d !! k
  = if decide (k ∈ ignore_keys) then None else d !! k.
Proof.
  destruct (decide (k ∈ ignore_keys)) as [Hin|Hnin].
  - apply map_lookup_filter_None_2. right. intros x _ Hn. by apply Hn.
  - destruct (d !! k) as [x|] eqn:E.
    + by apply map_lookup_filter_Some_2.
    + apply map_lookup_filter_None_2. by left.
Qed.

(** [cmp_dict] holds exactly when the two dicts agree on every key that is
    not ignored: present in both with the same value, or absent from
    both. *)
Theorem cmp_dict_spec d1 d2 ignore_keys :
  cmp_dict d1 d2 ignore_keys = true
  ↔ ∀ k, k ∉ ignore_keys → d1 !! k = d2 !! k.
Proof.
  unfold cmp_dict. rewrite bool_decide_eq_true. split.
  - intros Heq k Hk. apply (f_equal (.!! k)) in Heq.
    rewrite !lookup_filter_ignore in Heq. by rewrite !decide_False in Heq.
  - intros Hall. apply map_eq. intros k. rewrite !lookup_filter_ignore.
    destruct (decide (k ∈ ignore_keys)); auto.
Qed.

Section Comparisons.
Context `{P : Platform}.

(** [cmp_gitauthor] on two taggers compares their identities, the
    timestamps left out; an object of another type makes it raise the
    [RuntimeError] that names the type, the first argument first. *)
Theorem cmp_gitauthor_spec a b s :
  (∀ i j, identity_of a = Some i → identity_of b = Some j →
     cmp_gitauthor a b s = (Ok (bool_decide (i = j)), s))
  ∧ (∀ t, a = OtherObject t →
       cmp_gitauthor a b s = (Raise (RuntimeError (UnsupportedType t)), s))
  ∧ (∀ i t, identity_of a = Some i → b = OtherObject t →
       cmp_gitauthor a b s = (Raise (RuntimeError (UnsupportedType t)), s)).
Proof.
  split_and!.
  - intros i j Ha Hb. unfold cmp_gitauthor, bind.
    destruct (author_to_dict_identity a i s Ha) as (da & -> & Hda).
    destruct (author_to_dict_identity b j s Hb) as (db & -> & Hdb).
    unfold ret. rewrite cmp_dict_date. by subst.
  - by intros t ->.
  - intros i t Ha ->. unfold cmp_gitauthor, bind.
    by destruct (author_to_dict_identity a i s Ha) as (da & -> & Hda).
Qed.

(** When the commit or the message differ, [cmp_existing_git_tag] answers
    [False] without looking at the taggers: an object that is no tagger does
    not make it raise. *)
Theorem cmp_existing_git_tag_short_circuit t_tag e_tag s :
  t_sha t_tag ≠ tag_object_sha e_tag
  ∨ t_message t_tag ≠ tag_message e_tag →
  cmp_existing_git_tag t_tag e_tag s = (Ok false, s).
Proof.
  unfold cmp_existing_git_tag.
  destruct (String.eqb_spec (t_sha t_tag) (tag_object_sha e_tag));
    [|done].
  destruct (String.eqb_spec (t_message t_tag) (tag_message e_tag));
    [|done].
  by intros [|].
Qed.

End Comparisons.

Lemma cmp_existing_git_tag_short_circuit_witness :
  cmp_existing_git_tag (P:=Sim.platform)
    {| t_name := "w.2018.18"; t_message := "m";
       t_tagger := OtherObject "NoneType"; t_sha := "def456" |}
    Ex.pkgA_tag Ex.h0
  = (Ok false, Ex.h0).
Proof.
  apply (cmp_existing_git_tag_short_circuit (P:=Sim.platform)).
  left. simpl. discriminate.
Defined.

(** ** The planner, case by case *)

Section PlanCases.
Context `{P : Platform}.

Lemma check_existing_git_tag_absent repo t_tag s w1 :
  find_tag_by_name repo (t_name t_tag) true (hub s) = (Ok None, w1) →
  check_existing_git_tag repo t_tag s
  = (Ok false,
     say DEBUG (TTagNotFound (t_name t_tag))
       (State w1 (log s ++ [(DEBUG, TLookingForTag (t_name t_tag))]))).
Proof.
  intros Hfind. unfold check_existing_git_tag, say. unfold_monad.
  cbn [hub log]. by rewrite Hfind.
Qed.

Lemma cmp_existing_git_tag_conflict t_tag e_tag s :
  conflicts t_tag e_tag → cmp_existing_git_tag t_tag e_tag s = (Ok false, s).
Proof.
  intros Hc. unfold cmp_existing_git_tag.
  destruct (String.eqb_spec (t_sha t_tag) (tag_object_sha e_tag)) as [Hs|];
    [|done].
  destruct (String.eqb_spec (t_message t_tag) (tag_message e_tag)) as [Hm|];
    [|done].
  destruct Hc as [?|[?|(i & j & Hi & Hj & Hne)]]; [congruence..|].
  rewrite (proj1 (cmp_gitauthor_spec _ _ s) i j Hi Hj).
  by rewrite bool_decide_eq_false_2.
Qed.

Lemma check_existing_git_tag_conflict repo t_tag s e_ref e_tag w1 w2 :
  find_tag_by_name repo (t_name t_tag) true (hub s) = (Ok (Some e_ref), w1) →
  repo_get_git_tag repo (ref_object_sha e_ref) w1 = (Ok e_tag, w2) →
  conflicts t_tag e_tag →
  check_existing_git_tag repo t_tag s
  = (Raise (GitTagExistsError (tag_tag e_tag) (tag_sha e_tag)),
     say WARN (TConflictingValues t_tag e_tag)
       (State w2 (log s ++ [(DEBUG, TLookingForTag (t_name t_tag));
                            (DEBUG, TFoundExistingTag (tag_tag e_tag))]))).
Proof.
  intros Hfind Hget Hc. unfold check_existing_git_tag, say. unfold_monad.
  cbn [hub log]. rewrite Hfind. cbn [hub log]. rewrite Hget. cbn [hub log].
  rewrite (cmp_existing_git_tag_conflict _ _ _ Hc). cbn [hub log].
  by rewrite <-!app_assoc.
Qed.

Lemma check_existing_git_tag_fails repo t_tag h s w' :
  plan_query_fails repo t_tag h (hub s) w' →
  ∃ s', check_existing_git_tag repo t_tag s = (Raise (Host h), s')
        ∧ hub s' = w'.
Proof.
  intros Hq. unfold check_existing_git_tag. unfold_monad. cbn [hub log].
  destruct Hq as [w' Hfind|e_ref w1 w' Hfind Hget]; rewrite Hfind;
    cbn [hub log]; [by eexists|].
  rewrite Hget. by eexists.
Qed.

(** A product whose repository has no reference of the target name is
    planned as a new tag: the plan carries the product as it came, the sha
    of its record and [update_tag] false; no problem is recorded and the
    platform has answered one query. *)
Theorem planner_plans_new_tag tag_template force_tag fail_fast loc name data
    sha s w1 :
  rp_data data !! "sha" = Some sha →
  find_tag_by_name (rp_repo data) (t_name (target_of tag_template data sha))
    true (hub s) = (Ok None, w1) →
  let s' :=
    say DEBUG (TTagNotFound (t_name (target_of tag_template data sha)))
      (State w1
         (log s ++ [(DEBUG, TLookingForTag
                              (t_name (target_of tag_template data sha)))]))
  in
  check_product_body tag_template force_tag fail_fast loc (name, data) s
  = (Ok (pl_plan name (plan_entry tag_template data sha) loc), s')
  ∧ check_product_tags [(name, data)] tag_template force_tag fail_fast s
    = (Ok [(name, plan_entry tag_template data sha)], s').
Proof.
  intros Hsha Hfind s'.
  assert (∀ loc, check_product_body tag_template force_tag fail_fast loc
                   (name, data) s
                 = (Ok (pl_plan name (plan_entry tag_template data sha) loc),
                    s')) as Hbody.
  { intros loc0. rewrite (check_product_body_unfold _ _ _ _ _ _ sha) by done.
    cbv zeta. by rewrite (check_existing_git_tag_absent _ _ _ _ Hfind). }
  split; [apply Hbody|].
  unfold check_product_tags. cbn [for_each]. unfold bind. by rewrite Hbody.
Qed.

(** A product whose repository has a conflicting tag of the target name.
    The conflict is written to the log as a warning in every case.  With
    [force_tag] the product is planned, with a second warning; without it
    the [GitTagExistsError], which names the existing tag and the sha of
    its tag object, is raised under fail-fast and recorded otherwise, and
    the product is not planned. *)
Theorem planner_on_conflict tag_template loc name data sha s e_ref e_tag
    w1 w2 :
  rp_data data !! "sha" = Some sha →
  find_tag_by_name (rp_repo data) (t_name (target_of tag_template data sha))
    true (hub s) = (Ok (Some e_ref), w1) →
  repo_get_git_tag (rp_repo data) (ref_object_sha e_ref) w1
  = (Ok e_tag, w2) →
  conflicts (target_of tag_template data sha) e_tag →
  let t_tag := target_of tag_template data sha in
  let e := GitTagExistsError (tag_tag e_tag) (tag_sha e_tag) in
  let s1 :=
    say WARN (TConflictingValues t_tag e_tag)
      (State w2 (log s ++ [(DEBUG, TLookingForTag (t_name t_tag));
                           (DEBUG, TFoundExistingTag (tag_tag e_tag))])) in
  (∀ fail_fast,
     check_product_body tag_template true fail_fast loc (name, data) s
     = (Ok (pl_plan name (plan_entry tag_template data sha) loc),
        say WARN (TWillBeMoved (t_name t_tag)) s1))
  ∧ check_product_body tag_template false true loc (name, data) s
    = (Raise e, s1)
  ∧ check_product_body tag_template false false loc (name, data) s
    = (Ok (pl_problem e loc), say ERROR (TException e) s1).
Proof.
  intros Hsha Hfind Hget Hc t_tag e s1.
  split_and!; [intros fail_fast|..];
    rewrite (check_product_body_unfold _ _ _ _ _ _ sha) by done; cbv zeta;
    by rewrite (check_existing_git_tag_conflict _ _ _ _ _ _ _ Hfind Hget Hc).
Qed.

(** A query of the planner that the platform answers with an error.  An
    error of the GitHub hierarchy other than the rate limit is the failure
    of the product, wrapped with its repository: raised under fail-fast,
    recorded otherwise, the product not planned.  An error outside the
    hierarchy leaves the stage as it is, in both modes. *)
Theorem planner_on_query_error tag_template force_tag loc name data sha s
    h w' :
  rp_data data !! "sha" = Some sha →
  plan_query_fails (rp_repo data) (target_of tag_template data sha) h
    (hub s) w' →
  (is_GithubException h = true → h ≠ RateLimitExceededException →
   let yikes := CaughtRepositoryError (rp_repo data) h in
   (∃ s', check_product_body tag_template force_tag true loc (name, data) s
          = (Raise yikes, s') ∧ hub s' = w')
   ∧ (∃ s', check_product_body tag_template force_tag false loc
              (name, data) s
            = (Ok (pl_problem yikes loc), say ERROR (TException yikes) s')
            ∧ hub s' = w'))
  ∧ (is_GithubException h = false →
     ∀ fail_fast,
       ∃ s', check_product_body tag_template force_tag fail_fast loc
               (name, data) s = (Raise (Host h), s') ∧ hub s' = w').
Proof.
  intros Hsha Hq.
  destruct (check_existing_git_tag_fails _ _ _ _ _ Hq) as (s' & Hc & Hw).
  split.
  - intros Hgh Hrl yikes.
    split; exists s'; (split; [|done]);
      rewrite (check_product_body_unfold _ _ _ _ _ _ sha) by done; cbv zeta;
      rewrite Hc; by destruct h.
  - intros Hgh fail_fast. exists s'. split; [|done].
    rewrite (check_product_body_unfold _ _ _ _ _ _ sha) by done. cbv zeta.
    rewrite Hc. by destruct h.
Qed.

(** Every plan that the planner returns was built for a product of its
    input of the same name: it carries the record, the repository and the
    flag of that product unchanged, the sha of its record, and the message
    and the tagger of the template. *)
Theorem plans_come_from_products products tag_template force_tag fail_fast s
    plans s' name plan :
  check_product_tags products tag_template force_tag fail_fast s
  = (Ok plans, s') →
  (name, plan) ∈ plans →
  (name, tp_product plan) ∈ products
  ∧ rp_data (tp_product plan) !! "sha" = Some (t_sha (tp_target_tag plan))
  ∧ t_message (tp_target_tag plan) = tmpl_message tag_template
  ∧ t_tagger (tp_target_tag plan) = tmpl_tagger tag_template.
Proof.
  intros Hrun Hin.
  by destruct (check_product_tags_plans _ _ _ _ _ _ _ _ _ Hrun Hin)
    as (data & sha & ? & ? & ->).
Qed.

End PlanCases.

Lemma planner_plans_new_tag_witness :
  ∃ s', check_product_tags (P:=Sim.platform) [("pkgA", Ex.pkgA_resolved)]
          Ex.weekly false false Ex.h0
        = (Ok [("pkgA", Ex.pkgA_plan)], s').
Proof.
  eexists.
  refine (proj2 (planner_plans_new_tag (P:=Sim.platform) Ex.weekly false false
    {| pl_checked := []; pl_problems := [] |} "pkgA" Ex.pkgA_resolved
    "abc123" Ex.h0 _ _ _)).
  - vm_compute; reflexivity.
  - vm_compute; reflexivity.
Defined.

Lemma planner_on_conflict_witness :
  ∃ s', check_product_body (P:=Sim.platform) Ex.weekly false true
          {| pl_checked := []; pl_problems := [] |} ("pkgA", Ex.pkgA_moved)
          Ex.h1
        = (Raise (GitTagExistsError "w.2018.18" "tag:w.2018.18@abc123"), s').
Proof.
  eexists.
  refine (proj1 (proj2 (planner_on_conflict (P:=Sim.platform) Ex.weekly
    {| pl_checked := []; pl_problems := [] |} "pkgA" Ex.pkgA_moved
    "def456" Ex.h1 Ex.pkgA_ref Ex.pkgA_tag _ _ _ _ _ _))).
  - vm_compute; reflexivity.
  - vm_compute; reflexivity.
  - vm_compute; reflexivity.
  - left. simpl. discriminate.
Defined.

Lemma planner_on_query_error_witness :
  ∃ s', check_product_body (P:=Sim.platform) Ex.weekly false true
          {| pl_checked := []; pl_problems := [] |}
          ("ghost", tp_product Ex.ghost_plan) Ex.h0
        = (Raise (CaughtRepositoryError {| full_name := "ghost" |}
                    UnknownObjectException), s')
        ∧ hub s'
          = {| Sim.repos := Sim.repos Ex.hub0; Sim.budget := 99;
               Sim.eups_tags := Sim.eups_tags Ex.hub0;
               Sim.manifests := Sim.manifests Ex.hub0 |}.
Proof.
  refine (proj1 (proj1 (planner_on_query_error (P:=Sim.platform) Ex.weekly
    false {| pl_checked := []; pl_problems := [] |} "ghost"
    (tp_product Ex.ghost_plan) "abc123" Ex.h0 UnknownObjectException _ _ _)
    _ _)).
  - vm_compute; reflexivity.
  - apply fails_find_tag. vm_compute; reflexivity.
  - reflexivity.
  - discriminate.
Defined.

Lemma plans_come_from_products_witness :
  ("pkgA", tp_product Ex.pkgA_plan) ∈ [("pkgA", Ex.pkgA_resolved)]
  ∧ rp_data (tp_product Ex.pkgA_plan) !! "sha"
    = Some (t_sha (tp_target_tag Ex.pkgA_plan))
  ∧ t_message (tp_target_tag Ex.pkgA_plan) = tmpl_message Ex.weekly
  ∧ t_tagger (tp_target_tag Ex.pkgA_plan) = tmpl_tagger Ex.weekly.
Proof.
  refine (plans_come_from_products (P:=Sim.platform)
    [("pkgA", Ex.pkgA_resolved)] Ex.weekly false false Ex.h0
    [("pkgA", Ex.pkgA_plan)] _ "pkgA" Ex.pkgA_plan _ _).
  - vm_compute; reflexivity.
  - left.
Defined.

Lemma planner_never_asks_update_witness :
  tp_update_tag (plan_entry Ex.weekly Ex.pkgA_moved "def456") = false.
Proof.
  refine (planner_never_asks_update (P:=Sim.platform)
    [("pkgA", Ex.pkgA_moved)] Ex.weekly true false Ex.h1
    [("pkgA", plan_entry Ex.weekly Ex.pkgA_moved "def456")] _ "pkgA" _ _ _).
  - vm_compute; reflexivity.
  - left.
Defined.

(** ** The resolver, case by case *)

Section ResolveCases.
Context `{P : Platform}.

(** What an iteration that resolves a product has seen. *)
Lemma get_repo_body_resolved org allow_teams ext_teams deny_teams fail_fast
    loc name data s loc' s' :
  get_repo_body org allow_teams ext_teams deny_teams fail_fast loc
    (name, data) s = (Ok loc', s') →
  (∃ e, loc' = rs_problem e loc)
  ∨ (∃ ext repo team_names w0 w1 w2,
       ext_teams = Some ext
       ∧ org_get_repo org name w0 = (Ok repo, w1)
       ∧ repo_get_teams repo w1 = (Ok team_names, w2)
       ∧ loc' = rs_resolve name data repo (any_in ext team_names) loc).
Proof.
  destruct (data !! "eups_version") as [ver|] eqn:Hver;
    [|by rewrite get_repo_body_no_version].
  rewrite (get_repo_body_unfold _ _ _ _ _ _ _ _ ver) by done. cbv zeta.
  destruct (org_get_repo _ _ _) as [[repo|h] w1] eqn:Hrepo.
  - destruct (repo_get_teams _ _) as [[team_names|h] w2] eqn:Hteams; [|done].
    destruct (team_verdict _ _ _) as [why|].
    + destruct fail_fast; [done|]. intros [= <- _]. left. eauto.
    + destruct ext_teams as [ext|]; [|done]. intros [= <- _]. right.
      cbn [say hub log] in Hrepo, Hteams. eauto 12.
  - destruct h; try done. destruct fail_fast; [done|].
    intros [= <- _]. left. eauto.
Qed.

(** The invariant of the loop of the resolver. *)
Lemma resolved_products_come_from_lookup_aux org products allow_teams
    ext_teams deny_teams fail_fast s resolved s' name rp :
  get_repo_for_products org products allow_teams ext_teams deny_teams
    fail_fast s = (Ok resolved, s') →
  (name, rp) ∈ resolved →
  (name, rp_data rp) ∈ products
  ∧ ∃ ext team_names w0 w1 w2,
      ext_teams = Some ext
      ∧ org_get_repo org name w0 = (Ok (rp_repo rp), w1)
      ∧ repo_get_teams (rp_repo rp) w1 = (Ok team_names, w2)
      ∧ (rp_v rp = true ↔ intersects ext team_names).
Proof.
  unfold get_repo_for_products.
  unfold bind at 1, debug at 1, emit at 1.
  unfold bind at 1, debug at 1, emit at 1.
  unfold bind at 1, debug at 1, emit at 1. cbn [hub log].
  unfold bind at 1.
  destruct (for_each _ _ _ _) as [[loc|x] s1] eqn:E; [|done].
  destruct (rs_problems loc); [|done]. unfold ret. intros [= <- <-].
  revert name rp.
  refine (for_each_invariant
    (λ loc, ∀ name rp, (name, rp) ∈ rs_resolved loc →
       (name, rp_data rp) ∈ products
       ∧ ∃ ext team_names w0 w1 w2,
           ext_teams = Some ext
           ∧ org_get_repo org name w0 = (Ok (rp_repo rp), w1)
           ∧ repo_get_teams (rp_repo rp) w1 = (Ok team_names, w2)
           ∧ (rp_v rp = true ↔ intersects ext team_names))
    _ products _ _ _ _ _ _ E).
  - intros loc0 [n d] s0 loc1 s2 Hin I0 Hb name rp.
    apply get_repo_body_resolved in Hb
      as [(e & ->) | (ext & repo & tn & w0 & w1 & w2 & -> & Hr & Ht & ->)];
      [apply I0|].
    cbn [rs_resolve rs_resolved].
    intros [[= -> ->]|?]%elem_of_dict_set; [|by apply I0].
    cbn [rp_data rp_repo rp_v]. split; [done|].
    exists ext, tn, w0, w1, w2. split_and!; [done..|apply any_in_spec].
  - by intros ?? ?%elem_of_nil.
Qed.

(** Every product of the mapping that the resolver returns is a product of
    its input, with its record unchanged and the repository that the
    organization answered for its name; it is marked external exactly when
    the team names that the platform answered for the repository meet the
    external-team set. *)
Theorem resolved_products_come_from_lookup org products allow_teams
    ext_teams deny_teams fail_fast s resolved s' name rp :
  get_repo_for_products org products allow_teams ext_teams deny_teams
    fail_fast s = (Ok resolved, s') →
  (name, rp) ∈ resolved →
  (name, rp_data rp) ∈ products
  ∧ ∃ ext team_names w0 w1 w2,
      ext_teams = Some ext
      ∧ org_get_repo org name w0 = (Ok (rp_repo rp), w1)
      ∧ repo_get_teams (rp_repo rp) w1 = (Ok team_names, w2)
      ∧ (rp_v rp = true ↔ intersects ext team_names).
Proof. apply resolved_products_come_from_lookup_aux. Qed.

(** Without an external-team set every iteration that does not raise
    records a failure. *)
Lemma get_repo_loop_no_external_teams org allow_teams deny_teams fail_fast
    products :
  ∀ loc s loc' s',
    for_each (get_repo_body org allow_teams None deny_teams fail_fast)
      products loc s = (Ok loc', s') →
    List.length (rs_problems loc')
    = (List.length (rs_problems loc) + List.length products)%nat.
Proof.
  induction products as [|[name data] rest IH]; intros loc s loc' s';
    cbn [for_each].
  - unfold ret. intros [= <- _]. simpl. lia.
  - unfold bind at 1.
    destruct (get_repo_body _ _ _ _ _ _ _ _) as [[loc1|x] s1] eqn:Hb; [|done].
    intros ->%IH.
    apply get_repo_body_resolved in Hb
      as [(e & ->) | (ext & _ & _ & _ & _ & _ & [=] & _)].
    cbn [rs_problem rs_problems]. rewrite length_app. simpl. lia.
Qed.

(** Without an external-team set the resolver returns for the empty
    mapping only: whatever products it is given, it raises.  And the first
    product that is found and passes the team policy ends the stage with a
    [TypeError], with or without fail-fast, whatever failures were recorded
    before it and whatever products follow. *)
Theorem resolver_needs_external_teams org allow_teams deny_teams fail_fast :
  (∀ products s, products ≠ [] →
     ∃ e s', get_repo_for_products org products allow_teams None deny_teams
               fail_fast s = (Raise e, s'))
  ∧ (∀ pre name data post s loc s1 ver repo team_names w1 w2,
       for_each (get_repo_body org allow_teams None deny_teams fail_fast)
         pre {| rs_resolved := []; rs_problems := [] |}
         (say DEBUG (TDeniedTeams deny_teams)
            (say DEBUG (TExternalTeams None)
               (say DEBUG (TAllowedTeams allow_teams) s)))
       = (Ok loc, s1) →
       data !! "eups_version" = Some ver →
       org_get_repo org name (hub s1) = (Ok repo, w1) →
       repo_get_teams repo w1 = (Ok team_names, w2) →
       team_verdict allow_teams deny_teams team_names = None →
       ∃ s', get_repo_for_products org (pre ++ (name, data) :: post)
               allow_teams None deny_teams fail_fast s
             = (Raise (TypeError "'NoneType' object is not iterable"), s')
             ∧ hub s' = w2).
Proof.
  split.
  - intros products s Hne. unfold get_repo_for_products.
    unfold bind at 1, debug at 1, emit at 1.
    unfold bind at 1, debug at 1, emit at 1.
    unfold bind at 1, debug at 1, emit at 1. cbn [hub log].
    unfold bind at 1.
    destruct (for_each _ _ _ _) as [[loc|x] s1] eqn:E; [|by eexists _, _].
    apply get_repo_loop_no_external_teams in E. cbn [rs_problems] in E.
    destruct (rs_problems loc) as [|p ps]; [|by eexists _, _].
    by destruct products.
  - intros pre name data post s loc s1 ver repo team_names w1 w2 Hpre Hver
      Hrepo Hteams Hpass.
    unfold get_repo_for_products.
    unfold bind at 1, debug at 1, emit at 1.
    unfold bind at 1, debug at 1, emit at 1.
    unfold bind at 1, debug at 1, emit at 1. cbn [hub log].
    unfold bind at 1. unfold say in Hpre. cbn [hub log] in Hpre.
    pose proof (get_repo_body_unfold org allow_teams None deny_teams
                  fail_fast loc name data ver s1 Hver) as Hb.
    cbv zeta in Hb. cbn [say hub log] in Hb.
    rewrite Hrepo in Hb. cbn [hub log] in Hb. rewrite Hteams, Hpass in Hb.
    rewrite (for_each_raise _ _ _ post _ _ _ _ _ _ Hpre Hb). by eexists.
Qed.

(** Errors of the two lookups of the resolver.  Only a repository that the
    organization does not know is the failure of the product: raised under
    fail-fast, recorded otherwise.  Any other error of the lookup of the
    repository, and any error of the lookup of its teams, leaves the stage
    as it is, whatever the fail-fast setting. *)
Theorem resolver_on_lookup_error org allow_teams ext_teams deny_teams loc
    name data ver s :
  data !! "eups_version" = Some ver →
  let s0 := say DEBUG (TLookingForRepo name ver) s in
  let yikes := CaughtUnknownObjectError name UnknownObjectException in
  (∀ w1, org_get_repo org name (hub s) = (Raise UnknownObjectException, w1) →
     get_repo_body org allow_teams ext_teams deny_teams true loc
       (name, data) s = (Raise yikes, State w1 (log s0))
     ∧ get_repo_body org allow_teams ext_teams deny_teams false loc
         (name, data) s
       = (Ok (rs_problem yikes loc),
          say ERROR (TException yikes) (State w1 (log s0))))
  ∧ (∀ h w1 fail_fast,
       org_get_repo org name (hub s) = (Raise h, w1) →
       h ≠ UnknownObjectException →
       get_repo_body org allow_teams ext_teams deny_teams fail_fast loc
         (name, data) s = (Raise (Host h), State w1 (log s0)))
  ∧ (∀ repo h w1 w2 fail_fast,
       org_get_repo org name (hub s) = (Ok repo, w1) →
       repo_get_teams repo w1 = (Raise h, w2) →
       get_repo_body org allow_teams ext_teams deny_teams fail_fast loc
         (name, data) s
       = (Raise (Host h),
          State w2 (log s0 ++ [(DEBUG, TFound (full_name repo))]))).
Proof.
  intros Hver s0 yikes. split_and!.
  - intros w1 Hrepo.
    rewrite !(get_repo_body_unfold _ _ _ _ _ _ _ _ ver) by done. cbv zeta.
    cbn [say hub log]. by rewrite Hrepo.
  - intros h w1 fail_fast Hrepo Hne.
    rewrite (get_repo_body_unfold _ _ _ _ _ _ _ _ ver) by done. cbv zeta.
    cbn [say hub log]. rewrite Hrepo. by destruct h.
  - intros repo h w1 w2 fail_fast Hrepo Hteams.
    rewrite (get_repo_body_unfold _ _ _ _ _ _ _ _ ver) by done. cbv zeta.
    cbn [say hub log]. rewrite Hrepo. cbn [hub log]. by rewrite Hteams.
Qed.

End ResolveCases.

Lemma resolved_products_come_from_lookup_witness :
  ("pkgA", rp_data Ex.pkgA_resolved) ∈ [("pkgA", Ex.pkgA_manifest)]
  ∧ ∃ ext team_names w0 w1 w2,
      Some ["DM Externals"] = Some ext
      ∧ org_get_repo (Platform:=Sim.platform) "lsst" "pkgA" w0
        = (Ok (rp_repo Ex.pkgA_resolved), w1)
      ∧ repo_get_teams (Platform:=Sim.platform) (rp_repo Ex.pkgA_resolved) w1
        = (Ok team_names, w2)
      ∧ (rp_v Ex.pkgA_resolved = true ↔ intersects ext team_names).
Proof.
  refine (resolved_products_come_from_lookup (P:=Sim.platform) "lsst"
    [("pkgA", Ex.pkgA_manifest)] ["Data Management"] (Some ["DM Externals"])
    None false Ex.h0 [("pkgA", Ex.pkgA_resolved)] _ "pkgA" Ex.pkgA_resolved
    _ _).
  - vm_compute; reflexivity.
  - left.
Defined.

Lemma resolver_needs_external_teams_witness :
  ∃ s', get_repo_for_products (P:=Sim.platform) "lsst"
          [("ghost", Ex.pkgA_manifest); ("pkgA", Ex.pkgA_manifest)]
          ["Data Management"] None None false Ex.h0
        = (Raise (TypeError "'NoneType' object is not iterable"), s')
        ∧ Sim.budget (hub s') = 97%nat.
Proof.
  edestruct (proj2 (resolver_needs_external_teams (P:=Sim.platform) "lsst"
    ["Data Management"] None false) [("ghost", Ex.pkgA_manifest)] "pkgA"
    Ex.pkgA_manifest [] Ex.h0) as (s' & Hrun & Hs).
  - vm_compute; reflexivity.
  - vm_compute; reflexivity.
  - vm_compute; reflexivity.
  - vm_compute; reflexivity.
  - vm_compute; reflexivity.
  - exists s'. split; [exact Hrun|]. rewrite Hs. reflexivity.
Defined.

Lemma resolver_on_lookup_error_witness :
  ∃ s', get_repo_body (P:=Sim.platform) "lsst" ["Data Management"] (Some [])
          None false {| rs_resolved := []; rs_problems := [] |}
          ("ghost", Ex.pkgA_manifest) Ex.h0
        = (Ok {| rs_resolved := [];
                 rs_problems :=
                   [CaughtUnknownObjectError "ghost" UnknownObjectException]
              |}, s').
Proof.
  eexists.
  refine (proj2 (proj1 (resolver_on_lookup_error (P:=Sim.platform) "lsst"
    ["Data Management"] (Some []) None
    {| rs_resolved := []; rs_problems := [] |} "ghost" Ex.pkgA_manifest
    "w_2018_18" Ex.h0 _) _ _)).
  - vm_compute; reflexivity.
  - vm_compute; reflexivity.
Defined.

(** ** Cross-referencing, further *)

Section CrossReferenceMore.
Context {W : Type}.
Implicit Types (s : state W) (loc : xref_locals).
Implicit Types (manifest_products : gmap string (gmap string string)).

(** An iteration that records nothing has found the product in the
    manifest, with the version string of the candidate unless versions are
    ignored. *)
Lemma cross_reference_body_quiet manifest_products ignore_version fail_fast
    loc name eups_data s loc' s' :
  cross_reference_body manifest_products ignore_version fail_fast loc
    (name, eups_data) s = (Ok loc', s') →
  xr_problems loc' = xr_problems loc →
  ∃ m v, manifest_products !! name = Some m
         ∧ eups_data !! "eups_version" = Some v
         ∧ (ignore_version = false → m !! "eups_version" = Some v).
Proof.
  unfold cross_reference_body. unfold_monad. intros H Hp.
  assert (∀ (l : list exn) x, (l ++ [x])%list ≠ l) as Hgrow.
  { intros l x Hl. apply (f_equal List.length) in Hl.
    rewrite length_app in Hl. simpl in Hl. lia. }
  assert (∀ (l : list exn) x y, ((l ++ [x]) ++ [y])%list ≠ l) as Hgrow2.
  { intros l x y Hl. apply (f_equal List.length) in Hl.
    rewrite !length_app in Hl. simpl in Hl. lia. }
  repeat (case_match; simplify_eq/=);
    try (by destruct (Hgrow _ _ Hp)); try (by destruct (Hgrow2 _ _ _ Hp));
    eexists _, _; split_and!; try done.
  intros _.
  match goal with
  | H : negb (?a =? ?b)%string = false |- _ =>
      apply negb_false_iff, String.eqb_eq in H; by subst
  end.
Qed.

Lemma cross_reference_loop_quiet manifest_products ignore_version fail_fast
    (eups_products : dict (gmap string string)) :
  ∀ loc s loc' s',
  for_each (cross_reference_body manifest_products ignore_version fail_fast)
    eups_products loc s = (Ok loc', s') →
  xr_problems loc' = xr_problems loc →
  (∀ n e, (n, e) ∈ eups_products →
     ∃ m v, manifest_products !! n = Some m
            ∧ e !! "eups_version" = Some v
            ∧ (ignore_version = false → m !! "eups_version" = Some v))
  ∧ keys (xr_products loc')
    = fold_left (λ ks k, keys (dict_set k () (map (λ k, (k, ())) ks)))
        (keys eups_products) (keys (xr_products loc)).
Proof.
  induction eups_products as [|[n0 e0] l IH]; intros loc s loc' s';
    cbn [for_each].
  - unfold ret. intros [= <- <-] _. split; [|done]. by intros ?? ?%elem_of_nil.
  - unfold bind at 1.
    destruct (cross_reference_body manifest_products ignore_version fail_fast
                loc (n0, e0) s) as [[loc1|x] s1] eqn:E; [|done].
    intros Hl Hsame.
    destruct (cross_reference_body_ok _ _ _ _ _ _ _ _ _ E)
      as (md & extra & Hp & Hx & _).
    destruct (cross_reference_loop _ _ _ _ _ _ _ _ Hl)
      as ((extra' & Hx' & _) & _).
    assert (extra = [] ∧ extra' = []) as [-> ->].
    { rewrite Hx', Hx, <-app_assoc in Hsame.
      apply (f_equal List.length) in Hsame. rewrite !length_app in Hsame.
      split; apply nil_length_inv; lia. }
    rewrite app_nil_r in Hx, Hx'.
    destruct (IH _ _ _ _ Hl Hx') as [Hall Hkeys]. split.
    + intros n e [[= -> ->]|Hin]%elem_of_cons; [|by apply Hall].
      by eapply cross_reference_body_quiet.
    + rewrite Hkeys, Hp. cbn [keys map fold_left fst]. f_equal.
      rewrite !keys_dict_set. unfold keys. rewrite map_map. cbn [fst].
      by rewrite map_id.
Qed.

Lemma fold_keys_NoDup (l ks : list string) :
  NoDup (ks ++ l) →
  fold_left (λ ks k, keys (dict_set k () (map (λ k, (k, ())) ks))) l ks
  = (ks ++ l)%list.
Proof.
  revert ks. induction l as [|k l IH]; intros ks Hnd; cbn [fold_left].
  - by rewrite app_nil_r.
  - rewrite keys_dict_set. unfold keys. rewrite map_map. cbn [fst].
    rewrite map_id. rewrite bool_decide_eq_false_2.
    + rewrite IH; rewrite <-app_assoc; done.
    + apply NoDup_app in Hnd as (_ & Hnd & _). intros Hin.
      apply (Hnd k Hin). left.
Qed.

(** The stage returns a mapping only when every candidate product is in
    the manifest, with the version string of the candidate unless versions
    are ignored: a missing entry or a mismatch never passes in silence. *)
Theorem cross_reference_returns_on_agreement
    (eups_products : dict (gmap string string)) manifest_products
    ignore_version fail_fast s products s' n e :
  cross_reference_products eups_products manifest_products ignore_version
    fail_fast s = (Ok products, s') →
  (n, e) ∈ eups_products →
  ∃ m v, manifest_products !! n = Some m
         ∧ e !! "eups_version" = Some v
         ∧ (ignore_version = false → m !! "eups_version" = Some v).
Proof.
  unfold cross_reference_products. unfold bind at 1.
  destruct (for_each _ _ _ s) as [[loc|x] s1] eqn:E; [|done].
  destruct (xr_problems loc) eqn:Ep; [|done]. intros _.
  by apply (cross_reference_loop_quiet _ _ _ _ _ _ _ _ E).
Qed.

(** The mapping that the stage returns has the names of the candidate
    products, in their order. *)
Theorem cross_reference_keeps_order
    (eups_products : dict (gmap string string)) manifest_products
    ignore_version fail_fast s products s' :
  NoDup (keys eups_products) →
  cross_reference_products eups_products manifest_products ignore_version
    fail_fast s = (Ok products, s') →
  keys products = keys eups_products.
Proof.
  intros Hnd. unfold cross_reference_products. unfold bind at 1.
  destruct (for_each _ _ _ s) as [[loc|x] s1] eqn:E; [|done].
  destruct (xr_problems loc) eqn:Ep; [|done]. unfold ret. intros [= <- <-].
  destruct (cross_reference_loop_quiet _ _ _ _ _ _ _ _ E Ep) as [_ ->].
  by apply (fold_keys_NoDup _ []).
Qed.

Lemma cross_reference_loop_agree manifest_products ignore_version fail_fast
    (l : dict (gmap string string)) s :
  (∀ n e, (n, e) ∈ l →
     ∃ m t, manifest_products !! n = Some m
            ∧ e !! "eups_version" = Some t
            ∧ m !! "eups_version" = Some t) →
  ∀ loc, ∃ loc',
    for_each (cross_reference_body manifest_products ignore_version
                fail_fast) l loc s = (Ok loc', s)
    ∧ xr_problems loc' = xr_problems loc.
Proof.
  induction l as [|[n e] l IH]; intros Hall loc; cbn [for_each].
  - by exists loc.
  - destruct (Hall n e) as (m & t & Hm & He & Ht); [left|].
    unfold bind. erewrite cross_reference_body_agree by done.
    edestruct IH as (loc' & -> & Hp); [intros ???; apply Hall; by right|].
    by exists loc'.
Qed.

(** Under fail-fast, after products that agree with the manifest, the
    first product that is missing from the manifest, or whose version
    string differs there, makes the stage raise its [RuntimeError] at once:
    nothing is logged and the products that follow are not looked at. *)
Theorem cross_reference_fail_fast
    (pre post : dict (gmap string string)) manifest_products name eups_data
    v s :
  (∀ n e, (n, e) ∈ pre →
     ∃ m t, manifest_products !! n = Some m
            ∧ e !! "eups_version" = Some t
            ∧ m !! "eups_version" = Some t) →
  eups_data !! "eups_version" = Some v →
  (manifest_products !! name = None →
   ∀ ignore_version,
     cross_reference_products (pre ++ (name, eups_data) :: post)
       manifest_products ignore_version true s
     = (Raise (RuntimeError (MissingManifestRecord name v)), s))
  ∧ (∀ m v', manifest_products !! name = Some m →
       m !! "eups_version" = Some v' → v ≠ v' →
       cross_reference_products (pre ++ (name, eups_data) :: post)
         manifest_products false true s
       = (Raise (RuntimeError (VersionMismatch name v v')), s)).
Proof.
  intros Hpre He. split.
  - intros Hm ignore_version.
    destruct (cross_reference_loop_agree manifest_products ignore_version
                true pre s Hpre
                {| xr_products := []; xr_problems := [];
                   xr_manifest_data := None |}) as (loc & Hloop & _).
    unfold cross_reference_products. unfold bind at 1.
    erewrite for_each_raise; [done|exact Hloop|].
    unfold cross_reference_body. unfold_monad. by rewrite Hm, He.
  - intros m v' Hm Hv Hne.
    destruct (cross_reference_loop_agree manifest_products false true pre s
                Hpre {| xr_products := []; xr_problems := [];
                        xr_manifest_data := None |}) as (loc & Hloop & _).
    unfold cross_reference_products. unfold bind at 1.
    erewrite for_each_raise; [done|exact Hloop|].
    unfold cross_reference_body. unfold_monad. rewrite Hm, He. cbn.
    rewrite Hv. cbn.
    destruct (String.eqb_spec v v'); [done|]. done.
Qed.

End CrossReferenceMore.

Lemma cross_reference_returns_on_agreement_witness :
  ∃ m v, ({[ "pkgA" := Ex.pkgA_manifest ]} : gmap string (gmap string string))
           !! "pkgA" = Some m
         ∧ Ex.pkgA_eups !! "eups_version" = Some v
         ∧ (false = false → m !! "eups_version" = Some v).
Proof.
  refine (cross_reference_returns_on_agreement
    [("pkgA", Ex.pkgA_eups)] {[ "pkgA" := Ex.pkgA_manifest ]} false false
    Ex.s0 [("pkgA", Ex.pkgA_manifest)] Ex.s0 "pkgA" Ex.pkgA_eups _ _).
  - vm_compute; reflexivity.
  - left.
Defined.

Lemma cross_reference_keeps_order_witness :
  keys [("pkgB", Ex.pkgA_manifest); ("pkgA", Ex.pkgA_manifest)]
  = keys [("pkgB", Ex.pkgB_eups); ("pkgA", Ex.pkgA_eups)].
Proof.
  refine (cross_reference_keeps_order
    [("pkgB", Ex.pkgB_eups); ("pkgA", Ex.pkgA_eups)]
    {[ "pkgA" := Ex.pkgA_manifest; "pkgB" := Ex.pkgA_manifest ]} false false
    Ex.s0 _ Ex.s0 _ _).
  - apply (bool_decide_unpack _). vm_compute. exact I.
  - vm_compute; reflexivity.
Defined.

Lemma cross_reference_fail_fast_witness :
  cross_reference_products
    [("pkgA", Ex.pkgA_eups); ("pkgB", Ex.pkgB_eups); ("pkgC", Ex.pkgB_eups)]
    {[ "pkgA" := Ex.pkgA_manifest ]} false true Ex.s0
  = (Raise (RuntimeError (MissingManifestRecord "pkgB" "w_2018_18")), Ex.s0).
Proof.
  refine (proj1 (cross_reference_fail_fast [("pkgA", Ex.pkgA_eups)]
    [("pkgC", Ex.pkgB_eups)] {[ "pkgA" := Ex.pkgA_manifest ]} "pkgB"
    Ex.pkgB_eups "w_2018_18" Ex.s0 _ _) _ false).
  - intros n e [= -> ->]%list_elem_of_singleton.
    exists Ex.pkgA_manifest, "w_2018_18".
    split_and!; vm_compute; reflexivity.
  - vm_compute; reflexivity.
  - vm_compute; reflexivity.
Defined.

(** ** Aggregated errors and the exit status *)

Section Aggregated.
Context `{P : Platform}.

Lemma cross_reference_dogpile_count {W}
    (eups_products : dict (gmap string string)) manifest_products
    ignore_version fail_fast (s : state W) errors msg s' :
  cross_reference_products eups_products manifest_products ignore_version
    fail_fast s = (Raise (DogpileError errors msg), s') →
  errors ≠ [] ∧ msg = ProductsHaveErrors (List.length errors).
Proof.
  unfold cross_reference_products. unfold bind at 1.
  destruct (for_each _ _ _ s) as [[loc|x] s1] eqn:E.
  - destruct (xr_problems loc) as [|p ps]; [done|].
    unfold raise. by intros [= <- <- _].
  - intros [= -> _].
    apply for_each_raise_inv in E as (? & [??] & ? & ? & ? & _ & _ & Hb).
    apply cross_reference_body_raise in Hb
      as [[? [=]]|[[? [=]]|[_ [? [=]]]]].
Qed.

Lemma get_repo_dogpile_count org products allow_teams ext_teams deny_teams
    fail_fast s errors msg s' :
  get_repo_for_products org products allow_teams ext_teams deny_teams
    fail_fast s = (Raise (DogpileError errors msg), s') →
  errors ≠ [] ∧ msg = ProductsHaveErrors (List.length errors).
Proof.
  unfold get_repo_for_products.
  unfold bind at 1, debug at 1, emit at 1.
  unfold bind at 1, debug at 1, emit at 1.
  unfold bind at 1, debug at 1, emit at 1. cbn [hub log].
  unfold bind at 1.
  destruct (for_each _ _ _ _) as [[loc|x] s1] eqn:E.
  - destruct (rs_problems loc) as [|p ps]; [done|].
    unfold raise. by intros [= <- <- _].
  - intros [= -> _].
    apply for_each_raise_inv in E as (? & [??] & ? & ? & ? & _ & _ & Hb).
    apply get_repo_body_raise in Hb
      as [?|[[? ?]|[[? ?]|[_ [[? ?]|(? & ? & ?)]]]]]; simplify_eq.
Qed.

Lemma check_product_tags_dogpile_count products tag_template force_tag
    fail_fast s errors msg s' :
  check_product_tags products tag_template force_tag fail_fast s
  = (Raise (DogpileError errors msg), s') →
  errors ≠ [] ∧ msg = ProductsHaveErrors (List.length errors).
Proof.
  unfold check_product_tags. unfold bind at 1.
  destruct (for_each _ _ _ s) as [[loc|x] s1] eqn:E.
  - destruct (pl_problems loc) as [|p ps]; [done|].
    unfold raise. by intros [= <- <- _].
  - intros [= -> _].
    apply for_each_raise_inv in E as (? & [??] & ? & ? & ? & _ & _ & Hb).
    apply check_product_body_raise in Hb
      as [?|[?|[[? ?]|[[? ?]|[_ [(? & ? & ?)|(? & ? & ? & _)]]]]]];
      simplify_eq.
Qed.

Lemma tag_products_dogpile_count products fail_fast dry_run s errors msg s' :
  tag_products products fail_fast dry_run s
  = (Raise (DogpileError errors msg), s') →
  errors ≠ [] ∧ msg = TagFailures (List.length errors).
Proof.
  unfold tag_products. unfold bind at 1.
  destruct (for_each _ _ _ s) as [[problems|x] s1] eqn:E.
  - destruct problems as [|p ps]; [done|].
    unfold raise. by intros [= <- <- _].
  - intros [= -> _].
    apply for_each_raise_inv in E as (? & [??] & ? & ? & ? & _ & _ & Hb).
    apply tag_body_raise in Hb
      as [?|[_ [?|[[? ?]|[[? ?]|[_ (? & ? & ? & _)]]]]]]; simplify_eq.
Qed.

(** An aggregated error that leaves a run holds at least one error, and
    its summary counts them. *)
Lemma run_dogpile_count args git_user git_email timestamp s errors msg s' :
  run args git_user git_email timestamp s
  = (Raise (DogpileError errors msg), s') →
  errors ≠ [] ∧ counts msg errors.
Proof.
  unfold run, counts. unfold bind, debug, emit, call. cbn [hub log].
  destruct (get_organization _ _) as [[org|h] w1]; cbn [hub log]; [|done].
  destruct (eups_tag_products _ _) as [[eups_products|h] w2]; cbn [hub log];
    [|done].
  destruct (manifest_products_of _ _) as [[manifest_products|h] w3];
    cbn [hub log]; [|done].
  destruct (cross_reference_products _ _ _ _ _) as [[products|e] s3] eqn:E1;
    [|intros [= -> ->];
      apply cross_reference_dogpile_count in E1 as [? ->]; auto].
  assert (∀ limited s4,
            (let (o, s5) :=
               get_repo_for_products org limited (a_allow_team args)
                 (a_external_team args) (a_deny_team args) false s4 in
             match o with
             | Ok resolved =>
                 let (o0, s6) :=
                   check_product_tags resolved
                     {| tmpl_name := a_tag args;
                        tmpl_message :=
                          "Version " ++ a_tag args ++ " release from "
                          ++ match a_candidate args with
                             | Some c => if (c =? "")%string then a_tag args
                                         else c
                             | None => a_tag args
                             end ++ "/" ++ a_manifest args;
                        tmpl_tagger :=
                          InputGitAuthor
                            {[ "name" := git_user; "email" := git_email;
                               "date" := timestamp ]} |}
                     (a_force_tag args) false s5 in
                 match o0 with
                 | Ok plans =>
                     tag_products plans (a_fail_fast args) (a_dry_run args) s6
                 | Raise e => (Raise e, s6)
                 end
             | Raise e => (Raise e, s5)
             end) = (Raise (DogpileError errors msg), s') →
            errors ≠ [] ∧ counts msg errors) as Hrest.
  { intros limited s4.
    destruct (get_repo_for_products _ _ _ _ _ _ _) as [[resolved|e] s5] eqn:E2;
      [|intros [= -> ->]; apply get_repo_dogpile_count in E2 as [? ->];
        unfold counts; auto].
    destruct (check_product_tags _ _ _ _ _) as [[plans|e] s6] eqn:E3;
      [|intros [= -> ->];
        apply check_product_tags_dogpile_count in E3 as [? ->];
        unfold counts; auto].
    intros E4. apply tag_products_dogpile_count in E4 as [? ->].
    unfold counts; auto. }
  unfold counts in Hrest.
  destruct (a_limit args) as [limit|]; [|apply Hrest].
  destruct (limit =? 0)%Z; [apply Hrest|].
  unfold islice_items.
  destruct ((limit <? 0) || (sys_maxsize <? limit))%Z; [done|apply Hrest].
Qed.

(** The four stages raise an aggregated error only with at least one error
    in it, and with the summary that counts them. *)
Theorem aggregated_errors_are_counted :
  (∀ (eups_products : dict (gmap string string)) manifest_products
     ignore_version fail_fast (s : state world) errors msg s',
     cross_reference_products eups_products manifest_products
       ignore_version fail_fast s = (Raise (DogpileError errors msg), s') →
     errors ≠ [] ∧ msg = ProductsHaveErrors (List.length errors))
  ∧ (∀ org products allow_teams ext_teams deny_teams fail_fast s errors msg
       s',
       get_repo_for_products org products allow_teams ext_teams deny_teams
         fail_fast s = (Raise (DogpileError errors msg), s') →
       errors ≠ [] ∧ msg = ProductsHaveErrors (List.length errors))
  ∧ (∀ products tag_template force_tag fail_fast s errors msg s',
       check_product_tags products tag_template force_tag fail_fast s
       = (Raise (DogpileError errors msg), s') →
       errors ≠ [] ∧ msg = ProductsHaveErrors (List.length errors))
  ∧ (∀ products fail_fast dry_run s errors msg s',
       tag_products products fail_fast dry_run s
       = (Raise (DogpileError errors msg), s') →
       errors ≠ [] ∧ msg = TagFailures (List.length errors)).
Proof.
  split_and!.
  - intros *. apply cross_reference_dogpile_count.
  - intros *. apply get_repo_dogpile_count.
  - intros *. apply check_product_tags_dogpile_count.
  - intros *. apply tag_products_dogpile_count.
Qed.

(** The exit status of [main].  When [sys.exit] is called, the run has
    raised an aggregated error and the code is the number of its errors,
    255 from 256 errors on: it lies between 1 and 255.  And when the run
    raises an aggregated error and the rate-limit report of the [finally]
    clause returns, [sys.exit] is called with that code. *)
Theorem main_exit_status debug_ratelimit args git_user git_email timestamp
    s :
  (∀ code s', main debug_ratelimit args git_user git_email timestamp s
              = (SystemExit code, s') →
     ∃ errors msg s1,
       run args git_user git_email timestamp s
       = (Raise (DogpileError errors msg), s1)
       ∧ code = Nat.min (List.length errors) 255
       ∧ (1 ≤ code ≤ 255)%nat)
  ∧ (∀ errors msg s1 s2,
       run args git_user git_email timestamp s
       = (Raise (DogpileError errors msg), s1) →
       debug_ratelimit
         (say ERROR (TException (DogpileError errors msg)) s1) = (Ok tt, s2) →
       main debug_ratelimit args git_user git_email timestamp s
       = (SystemExit (Nat.min (List.length errors) 255), s2)).
Proof.
  assert (∀ n, (if (n <? 256)%nat then n else 255) = Nat.min n 255) as Hmin.
  { intros n. destruct (Nat.ltb_spec n 256); lia. }
  split.
  - intros code s'. unfold main.
    destruct (run _ _ _ _ s) as [[[]|e] s1] eqn:Hrun.
    + destruct (debug_ratelimit s1) as [[[]|?] ?]; done.
    + destruct e; try (destruct (debug_ratelimit s1) as [[[]|?] ?]; done).
      destruct (debug_ratelimit _) as [[[]|?] ?]; [|done].
      intros [= <- <-]. apply run_dogpile_count in Hrun as [Hne _].
      eexists _, _, _. split; [done|]. rewrite Hmin. split; [done|].
      destruct errors; [done|]. simpl. lia.
  - intros errors msg s1 s2 Hrun Hfin. unfold main. rewrite Hrun.
    unfold say in Hfin. rewrite Hfin. by rewrite Hmin.
Qed.

(** The edges of [--limit].  Zero is no limit: the test [if args.limit:]
    takes it as absent.  A limit below zero or above [sys.maxsize] ends
    every run that gets past the cross-reference: [itertools.islice] raises
    [ValueError] in the state that the cross-reference has left, so that no
    repository is looked up; a run that fails earlier fails as it does
    without a limit. *)
Theorem limit_edge_cases args git_user git_email timestamp :
  run (set_limit (Some 0%Z) args) git_user git_email timestamp
  = run (set_limit None args) git_user git_email timestamp
  ∧ ∀ limit s, (limit < 0 ∨ sys_maxsize < limit)%Z →
      (∀ r s3,
         run_cross_reference args git_user git_email timestamp s
         = (Ok r, s3) →
         run (set_limit (Some limit) args) git_user git_email timestamp s
         = (Raise (ValueError "Stop argument for islice() must be None or an integer: 0 <= x <= sys.maxsize."),
            s3))
      ∧ (∀ e s3,
           run_cross_reference args git_user git_email timestamp s
           = (Raise e, s3) →
           run (set_limit (Some limit) args) git_user git_email timestamp s
           = (Raise e, s3)).
Proof.
  split; [reflexivity|]. intros limit s Hbad.
  assert (limit ≠ 0%Z) as Hnz by (unfold sys_maxsize in Hbad; lia).
  assert (((limit <? 0) || (sys_maxsize <? limit))%Z = true) as Hcond.
  { apply orb_true_iff. rewrite !Z.ltb_lt. exact Hbad. }
  unfold run, run_cross_reference.
  cbn [set_limit a_tag a_manifest a_org a_allow_team
    a_external_team a_deny_team a_candidate a_dry_run a_force_tag
    a_ignore_version a_limit a_fail_fast].
  unfold bind, debug, emit, call, ret. cbn [hub log].
  destruct (get_organization _ _) as [[org|h] w1]; cbn [hub log];
    [|by split; intros ?? [= <- <-]].
  destruct (eups_tag_products _ _) as [[eups_products|h] w2]; cbn [hub log];
    [|by split; intros ?? [= <- <-]].
  destruct (manifest_products_of _ _) as [[manifest_products|h] w3];
    cbn [hub log]; [|by split; intros ?? [= <- <-]].
  destruct (cross_reference_products _ _ _ _ _) as [[products|e] s3'];
    [|by split; intros ?? [= <- <-]].
  destruct (Z.eqb_spec limit 0) as [?|_]; [done|].
  unfold islice_items. rewrite Hcond.
  split; [by intros ?? [= <- <-]|done].
Qed.

End Aggregated.

Lemma aggregated_errors_are_counted_witness :
  [CaughtRepositoryError Ex.pkgA_repo (GithubException 422)] ≠ []
  ∧ TagFailures 1
    = TagFailures
        (List.length
           [CaughtRepositoryError Ex.pkgA_repo (GithubException 422)]).
Proof.
  refine (proj2 (proj2 (proj2
    (aggregated_errors_are_counted (P:=Sim.platform))))
    [("pkgA", plan_entry Ex.weekly Ex.pkgA_moved "def456")] false false
    Ex.h1 _ _ _ _).
  vm_compute; reflexivity.
Defined.

Lemma main_exit_status_witness :
  ∃ s2, main (P:=Sim.platform) (λ s, (Ok tt, s)) Ex.weekly_args "sqre"
          "sqre@example.org" "2018-05-01T00:00:00Z" (State Ex.hub_empty [])
        = (SystemExit 2, s2).
Proof.
  eexists.
  refine (proj2 (main_exit_status (P:=Sim.platform) (λ s, (Ok tt, s))
    Ex.weekly_args "sqre" "sqre@example.org" "2018-05-01T00:00:00Z"
    (State Ex.hub_empty []))
    [CaughtUnknownObjectError "pkgA" UnknownObjectException;
     CaughtUnknownObjectError "pkgB" UnknownObjectException]
    (ProductsHaveErrors 2) _ _ _ _).
  - vm_compute; reflexivity.
  - reflexivity.
Defined.

Lemma limit_edge_cases_witness :
  (∃ s3, run (P:=Sim.platform) (set_limit (Some (-1)%Z) Ex.weekly_args)
           "sqre" "sqre@example.org" "2018-05-01T00:00:00Z" Ex.h0
         = (Raise (ValueError "Stop argument for islice() must be None or an integer: 0 <= x <= sys.maxsize."),
            s3)
         ∧ Sim.budget (hub s3) = 99%nat)
  ∧ (∃ s3, run (P:=Sim.platform)
             (set_limit (Some (2 ^ 63)%Z) Ex.weekly_args)
             "sqre" "sqre@example.org" "2018-05-01T00:00:00Z" Ex.h0
           = (Raise (ValueError "Stop argument for islice() must be None or an integer: 0 <= x <= sys.maxsize."),
              s3)
           ∧ Sim.budget (hub s3) = 99%nat).
Proof.
  pose proof (limit_edge_cases (P:=Sim.platform) Ex.weekly_args "sqre"
                "sqre@example.org" "2018-05-01T00:00:00Z") as [_ H].
  destruct (H (-1)%Z Ex.h0 (or_introl eq_refl)) as [Hneg _].
  destruct (H (2 ^ 63)%Z Ex.h0 (or_intror eq_refl)) as [Hbig _].
  split; eexists.
  - split; [eapply Hneg; vm_compute; reflexivity|reflexivity].
  - split; [eapply Hbig; vm_compute; reflexivity|reflexivity].
Defined.

(** ** Names of eups tags and of repositories *)

Lemma translate_eups_get s i :
  String.get i (translate_eups s)
  = (λ c, if Ascii.eqb c "." || Ascii.eqb c "-" then "_"%char else c)
    <$> String.get i s.
Proof.
  revert i. induction s as [|c s IH]; intros i; [done|].
  destruct i; [done|]. apply IH.
Qed.

(** [translate_eups] keeps the length of the candidate and every character
    but the dots and the dashes, of which none is left; translating twice
    is translating once. *)
Theorem translate_eups_spec s :
  String.length (translate_eups s) = String.length s
  ∧ (∀ i c, String.get i (translate_eups s) = Some c →
       c ≠ "."%char ∧ c ≠ "-"%char)
  ∧ (∀ i c, String.get i s = Some c → c ≠ "."%char → c ≠ "-"%char →
       String.get i (translate_eups s) = Some c)
  ∧ translate_eups (translate_eups s) = translate_eups s.
Proof.
  split_and!.
  - induction s as [|c s IH]; [done|]. simpl. by rewrite IH.
  - intros i c. rewrite translate_eups_get.
    destruct (String.get i s) as [c0|]; [|done]. simpl. intros [= <-].
    destruct (Ascii.eqb_spec c0 ".") as [->|]; [done|].
    destruct (Ascii.eqb_spec c0 "-") as [->|]; done.
  - intros i c Hc Hdot Hdash. rewrite translate_eups_get, Hc. simpl.
    destruct (Ascii.eqb_spec c "."); [done|].
    by destruct (Ascii.eqb_spec c "-").
  - induction s as [|c s IH]; [done|]. simpl. rewrite IH. f_equal.
    destruct (Ascii.eqb_spec c ".") as [->|]; [done|].
    destruct (Ascii.eqb_spec c "-") as [->|]; [done|]. simpl.
    destruct (Ascii.eqb_spec c "."); [done|].
    by destruct (Ascii.eqb_spec c "-").
Qed.

Lemma translate_eups_spec_witness :
  String.get 1 (translate_eups "w.2018.18") = Some "_"%char
  ∧ String.get 2 (translate_eups "w.2018.18") = Some "2"%char.
Proof.
  split; [reflexivity|].
  refine (proj1 (proj2 (proj2 (translate_eups_spec "w.2018.18"))) 2
            "2"%char _ _ _); [reflexivity|discriminate..].
Defined.

Lemma rstrip_empty_iff s :
  rstrip s = EmptyString ↔ all_whitespace s.
Proof.
  unfold all_whitespace. induction s as [|c s IH]; simpl.
  - split; [constructor|done].
  - rewrite Forall_cons, <-IH. destruct (rstrip s).
    + destruct (is_whitespace c); split; try done. by intros [].
    + split; [done|]. by intros [_ ?].
Qed.

(** [rstrip] cuts off the whitespace at the end, all of it and nothing
    else: the string is the result followed by whitespace only, and the
    result does not end with whitespace. *)
Theorem rstrip_spec s :
  (∃ ws, s = rstrip s ++ ws ∧ all_whitespace ws)
  ∧ ¬ ends_with_whitespace (rstrip s).
Proof.
  split.
  - induction s as [|c s (ws & Hs & Hws)]; [by exists EmptyString; split; [|constructor]|].
    simpl. destruct (rstrip s) as [|c' r] eqn:E.
    + destruct (is_whitespace c) eqn:Ec.
      * exists (String c s). split; [done|].
        unfold all_whitespace. simpl. constructor; [done|].
        by apply rstrip_empty_iff.
      * exists ws. split; [|done]. by rewrite Hs at 1.
    + exists ws. split; [|done]. by rewrite Hs at 1.
  - unfold ends_with_whitespace.
    induction s as [|c s IH]; simpl.
    + intros ([|??] & c & [=] & _).
    + destruct (rstrip s) as [|c' r] eqn:E.
      * destruct (is_whitespace c) eqn:Ec.
        -- intros ([|??] & c0 & [=] & _).
        -- intros ([|? [|??]] & c0 & [=] & Hc0); simplify_eq.
           congruence.
      * intros ([|c1 s1] & c0 & Heq & Hc0); [done|].
        change (String c (String c' r) = String c1 (s1 ++ String c0 ""))
          in Heq.
        injection Heq as -> Heq. apply IH. by exists s1, c0.
Qed.

(** ** [github-mv-repos-to-team] *)

Section MvReposFacts.
Context {W : Type}.
Implicit Types (s : mv_state W) (a : mv_args).
Implicit Types (organization : string → W → outcome host_exn string * W).
Implicit Types
  (add_repo remove_repo
   : string → string → string → W → outcome host_exn bool * W).

(** The body of the loop under [--dry-run]: the two operations are not
    called. *)
Lemma mv_body_dry_run add_repo remove_repo a org st r s :
  mv_dry_run a = true →
  mv_body add_repo remove_repo a org st r s
  = (Ok st,
     mv_sleep 1
       (mv_print_if (negb (String.eqb (mv_oldteam a) "Owners"))
          (PRemoving (mv_org a ++ "/" ++ rstrip r) (mv_oldteam a))
          (mv_print (PAdding (mv_org a ++ "/" ++ rstrip r) (mv_newteam a))
             s))).
Proof.
  intros Hdry. unfold mv_body. destruct st as [status status2].
  rewrite Hdry, orb_true_r. cbn [mv_print_if].
  by destruct (negb _).
Qed.

Lemma mv_loop_dry_run add_repo remove_repo add_repo' remove_repo' a org
    move_me :
  mv_dry_run a = true →
  ∀ st s,
    mv_loop add_repo remove_repo a org move_me st s
    = mv_loop add_repo' remove_repo' a org move_me st s
    ∧ ∃ s', mv_loop add_repo remove_repo a org move_me st s = (Ok st, s')
            ∧ mv_hub s' = mv_hub s.
Proof.
  intros Hdry. induction move_me as [|r rest IH]; intros st s;
    cbn [mv_loop]; [eauto|].
  rewrite !mv_body_dry_run by done.
  destruct (IH st (mv_sleep 1
              (mv_print_if (negb (String.eqb (mv_oldteam a) "Owners"))
                 (PRemoving (mv_org a ++ "/" ++ rstrip r) (mv_oldteam a))
                 (mv_print
                    (PAdding (mv_org a ++ "/" ++ rstrip r) (mv_newteam a))
                    s)))) as (Heq & s' & Hs' & Hhub).
  split; [done|]. exists s'. split; [done|]. rewrite Hhub.
  by destruct (negb _).
Qed.

(** Under [--dry-run] neither [add_repo] nor [remove_repo] is called: the
    tool does the same whatever the two operations are, and when the
    organization is found it returns with the organization as the lookup
    left it. *)
Theorem mv_dry_run_calls_nothing organization add_repo remove_repo a s :
  mv_dry_run a = true →
  (∀ add_repo' remove_repo',
     mv_main organization add_repo remove_repo a s
     = mv_main organization add_repo' remove_repo' a s)
  ∧ (∀ org w, organization (mv_org a) (mv_hub s) = (Ok org, w) →
       ∃ s', mv_main organization add_repo remove_repo a s = (Ok tt, s')
             ∧ mv_hub s' = w).
Proof.
  intros Hdry. split.
  - intros add_repo' remove_repo'. unfold mv_main.
    destruct (organization _ _) as [[org|h] w]; [|done].
    by rewrite (proj1 (mv_loop_dry_run add_repo remove_repo add_repo'
                          remove_repo' a org (mv_repos a) Hdry _ _)).
  - intros org w Horg. unfold mv_main.
    assert (∀ b p s, mv_hub (mv_print_if b p s) = mv_hub s) as Hp
      by (by intros [] ??).
    rewrite !Hp, Horg.
    edestruct (mv_loop_dry_run add_repo remove_repo add_repo remove_repo a
                 org (mv_repos a) Hdry) as (_ & s' & -> & Hhub).
    eexists. split; [done|]. by rewrite !Hp, Hhub, Hp.
Qed.

Lemma mv_body_owners add_repo remove_repo remove_repo' a org st r s :
  mv_oldteam a = "Owners" →
  mv_body add_repo remove_repo a org st r s
  = mv_body add_repo remove_repo' a org st r s.
Proof. intros Ho. unfold mv_body. by rewrite Ho. Qed.

(** Nothing is removed from the team [Owners]: when it is the old team,
    [remove_repo] is not called, the tool does the same whatever that
    operation is. *)
Theorem mv_never_removes_from_owners organization add_repo remove_repo
    remove_repo' a s :
  mv_oldteam a = "Owners" →
  mv_main organization add_repo remove_repo a s
  = mv_main organization add_repo remove_repo' a s.
Proof.
  intros Ho. unfold mv_main.
  destruct (organization _ _) as [[org|h] w]; [|done].
  assert (∀ move_me st s,
            mv_loop add_repo remove_repo a org move_me st s
            = mv_loop add_repo remove_repo' a org move_me st s) as ->; [|done].
  induction move_me as [|r rest IH]; intros st s0; cbn [mv_loop]; [done|].
  rewrite (mv_body_owners _ _ remove_repo') by done.
  destruct (mv_body _ _ _ _ _ _ _) as [[st'|h] s1]; [apply IH|done].
Qed.

Lemma mv_count_slept (op : W → outcome host_exn bool * W) status s r s' :
  mv_count op status s = (r, s') → mv_slept s' = mv_slept s.
Proof.
  unfold mv_count. destruct (op _) as [[b|h] w]; by intros [= _ <-].
Qed.

Lemma mv_body_slept add_repo remove_repo a org st r s st' s' :
  mv_body add_repo remove_repo a org st r s = (Ok st', s') →
  mv_slept s' = (mv_slept s + 1)%nat.
Proof.
  unfold mv_body. destruct st as [status status2].
  assert (∀ b p s, mv_slept (mv_print_if b p s) = mv_slept s) as Hp
    by (by intros [] ??).
  destruct (mv_dry_run a).
  - destruct (negb _); intros [= _ <-]; cbn [mv_sleep mv_slept];
      by rewrite ?Hp.
  - destruct (mv_count (add_repo _ _ _) _ _) as [[status'|h] s1] eqn:E1;
      [|done].
    apply mv_count_slept in E1. rewrite Hp in E1.
    destruct (negb _).
    + destruct (mv_count (remove_repo _ _ _) _ _) as [[status2'|h] s2] eqn:E2;
        [|done].
      apply mv_count_slept in E2. rewrite Hp in E2.
      intros [= _ <-]. cbn [mv_sleep mv_slept]. congruence.
    + intros [= _ <-]. cbn [mv_sleep mv_slept]. congruence.
Qed.

(** A run that returns has slept one second for each repository, dry run
    or not. *)
Theorem mv_sleeps_once_per_repo organization add_repo remove_repo a s s' :
  mv_main organization add_repo remove_repo a s = (Ok tt, s') →
  mv_slept s' = (mv_slept s + List.length (mv_repos a))%nat.
Proof.
  unfold mv_main.
  assert (∀ b p s, mv_slept (mv_print_if b p s) = mv_slept s) as Hp
    by (by intros [] ??).
  destruct (organization _ _) as [[org|h] w]; [|done].
  destruct (mv_loop _ _ _ _ _ _ _) as [[[status status2]|h] s1] eqn:E; [|done].
  intros [= <-]. rewrite !Hp.
  assert (∀ move_me st s st' s',
            mv_loop add_repo remove_repo a org move_me st s = (Ok st', s') →
            mv_slept s' = (mv_slept s + List.length move_me)%nat) as Hloop.
  { induction move_me as [|r rest IH]; intros st s0 st' s0'; cbn [mv_loop].
    - intros [= _ <-]. simpl. lia.
    - destruct (mv_body _ _ _ _ _ _ _) as [[st1|h] s2] eqn:Eb; [|done].
      intros Hl. apply IH in Hl. apply mv_body_slept in Eb. simpl. lia. }
  apply Hloop in E. rewrite E, ?Hp. cbn [mv_slept]. by rewrite ?Hp.
Qed.

(** The report of an addition follows the running count, not the answer:
    once an addition has succeeded, an addition that the organization
    answers with [False] is printed as [ok] and the count stays as it is;
    the iteration then goes on to the removal from the old team, or to the
    pause when the old team is [Owners]. *)
Theorem mv_reports_ok_after_success add_repo remove_repo a org status
    status2 r s w :
  mv_dry_run a = false →
  status ≠ 0%nat →
  add_repo org (mv_org a ++ "/" ++ rstrip r) (mv_newteam a) (mv_hub s)
  = (Ok false, w) →
  let repo := mv_org a ++ "/" ++ rstrip r in
  let s1 :=
    MvState w
      (mv_out s
       ++ (if mv_debug a then [PAdding repo (mv_newteam a)] else [])
       ++ [POk])
      (mv_slept s) in
  mv_body add_repo remove_repo a org (status, status2) r s
  = if String.eqb (mv_oldteam a) "Owners"
    then (Ok (status, status2), mv_sleep 1 s1)
    else
      match mv_count (remove_repo org repo (mv_oldteam a)) status2
              (mv_print_if (mv_debug a) (PRemoving repo (mv_oldteam a)) s1)
      with
      | (Ok status2', s2) => (Ok (status, status2'), mv_sleep 1 s2)
      | (Raise h, s2) => (Raise h, s2)
      end.
Proof.
  intros Hdry Hst Hadd repo s1. unfold mv_body. fold repo.
  rewrite Hdry, orb_false_r.
  assert (mv_count (add_repo org repo (mv_newteam a)) status
            (mv_print_if (mv_debug a) (PAdding repo (mv_newteam a)) s)
          = (Ok status, s1)) as ->.
  { unfold mv_count.
    assert (mv_hub (mv_print_if (mv_debug a) (PAdding repo (mv_newteam a)) s)
            = mv_hub s) as -> by (by destruct (mv_debug a)).
    unfold repo at 1. rewrite Hadd, Nat.add_0_r.
    destruct (Nat.eqb_spec status 0); [done|].
    unfold s1. destruct (mv_debug a); unfold mv_print_if, mv_print;
      cbn [mv_hub mv_out mv_slept]; by rewrite <-?app_assoc. }
  destruct (String.eqb (mv_oldteam a) "Owners"); cbn [negb]; [done|].
  by destruct (mv_count _ _ _) as [[status2'|h] s2].
Qed.

End MvReposFacts.

Lemma mv_dry_run_calls_nothing_witness :
  ∃ s', mv_main ex_organization (ex_add_repo ["lsst/pipe_tasks"])
          ex_remove_repo
          {| mv_repos := ["pipe_tasks "; "apr_util"];
             mv_oldteam := "test_ext2"; mv_newteam := "test_ext";
             mv_org := "lsst"; mv_debug := false; mv_dry_run := true |}
          (MvState [] [] 0)
        = (Ok tt, s')
        ∧ mv_hub s' = [].
Proof.
  refine (proj2 (mv_dry_run_calls_nothing ex_organization
    (ex_add_repo ["lsst/pipe_tasks"]) ex_remove_repo
    {| mv_repos := ["pipe_tasks "; "apr_util"];
       mv_oldteam := "test_ext2"; mv_newteam := "test_ext";
       mv_org := "lsst"; mv_debug := false; mv_dry_run := true |}
    (MvState [] [] 0) _) "lsst" [] _); reflexivity.
Defined.

Lemma mv_never_removes_from_owners_witness :
  mv_main ex_organization (ex_add_repo ["lsst/pipe_tasks"]) ex_remove_repo
    {| mv_repos := ["pipe_tasks "]; mv_oldteam := "Owners";
       mv_newteam := "test_ext"; mv_org := "lsst"; mv_debug := true;
       mv_dry_run := false |} (MvState [] [] 0)
  = mv_main ex_organization (ex_add_repo ["lsst/pipe_tasks"])
      (λ _ _ _ w, (Raise (NonGithubError "GitHubError"), w))
      {| mv_repos := ["pipe_tasks "]; mv_oldteam := "Owners";
         mv_newteam := "test_ext"; mv_org := "lsst"; mv_debug := true;
         mv_dry_run := false |} (MvState [] [] 0).
Proof.
  apply (mv_never_removes_from_owners ex_organization). reflexivity.
Defined.

Lemma mv_sleeps_once_per_repo_witness :
  mv_slept
    (snd (mv_main ex_organization (ex_add_repo ["lsst/pipe_tasks"])
            ex_remove_repo ex_mv_args (MvState [] [] 0)))
  = (0 + List.length (mv_repos ex_mv_args))%nat.
Proof.
  apply (mv_sleeps_once_per_repo ex_organization
           (ex_add_repo ["lsst/pipe_tasks"]) ex_remove_repo ex_mv_args
           (MvState [] [] 0)).
  vm_compute; reflexivity.
Defined.

Lemma mv_reports_ok_after_success_witness :
  mv_body (ex_add_repo ["lsst/pipe_tasks"]) ex_remove_repo ex_mv_args "lsst"
    (1, 0)%nat "apr_util"
    (MvState [("lsst/pipe_tasks", "test_ext")] [POk; PFailed] 1)
  = (Ok (1, 0)%nat,
     MvState [("lsst/pipe_tasks", "test_ext")] [POk; PFailed; POk; PFailed]
       2).
Proof.
  apply (mv_reports_ok_after_success (ex_add_repo ["lsst/pipe_tasks"])
             ex_remove_repo ex_mv_args "lsst" 1 0 "apr_util"
             (MvState [("lsst/pipe_tasks", "test_ext")] [POk; PFailed] 1)
             [("lsst/pipe_tasks", "test_ext")]);
    [reflexivity|discriminate|reflexivity].
Defined.
